(* ===== verification/_CoqProject ===== *)
-Q . S2P
Prelude.v
TypeDesc.v
Meta.v
MetaKinds.v
ValueStore.v
Container.v
Doc.v
Xml.v
XmlText.v
Serialize.v
RoundTrip.v
Session.v
Query.v
