(* ===== verification/Prelude.v ===== *)
(** * A verification development of the VRMat data-container API

    The program is the C interface of the VRMat DLL,
    [src/WinFormsChaosApp/WinFormsChaosApp/exports.h]: a data container
    holding a [.vrmat]/[.vropt] material document in memory as a flat
    collection of plugins, each owning named parameters, with document,
    plugin and parameter metadata, typed parameter values, name lookup,
    unique-name synthesis, iterators, and XML load/save.  Clients hold an
    opaque [void*] and talk to it through [extern "C"] functions that
    return a new id, a nonzero status, or 0 on failure.

    ** Parts and files

    - [Prelude] (this file): 32-bit [unsigned int]/[int] ranges; the
      error kinds and a small result monad with its notations in
      [vrmat_scope]; the hint database [vrmat]; [find_key], the search by
      name over a [gmap Z _] that [GetElementId] and the parameter-name
      check use; maps whose values are distinct.
    - [TypeDesc] (Module [TypeDesc]): [enum class Rdt], [Stdt], [Sqdt]
      with their bit values, the type word of [DataContainer_SetValue]
      (their bitwise-OR) and its decoding [decode_type], the validity
      rule "floats can be array-ed, ints and strings can only be single",
      and [ValueData::components] / [isList].
    - [Meta] (Module [MetaMapper]): [enum class MetaCategories], [struct
      Meta] (its [char*] members as [option string], [nullptr] = [None]),
      and the masked read and write of [GetMeta]/[SetMeta] written once
      against the typeclass interface [MetaKind] (the attributes an
      element kind has, how each is read and how each is written) with
      its laws [MetaKindLaws].
    - [MetaKinds] (Module [MetaKinds]): the three instances: the
      document root (version, category, preview, tag, file name), a
      plugin ([<Asset url>], [<vrayplugin name>], class, version) and a
      parameter (name, type, [isUserData], [handler]).
    - [ValueStore] (Module [ValueStore]): what [DataContainer_SetValue]
      accepts and copies ([make_value]: decoded type word, list length,
      flat buffer of 32-bit words or C strings) and the [struct
      ValueData] callbacks of [DataContainer_GetValue] ([value_data]:
      one for a whole value, one per item of a string list).  Floats are
      kept as their 32-bit patterns and never interpreted.
    - [Container] (Module [Container]): the container state
      [DataContainer] (root attributes, [gmap Z] of plugins, [gmap Z] of
      parameters with owner, attributes and optional value, and the id
      counter), with one definition per export: [DataContainer_Create],
      [AddPlugin], [AddParameter], [GetElementId], [RemoveElement] (a
      plugin's parameters are removed with it), [SetValue], [GetValue],
      [GetMeta], [SetMeta].  [AddPlugin] and [SetMeta] do not check a
      plugin name against the others' ("It is user responsibility to
      assure name uniqueness if required", line 362).  So there are two
      invariants: [dc_sound] (ids, ownership, parameter names, value
      shapes, root), which every call keeps, and [dc_wf], [dc_sound]
      with unique plugin names, which a call keeps when it adds or
      renames a plugin to a free name.
    - [Doc] (Module [Doc]): the document by names the specification
      states its element graph with ([ADoc]: root attributes and plugins
      keyed by name, each with its parameters keyed by name), the
      abstraction [abs] from the id-keyed container (faithful when plugin
      names are unique), and the abstract operations [a_add_plugin],
      [a_add_param], [a_remove_plugin], [a_remove_param], [a_set_value]
      with their failures.
    - [Xml] (Module [Xml]): the XML tree the serializer reads and writes
      ([XElem]/[XText]), attribute lookup, decimal text of integers
      (through the Standard Library's [DecimalString]) and the splitting
      of a [<value>] text into its numbers.
    - [XmlText] (Module [XmlText]): the bytes under the trees: a printer
      with escaping, and a reader in two structural passes, a lexer a
      byte at a time through the states of a tag, an attribute and a
      text, and a builder matching tags on a stack of open elements.
    - [Serialize] (Module [Serializer]): [DataContainer_Save] ([emit]:
      the legacy layout 0, [<Asset>]/[<vrayplugin>]/[<parameter>], and
      the compact layout 1, [<plugin>]/[<param>]), and
      [DataContainer_Load]/[DataContainer_Open] ([parse_doc]: the
      document read by calling the exported [AddPlugin], [AddParameter],
      [SetMeta] and [SetValue] in document order, the container emptied
      first as the header says).  Float texts go through the typeclass
      [FloatText] with its laws [FloatTextLaws] (exact round trip); the
      instance [bits_text] writes the bit pattern.  [DataContainer_Load_text]
      and [DataContainer_Save_text] are the calls on text: the [buffer]
      and [length] of the header (0 meaning up to the NUL), and the text
      written.
    - [RoundTrip] (Module [RoundTrip]): what a layout records of a
      document ([repr]), the condition [typed] (every parameter's type
      string names its value's descriptor), and the proof that Load
      reads back what Save wrote, one parser step at a time.
    - [Session] (Module [Session]): the exports as the C caller sees
      them ([exec]: return value and container, unchanged container on a
      0 return, Load and Open included), the containers reachable from
      [DataContainer_Create], those reachable by calls that keep plugin
      names unique ([keeps_names]: the caller's part of line 362), and
      traces of calls with the ids they returned.
    - [Query] (Module [Query]): [DataContainer_GetUniqueName] and the
      iterators [DataContainer_Iterator_Create]/[Increment] as snapshot
      cursors over the ids, with the client loop [visit_all].

    ** Theorems

    - Invariant and safety: every reachable container is [dc_sound]
      ([Session.reachable_sound]); ids returned along any trace are
      strictly increasing and never those of existing elements
      ([Session.run_ids_fresh]); plugin names stay unique along every
      session of calls that keep them so ([Session.reachable_names_unique]).
    - Type words: decoding inverts the OR-encoding and rejects stray bits
      ([TypeDesc.type_word_roundtrip]).
    - Values: [GetValue] rebuilds the [SetValue] call that stored a value
      ([ValueStore.get_value_roundtrip]); arrayed ints and strings are
      rejected; a float buffer of exactly the right size is stored as is.
    - Container operations, on every branch: removal cascades to the
      plugin's parameters and nothing else, later access fails with
      [NotFound], [AddPlugin] accepts a taken name and keeps names
      unique exactly when the name was free ([Container.add_plugin_names]),
      name lookup is exact, [SetMeta] of the plugin type changes that and
      nothing else, [GetMeta] reports the categories the header's rules
      give, and [GetValue] after [SetValue] reports the stored value.
    - Metadata, for any element kind satisfying [MetaKindLaws]: frame,
      written-value and read characterisation of the masked operations.
    - Query: the unique name is free and is the smallest free candidate;
      iterators visit each plugin, or each parameter of a plugin, exactly
      once and stop.
    - Refinement: [AddPlugin] of a free name, [AddParameter],
      [RemoveElement] on a plugin or a parameter, and [SetValue], seen
      through [Doc.abs], are the abstract operations on the document by
      names, failures included ([Doc.add_plugin_refines] and the next
      four).
    - Serializer: a load keeps the container sound and never lowers the
      id counter, a failed load leaves it empty, a successful one holds
      the document's plugins by name, so its names are unique exactly
      when the document's are ([Serializer.load_names_unique]); the
      emitters write a parameter's type in canonical form, a legacy
      alias as its canonical type.
    - Round trip: a [typed] well-formed container saved in layout 0 or 1
      loads back as [repr] of its document ([RoundTrip.save_load_roundtrip]),
      and every container a load builds is [typed]
      ([RoundTrip.load_typed]), so a second save and load gives back the
      document of the first ([RoundTrip.save_load_idempotent]).
    - Text: a printed well-formed document reads back as itself, so
      loading the text of a document is loading the document
      ([Serializer.load_text_print]); the text Save writes loads back as
      [repr] of the document ([RoundTrip.save_load_text]).
    - Liveness: a client that asks [GetUniqueName] for a name and adds a
      plugin under it succeeds every time while ids are left
      ([Query.add_unique_progress]).

    ** Bounds and fuel

    Ids are [unsigned int]: the counter starts at 1 (0 means "the
    container itself" or failure) and [AddPlugin]/[AddParameter] fail
    with [IdsExhausted] instead of wrapping past [2^32 - 1] (the header
    does not say what happens there; a wrapped id would alias id 0).  The list
    length of [SetValue] is an [int] and is range-checked.  The
    unique-name search tries at most one candidate more than there are
    plugins; by pigeonhole over distinct candidates this always finds a
    free one, so the fuel never runs out ([Query.candidates_not_all_taken]).
    The iteration loop is run with as many increments as there are
    elements, which [Query.visit_all_drop] shows is enough.
    The round trip needs one id per element saved: the container loaded
    into must have [dc_next + #plugins + #parameters <= 2^32]
    ([RoundTrip.plugs_count] counts them).  The parser and emitter are
    structural recursions over the tree and need no fuel.

    ** Not modelled

    The serializer behind [DataContainer_Open], [DataContainer_Load] and
    [DataContainer_Save] is not in the repository: it is modelled from
    the specification and the header's comments on the attributes.  The
    reader takes the subset of XML the documents use (no declarations,
    comments, CDATA or self-closing tags, no indentation between
    elements); the text of a float is the interface [FloatText]; the
    file reading of [Open] and writing of [Save] is I/O and is not
    modelled.  [DataContainer_Destroy] and
    [DataContainer_Iterator_Destroy] only release memory, and the
    lifetime of callback buffers is a memory-safety concern outside a
    value model.  Behaviours the header leaves open (an empty collection
    for [Iterator_Create], [GetValue] on a parameter never set, a
    nonzero list length for a single value, the parameter-name check of
    [AddParameter] and of a parameter rename) follow the project
    specification and are recorded as findings of the manifest; where
    the specification and the header disagree (the specification's
    [Conflict] on a taken plugin name, which the header leaves to the
    user) the model follows the header. *)

From Stdlib Require Import ZArith Lia.
From stdpp Require Import base decidable option list gmap strings.

Declare Scope vrmat_scope.
Delimit Scope vrmat_scope with vrmat.
Open Scope Z_scope.

(** ** Machine integers of the C interface *)

(** [unsigned int] is 32 bits wide on every platform the DLL is built for;
    [int] is its signed counterpart. *)
Definition u32_max : Z := 2 ^ 32 - 1.
Definition i32_min : Z := - 2 ^ 31.
Definition i32_max : Z := 2 ^ 31 - 1.

Lemma u32_max_val : u32_max = 4294967295.
Proof. reflexivity. Qed.

Definition in_u32 (z : Z) : bool := (0 <=? z) && (z <=? u32_max).
Definition in_i32 (z : Z) : bool := (i32_min <=? z) && (z <=? i32_max).

(** ** Results of the exported functions

    Every exported function reports success as a nonzero [int] (or a
    nonzero id) and failure as [0]; the model keeps the reason. *)
Inductive Error :=
  | InvalidArgument
  | NotFound
  | Conflict
  | MetaScopeMismatch
  | ParseError
  | WriteError
  | IdsExhausted.

#[export] Instance Error_eq_dec : EqDecision Error.
Proof. solve_decision. Defined.

Inductive result (A : Type) : Type :=
  | Ok (a : A)
  | Err (e : Error).
Arguments Ok {A} a.
Arguments Err {A} e.

Definition rbind {A B} (m : result A) (k : A -> result B) : result B :=
  match m with
  | Ok a => k a
  | Err e => Err e
  end.

Definition rmap {A B} (f : A -> B) (m : result A) : result B :=
  match m with
  | Ok a => Ok (f a)
  | Err e => Err e
  end.

(** [ensure b e] is a guard: the early [return 0] of the C code. *)
Definition ensure (b : bool) (e : Error) : result unit :=
  if b then Ok tt else Err e.

Definition of_option {A} (e : Error) (o : option A) : result A :=
  match o with
  | Some a => Ok a
  | None => Err e
  end.

Notation "x <- m ;; k" := (rbind m (fun x => k))
  (at level 60, m at next level, right associativity) : vrmat_scope.
Notation "m ;;; k" := (rbind m (fun _ : unit => k))
  (at level 60, right associativity) : vrmat_scope.

(** The C boundary: nonzero for success, zero for failure. *)
Definition c_status {A} (r : result A) : Z :=
  match r with
  | Ok _ => 1
  | Err _ => 0
  end.

Definition is_ok {A} (r : result A) : bool :=
  match r with
  | Ok _ => true
  | Err _ => false
  end.

Local Open Scope vrmat_scope.

(** ** Generic lemmas on results *)

Lemma rbind_Ok {A B} (m : result A) (k : A -> result B) b :
  rbind m k = Ok b <-> exists a, m = Ok a /\ k a = Ok b.
Proof.
  destruct m as [a|e]; simpl; split.
  - eauto.
  - intros (a' & [= ->] & ?); done.
  - done.
  - intros (? & ? & _); done.
Qed.

Lemma rbind_Err {A B} (m : result A) (k : A -> result B) e :
  rbind m k = Err e <-> m = Err e \/ exists a, m = Ok a /\ k a = Err e.
Proof.
  destruct m as [a|e']; simpl; split.
  - eauto.
  - intros [?|(a' & [= ->] & ?)]; done.
  - intros [= ->]; auto.
  - intros [[= ->]|(? & ? & _)]; done.
Qed.

Lemma ensure_Ok b e u : ensure b e = Ok u <-> b = true.
Proof. destruct b, u; simpl; split; intros; done. Qed.

Lemma ensure_Err b e e' : ensure b e = Err e' <-> b = false /\ e = e'.
Proof.
  destruct b; simpl; split.
  - discriminate.
  - intros [? _]; discriminate.
  - intros [= ->]; auto.
  - intros [_ ->]; auto.
Qed.

Lemma of_option_Ok {A} e (o : option A) a : of_option e o = Ok a <-> o = Some a.
Proof. destruct o; simpl; split; intros; simplify_eq; done. Qed.

Lemma of_option_Err {A} e (o : option A) e' :
  of_option e o = Err e' <-> o = None /\ e = e'.
Proof.
  destruct o; simpl; split.
  - discriminate.
  - intros [? _]; discriminate.
  - intros [= ->]; auto.
  - intros [_ ->]; auto.
Qed.

Lemma c_status_Ok {A} (r : result A) : c_status r <> 0 <-> is_ok r = true.
Proof. destruct r; simpl; split; intros; done. Qed.

Lemma in_u32_spec z : in_u32 z = true <-> 0 <= z <= u32_max.
Proof. unfold in_u32. rewrite andb_true_iff, !Z.leb_le. done. Qed.

Lemma in_i32_spec z : in_i32 z = true <-> i32_min <= z <= i32_max.
Proof. unfold in_i32. rewrite andb_true_iff, !Z.leb_le. done. Qed.

(** ** Automation

    [vrmat] resolves the small facts the component files share;
    [res_inv] takes apart a successful or failed chain of [rbind]s and
    guards in a hypothesis, as one reads the early returns of C code. *)
Create HintDb vrmat discriminated.

#[export] Hint Resolve <- in_u32_spec : vrmat.
#[export] Hint Resolve <- in_i32_spec : vrmat.

Ltac res_inv :=
  repeat match goal with
  | H : rbind _ _ = Ok _ |- _ =>
      apply rbind_Ok in H; destruct H as (? & ? & H)
  | H : ensure _ _ = Ok _ |- _ => apply ensure_Ok in H
  | H : of_option _ _ = Ok _ |- _ => apply of_option_Ok in H
  | H : Ok _ = Ok _ |- _ => injection H as H
  | H : Err _ = Ok _ |- _ => discriminate H
  | H : Ok _ = Err _ |- _ => discriminate H
  end.

(** ** Generic lemmas on lists and maps *)

(** The first key of [m], in the map's enumeration order, whose value
    satisfies [p]: how the container answers a by-name query. *)
Definition find_key {V} (p : V -> bool) (m : gmap Z V) : option Z :=
  (fun ikv : nat * (Z * V) => ikv.2.1)
    <$> list_find (fun kv : Z * V => p kv.2 = true) (map_to_list m).

Lemma find_key_Some {V} (p : V -> bool) (m : gmap Z V) k :
  find_key p m = Some k -> exists v, m !! k = Some v /\ p v = true.
Proof.
  unfold find_key. intros ([i [k' v]] & Hf & ->)%fmap_Some.
  apply list_find_Some in Hf as (Hl & Hp & _). simpl in *.
  exists v. split; [|done].
  apply elem_of_map_to_list. eapply list_elem_of_lookup_2; eauto.
Qed.

Lemma find_key_None {V} (p : V -> bool) (m : gmap Z V) :
  find_key p m = None -> forall k v, m !! k = Some v -> p v = false.
Proof.
  unfold find_key. intros Hn%fmap_None k v Hk.
  apply list_find_None in Hn. rewrite Forall_forall in Hn.
  destruct (p v) eqn:E; [|done]. exfalso.
  apply (Hn (k, v)); [|done].
  apply elem_of_map_to_list, Hk.
Qed.

(** When at most one value satisfies [p], [find_key] finds it. *)
Lemma find_key_unique {V} (p : V -> bool) (m : gmap Z V) k v :
  (forall k' v', m !! k' = Some v' -> p v' = true -> k' = k) ->
  m !! k = Some v -> p v = true -> find_key p m = Some k.
Proof.
  intros Huniq Hk Hp. destruct (find_key p m) as [k'|] eqn:E.
  - apply find_key_Some in E as (v' & Hk' & Hp'). f_equal. eauto.
  - eapply find_key_None in E; [|exact Hk]. congruence.
Qed.

(** ** Maps built from a list keyed by a projection *)

(** [list_to_map] over a list whose elements have distinct keys: the map
    holds exactly the elements' images. *)
Section Keyed.
Context {K A B : Type} `{Countable K}.
Context (f : A -> K) (g : A -> B).

Lemma list_to_map_keyed (l : list A) k b :
  NoDup l -> (forall x y, x ∈ l -> y ∈ l -> f x = f y -> x = y) ->
  (list_to_map ((fun x => (f x, g x)) <$> l) : gmap K B) !! k = Some b <->
  exists x, x ∈ l /\ f x = k /\ g x = b.
Proof.
  intros Hnd Hinj. rewrite <- elem_of_list_to_map.
  - rewrite list_elem_of_fmap. naive_solver.
  - rewrite <- list_fmap_compose. by apply NoDup_fmap_2_strong.
Qed.

Lemma list_to_map_keyed_None (l : list A) k :
  (list_to_map ((fun x => (f x, g x)) <$> l) : gmap K B) !! k = None <->
  forall x, x ∈ l -> f x <> k.
Proof.
  rewrite <- not_elem_of_list_to_map, <- list_fmap_compose, list_elem_of_fmap. naive_solver.
Qed.
End Keyed.

(** Altering a key that is bound is inserting its new value. *)
Lemma alter_lookup_insert {K A} `{Countable K} (f : A -> A) (m : gmap K A) k x :
  m !! k = Some x -> alter f k m = <[k := f x]> m.
Proof.
  intros Hk. apply map_eq. intros j. destruct (decide (j = k)) as [->|Hj].
  - by rewrite lookup_alter_eq, lookup_insert_eq, Hk.
  - by rewrite lookup_alter_ne, lookup_insert_ne by done.
Qed.

(** ** Maps whose values are distinct *)

Lemma NoDup_fmap_eq {A B} (g : A -> B) (l : list A) x y :
  NoDup (g <$> l) -> x ∈ l -> y ∈ l -> g x = g y -> x = y.
Proof.
  induction l as [|z l IH]; simpl; [by intros _ ?%not_elem_of_nil|].
  intros [Hz Hl]%NoDup_cons Hx Hy Hg.
  apply elem_of_cons in Hx as [->|Hx], Hy as [->|Hy]; auto.
  - destruct Hz. rewrite Hg. by apply list_elem_of_fmap_2.
  - destruct Hz. rewrite <- Hg. by apply list_elem_of_fmap_2.
Qed.

(** No two keys of [m] are bound to the same value exactly when the list
    of its values has no duplicate. *)
Lemma map_values_NoDup {K B} `{Countable K} (m : gmap K B) :
  (forall i j b, m !! i = Some b -> m !! j = Some b -> i = j) <-> NoDup (map_to_list m).*2.
Proof.
  split.
  - intros Hu. apply NoDup_fmap_2_strong; [|apply NoDup_map_to_list].
    intros [i a] [j b] Hi%elem_of_map_to_list Hj%elem_of_map_to_list; simpl. intros <-.
    assert (i = j) as <- by eauto. congruence.
  - intros Hnd i j b Hi Hj.
    assert (Heq : (i, b) = (j, b)) by (eapply (NoDup_fmap_eq snd); [exact Hnd|by apply elem_of_map_to_list..|done]).
    congruence.
Qed.
