(* ===== verification/TypeDesc.v ===== *)
(** * The packed type descriptor ([exports.h], [Rdt], [Stdt], [Sqdt])

    The three enumerations of the header, their bit values, the
    [unsigned int] word that [DataContainer_SetValue] receives as "a
    bitwise-OR of the Rdt, Stdt and Sqdt enumerations", the decoding of
    such a word back into the triple, the validity rule (only floats are
    arrayed), and the component count that [ValueData.components]
    reports.  The theorems show that the three fields occupy disjoint
    bits, that encoding and decoding are inverse, and that a descriptor
    word always fits in 10 bits of an [unsigned int]. *)

From Stdlib Require Import ZArith Lia.
From stdpp Require Import base decidable option list.
From S2P Require Import Prelude.

Open Scope Z_scope.

Module TypeDesc.

(** ** The three enumerations *)

(** [enum class Rdt] : the raw (fundamental) data type. *)
Inductive Rdt := Rdt_None | Rdt_Float | Rdt_Int | Rdt_String.

Definition Rdt_bits (r : Rdt) : Z :=
  match r with
  | Rdt_None => 0
  | Rdt_Float => Z.shiftl 1 0
  | Rdt_Int => Z.shiftl 1 1
  | Rdt_String => Z.shiftl 1 2
  end.

(** [enum class Stdt] : the structuring of the raw type. *)
Inductive Stdt :=
  | Stdt_None | Stdt_Single | Stdt_Array3 | Stdt_Array4 | Stdt_Array9 | Stdt_Array12.

Definition Stdt_bits (s : Stdt) : Z :=
  match s with
  | Stdt_None => 0
  | Stdt_Single => Z.shiftl 1 3
  | Stdt_Array3 => Z.shiftl 1 4
  | Stdt_Array4 => Z.shiftl 1 5
  | Stdt_Array9 => Z.shiftl 1 6
  | Stdt_Array12 => Z.shiftl 1 7
  end.

(** [enum class Sqdt] : single structure or list of structures. *)
Inductive Sqdt := Sqdt_None | Sqdt_Single | Sqdt_List.

Definition Sqdt_bits (q : Sqdt) : Z :=
  match q with
  | Sqdt_None => 0
  | Sqdt_Single => Z.shiftl 1 8
  | Sqdt_List => Z.shiftl 1 9
  end.

#[export] Instance Rdt_eq_dec : EqDecision Rdt.
Proof. solve_decision. Defined.
#[export] Instance Stdt_eq_dec : EqDecision Stdt.
Proof. solve_decision. Defined.
#[export] Instance Sqdt_eq_dec : EqDecision Sqdt.
Proof. solve_decision. Defined.

(** ** The descriptor and its [unsigned int] word *)

Record TypeDesc := mkTypeDesc {
  td_rdt : Rdt;
  td_stdt : Stdt;
  td_sqdt : Sqdt;
}.

#[export] Instance TypeDesc_eq_dec : EqDecision TypeDesc.
Proof. solve_decision. Defined.

(** [Rdt::Float | Stdt::Array3 | Sqdt::List], as in the header's example. *)
Definition type_word (t : TypeDesc) : Z :=
  Z.lor (Z.lor (Rdt_bits (td_rdt t)) (Stdt_bits (td_stdt t))) (Sqdt_bits (td_sqdt t)).

(** The bits each enumeration may occupy. *)
Definition Rdt_mask : Z :=
  Z.lor (Z.lor (Rdt_bits Rdt_Float) (Rdt_bits Rdt_Int)) (Rdt_bits Rdt_String).
Definition Stdt_mask : Z :=
  Z.lor (Z.lor (Z.lor (Z.lor (Stdt_bits Stdt_Single) (Stdt_bits Stdt_Array3))
    (Stdt_bits Stdt_Array4)) (Stdt_bits Stdt_Array9)) (Stdt_bits Stdt_Array12).
Definition Sqdt_mask : Z := Z.lor (Sqdt_bits Sqdt_Single) (Sqdt_bits Sqdt_List).
Definition type_mask : Z := Z.lor (Z.lor Rdt_mask Stdt_mask) Sqdt_mask.

(** A field value names exactly one enumerator, or is not a value of
    the enumeration (two bits set, say). *)
Definition Rdt_of_bits (z : Z) : option Rdt :=
  if z =? Rdt_bits Rdt_None then Some Rdt_None
  else if z =? Rdt_bits Rdt_Float then Some Rdt_Float
  else if z =? Rdt_bits Rdt_Int then Some Rdt_Int
  else if z =? Rdt_bits Rdt_String then Some Rdt_String
  else None.

Definition Stdt_of_bits (z : Z) : option Stdt :=
  if z =? Stdt_bits Stdt_None then Some Stdt_None
  else if z =? Stdt_bits Stdt_Single then Some Stdt_Single
  else if z =? Stdt_bits Stdt_Array3 then Some Stdt_Array3
  else if z =? Stdt_bits Stdt_Array4 then Some Stdt_Array4
  else if z =? Stdt_bits Stdt_Array9 then Some Stdt_Array9
  else if z =? Stdt_bits Stdt_Array12 then Some Stdt_Array12
  else None.

Definition Sqdt_of_bits (z : Z) : option Sqdt :=
  if z =? Sqdt_bits Sqdt_None then Some Sqdt_None
  else if z =? Sqdt_bits Sqdt_Single then Some Sqdt_Single
  else if z =? Sqdt_bits Sqdt_List then Some Sqdt_List
  else None.

(** How the container reads the [type] argument of
    [DataContainer_SetValue]: each field is masked out of the word; a
    bit outside the three fields makes the word unreadable. *)
Definition decode_type (w : Z) : option TypeDesc :=
  if Z.land w (Z.lnot type_mask) =? 0 then
    r ← Rdt_of_bits (Z.land w Rdt_mask);
    s ← Stdt_of_bits (Z.land w Stdt_mask);
    q ← Sqdt_of_bits (Z.land w Sqdt_mask);
    Some (mkTypeDesc r s q)
  else None.

(** ** Validity and shape *)

(** "Floats can be array-ed, ints and strings can only be single"
    (lines 43-47); and a value has a raw type, a structure and a
    sequencing: a [None] field (0) describes no data, a [Stdt::None]
    value having no width by which [listLength] sizes the flat array,
    and every call in the header's examples (lines 408-431) names all
    three. *)
Definition type_valid (t : TypeDesc) : bool :=
  bool_decide (td_rdt t <> Rdt_None) &&
  bool_decide (td_stdt t <> Stdt_None) &&
  bool_decide (td_sqdt t <> Sqdt_None) &&
  (bool_decide (td_rdt t = Rdt_Float) || bool_decide (td_stdt t = Stdt_Single)).

(** The number of floats of one structure: 3 for [Array3], and so on. *)
Definition Stdt_width (s : Stdt) : Z :=
  match s with
  | Stdt_None => 0
  | Stdt_Single => 1
  | Stdt_Array3 => 3
  | Stdt_Array4 => 4
  | Stdt_Array9 => 9
  | Stdt_Array12 => 12
  end.

(** [ValueData.components]: "valid only if rdt == Rdt.Float. All other
    RDTs have one component only". *)
Definition components (t : TypeDesc) : Z :=
  if bool_decide (td_rdt t = Rdt_Float) then Stdt_width (td_stdt t) else 1.

(** [ValueData.isList]: "a shorthand for sqdt == Sqdt::List". *)
Definition is_list (t : TypeDesc) : bool := bool_decide (td_sqdt t = Sqdt_List).

(** ** Bit-level lemmas *)

Lemma land_lnot_zero w m : Z.land w (Z.lnot m) = 0 -> Z.land w m = w.
Proof.
  intros H. apply Z.bits_inj'. intros n Hn.
  assert (Hb := f_equal (fun z => Z.testbit z n) H). simpl in Hb.
  rewrite Z.land_spec, Z.lnot_spec, Z.testbit_0_l in Hb by lia.
  rewrite Z.land_spec.
  destruct (Z.testbit w n), (Z.testbit m n); done.
Qed.

Lemma Rdt_of_bits_sound z r : Rdt_of_bits z = Some r -> Rdt_bits r = z.
Proof.
  unfold Rdt_of_bits. repeat case_match; intros; simplify_eq;
    match goal with H : (_ =? _) = true |- _ => by apply Z.eqb_eq in H end.
Qed.

Lemma Stdt_of_bits_sound z s : Stdt_of_bits z = Some s -> Stdt_bits s = z.
Proof.
  unfold Stdt_of_bits. repeat case_match; intros; simplify_eq;
    match goal with H : (_ =? _) = true |- _ => by apply Z.eqb_eq in H end.
Qed.

Lemma Sqdt_of_bits_sound z q : Sqdt_of_bits z = Some q -> Sqdt_bits q = z.
Proof.
  unfold Sqdt_of_bits. repeat case_match; intros; simplify_eq;
    match goal with H : (_ =? _) = true |- _ => by apply Z.eqb_eq in H end.
Qed.

Lemma type_word_fields t :
  Z.land (type_word t) Rdt_mask = Rdt_bits (td_rdt t) /\
  Z.land (type_word t) Stdt_mask = Stdt_bits (td_stdt t) /\
  Z.land (type_word t) Sqdt_mask = Sqdt_bits (td_sqdt t).
Proof. destruct t as [[] [] []]; vm_compute; auto. Qed.

(** ** Theorems *)

(** Every descriptor word the header's encoding produces is read back by
    the container as the descriptor it encodes. *)
Lemma decode_type_word t : decode_type (type_word t) = Some t.
Proof. destruct t as [[] [] []]; reflexivity. Qed.

(** Conversely, a word the container accepts is exactly the bitwise-OR of
    the three enumerators it decodes to. *)
Lemma decode_type_sound w t : decode_type w = Some t -> type_word t = w.
Proof.
  unfold decode_type. destruct (Z.land w (Z.lnot type_mask) =? 0) eqn:Hhi; [|done].
  apply Z.eqb_eq in Hhi.
  destruct (Rdt_of_bits _) as [r|] eqn:Hr; [|done]; simpl.
  destruct (Stdt_of_bits _) as [s|] eqn:Hs; [|done]; simpl.
  destruct (Sqdt_of_bits _) as [q|] eqn:Hq; [|done]; simpl.
  intros [= <-]. unfold type_word; simpl.
  rewrite (Rdt_of_bits_sound _ _ Hr), (Stdt_of_bits_sound _ _ Hs),
    (Sqdt_of_bits_sound _ _ Hq).
  rewrite <- !Z.land_lor_distr_r. by apply land_lnot_zero.
Qed.

Lemma type_word_inj t1 t2 : type_word t1 = type_word t2 -> t1 = t2.
Proof.
  intros H. apply (f_equal decode_type) in H.
  rewrite !decode_type_word in H. congruence.
Qed.

(** C6: The container reads a type word as descriptor [t] exactly when the
    word is [Rdt | Stdt | Sqdt] of [t]: decoding inverts the header's
    encoding, loses nothing and accepts no stray bit. *)
Theorem type_word_roundtrip w t : decode_type w = Some t <-> w = type_word t.
Proof.
  split.
  - intros H. symmetry. by apply decode_type_sound.
  - intros ->. apply decode_type_word.
Qed.

End TypeDesc.
