(* ===== verification/Meta.v ===== *)
(** * The masked metadata structure ([exports.h], [MetaCategories], [Meta])

    [MetaCategories] as an enumeration of the thirteen single-bit
    categories with the header's bit values and its four composite masks;
    the packed [struct Meta] as a record with one field per C member
    ([const char*] as [option string], [nullptr] being [None]); and the
    correspondence between a category bit and the struct member it
    selects.  The masked read and write of an element's metadata
    ([DataContainer_GetMeta] / [DataContainer_SetMeta]) are written once,
    against the [MetaKind] interface that each kind of element (the
    document root, a plugin, a parameter) implements in [MetaKinds.v]. *)

From Stdlib Require Import ZArith Lia.
From stdpp Require Import base decidable option list sets strings.
From S2P Require Import Prelude.

Open Scope Z_scope.
Local Open Scope vrmat_scope.

Module MetaMapper.

(** ** [enum class MetaCategories] *)

Inductive MetaField :=
  | RootVersion | RootCategory | RootPreview | RootTag | RootFileName
  | PluginName | PluginType | PluginClass | PluginVersion
  | ParamName | ParamType | ParamCustom | ParamFilePath.

#[export] Instance MetaField_eq_dec : EqDecision MetaField.
Proof. solve_decision. Defined.

(** The shift of each category: [RootVersion = 1 << 0], ... *)
Definition mc_index (f : MetaField) : Z :=
  match f with
  | RootVersion => 0 | RootCategory => 1 | RootPreview => 2 | RootTag => 3
  | RootFileName => 4
  | PluginName => 5 | PluginType => 6 | PluginClass => 7 | PluginVersion => 8
  | ParamName => 9 | ParamType => 10 | ParamCustom => 11 | ParamFilePath => 12
  end.

Definition mc_bit (f : MetaField) : Z := Z.shiftl 1 (mc_index f).

Definition MC_None : Z := 0.
Definition MC_Root : Z :=
  Z.lor (Z.lor (Z.lor (Z.lor (mc_bit RootVersion) (mc_bit RootCategory))
    (mc_bit RootPreview)) (mc_bit RootTag)) (mc_bit RootFileName).
Definition MC_Plugin : Z :=
  Z.lor (Z.lor (Z.lor (mc_bit PluginName) (mc_bit PluginType))
    (mc_bit PluginClass)) (mc_bit PluginVersion).
Definition MC_Param : Z :=
  Z.lor (Z.lor (Z.lor (mc_bit ParamName) (mc_bit ParamType))
    (mc_bit ParamCustom)) (mc_bit ParamFilePath).
Definition MC_All : Z := Z.lor (Z.lor MC_Root MC_Plugin) MC_Param.

(** [mask & MetaCategories::f] is nonzero. *)
Definition in_mask (f : MetaField) (mask : Z) : bool :=
  negb (Z.land mask (mc_bit f) =? 0).

(** A mask addresses only the categories of [scope]. *)
Definition scope_ok (mask scope : Z) : bool := Z.land mask (Z.lnot scope) =? 0.

(** ** [struct Meta] *)

Record Meta := mkMeta {
  mask : Z;
  version : Z;
  category : option string;
  preview : option string;
  tag : option string;
  fileName : option string;
  pluginName : option string;
  pluginType : option string;
  pluginClass : option string;
  pluginVersion : Z;
  paramName : option string;
  paramType : option string;
  paramCustom : Z;
  paramFilePath : Z;
}.

(** The value of one member: an [int] or a [const char*]. *)
Inductive FieldVal := FInt (z : Z) | FStr (s : option string).

#[export] Instance FieldVal_eq_dec : EqDecision FieldVal.
Proof. solve_decision. Defined.

(** The member a category selects. *)
Definition meta_get_field (f : MetaField) (m : Meta) : FieldVal :=
  match f with
  | RootVersion => FInt (version m)
  | RootCategory => FStr (category m)
  | RootPreview => FStr (preview m)
  | RootTag => FStr (tag m)
  | RootFileName => FStr (fileName m)
  | PluginName => FStr (pluginName m)
  | PluginType => FStr (pluginType m)
  | PluginClass => FStr (pluginClass m)
  | PluginVersion => FInt (pluginVersion m)
  | ParamName => FStr (paramName m)
  | ParamType => FStr (paramType m)
  | ParamCustom => FInt (paramCustom m)
  | ParamFilePath => FInt (paramFilePath m)
  end.

(** Whether a value has the C type of the member. *)
Definition field_typed (f : MetaField) (v : FieldVal) : bool :=
  match f, v with
  | (RootVersion | PluginVersion | ParamCustom | ParamFilePath), FInt _ => true
  | (RootVersion | PluginVersion | ParamCustom | ParamFilePath), FStr _ => false
  | _, FStr _ => true
  | _, FInt _ => false
  end.

(** Assigning one member of the struct ([meta->f = v]). *)
Definition meta_set_field (f : MetaField) (v : FieldVal) (m : Meta) : Meta :=
  let 'mkMeta mk ve ca pr ta fi pn pt pc pv an at' ac af := m in
  match f, v with
  | RootVersion, FInt z => mkMeta mk z ca pr ta fi pn pt pc pv an at' ac af
  | RootCategory, FStr s => mkMeta mk ve s pr ta fi pn pt pc pv an at' ac af
  | RootPreview, FStr s => mkMeta mk ve ca s ta fi pn pt pc pv an at' ac af
  | RootTag, FStr s => mkMeta mk ve ca pr s fi pn pt pc pv an at' ac af
  | RootFileName, FStr s => mkMeta mk ve ca pr ta s pn pt pc pv an at' ac af
  | PluginName, FStr s => mkMeta mk ve ca pr ta fi s pt pc pv an at' ac af
  | PluginType, FStr s => mkMeta mk ve ca pr ta fi pn s pc pv an at' ac af
  | PluginClass, FStr s => mkMeta mk ve ca pr ta fi pn pt s pv an at' ac af
  | PluginVersion, FInt z => mkMeta mk ve ca pr ta fi pn pt pc z an at' ac af
  | ParamName, FStr s => mkMeta mk ve ca pr ta fi pn pt pc pv s at' ac af
  | ParamType, FStr s => mkMeta mk ve ca pr ta fi pn pt pc pv an s ac af
  | ParamCustom, FInt z => mkMeta mk ve ca pr ta fi pn pt pc pv an at' z af
  | ParamFilePath, FInt z => mkMeta mk ve ca pr ta fi pn pt pc pv an at' ac z
  | _, _ => m
  end.

(** [meta->mask = z]. *)
Definition set_mask (z : Z) (m : Meta) : Meta :=
  let 'mkMeta _ ve ca pr ta fi pn pt pc pv an at' ac af := m in
  mkMeta z ve ca pr ta fi pn pt pc pv an at' ac af.

(** A zeroed struct, as a caller declares [VRMat::Meta meta = {}]. *)
Definition meta_zero : Meta :=
  mkMeta 0 0 None None None None None None None 0 None None 0 0.

(** ** Lemmas on masks and members *)

Lemma mc_bit_pow f : mc_bit f = 2 ^ mc_index f.
Proof. unfold mc_bit. rewrite Z.shiftl_1_l. done. Qed.

Lemma mc_index_range f : 0 <= mc_index f < 13.
Proof. destruct f; simpl; lia. Qed.

Lemma mc_index_inj f g : mc_index f = mc_index g -> f = g.
Proof. destruct f, g; simpl; intros; congruence. Qed.

Lemma in_mask_testbit f z : in_mask f z = Z.testbit z (mc_index f).
Proof.
  unfold in_mask. rewrite mc_bit_pow.
  pose proof (mc_index_range f) as Hr.
  destruct (Z.testbit z (mc_index f)) eqn:E.
  - replace (Z.land z (2 ^ mc_index f)) with (2 ^ mc_index f).
    + assert (0 < 2 ^ mc_index f) by (apply Z.pow_pos_nonneg; lia).
      destruct (Z.eqb_spec (2 ^ mc_index f) 0); [lia|done].
    + apply Z.bits_inj'. intros n Hn.
      rewrite Z.land_spec, Z.pow2_bits_eqb by lia.
      destruct (Z.eqb_spec (mc_index f) n); subst; [by rewrite E|].
      by rewrite andb_false_r.
  - replace (Z.land z (2 ^ mc_index f)) with 0; [done|].
    apply Z.bits_inj'. intros n Hn.
    rewrite Z.land_spec, Z.pow2_bits_eqb, Z.testbit_0_l by lia.
    destruct (Z.eqb_spec (mc_index f) n); subst; [by rewrite E|].
    by rewrite andb_false_r.
Qed.

Lemma in_mask_lor f x y : in_mask f (Z.lor x y) = in_mask f x || in_mask f y.
Proof. rewrite !in_mask_testbit. apply Z.lor_spec. Qed.

Lemma in_mask_land f x y : in_mask f (Z.land x y) = in_mask f x && in_mask f y.
Proof. rewrite !in_mask_testbit. apply Z.land_spec. Qed.

Lemma in_mask_bit f g : in_mask f (mc_bit g) = bool_decide (f = g).
Proof.
  rewrite in_mask_testbit, mc_bit_pow.
  pose proof (mc_index_range f). pose proof (mc_index_range g).
  rewrite Z.pow2_bits_eqb by lia.
  case_bool_decide as Hfg; [subst; apply Z.eqb_refl|].
  apply Z.eqb_neq. intros ?. apply Hfg, mc_index_inj. done.
Qed.

Lemma in_mask_zero f : in_mask f 0 = false.
Proof. rewrite in_mask_testbit. apply Z.testbit_0_l. Qed.

(** A mask within [scope] selects only categories of [scope]. *)
Lemma scope_ok_in_mask mask scope f :
  scope_ok mask scope = true -> in_mask f mask = true -> in_mask f scope = true.
Proof.
  unfold scope_ok. intros Hs%Z.eqb_eq Hm.
  rewrite in_mask_testbit in *.
  assert (Hb := f_equal (fun z => Z.testbit z (mc_index f)) Hs). simpl in Hb.
  pose proof (mc_index_range f).
  rewrite Z.land_spec, Z.lnot_spec, Z.testbit_0_l, Hm in Hb by lia.
  by destruct (Z.testbit scope (mc_index f)).
Qed.

Lemma meta_get_set_field f v m :
  field_typed f v = true -> meta_get_field f (meta_set_field f v m) = v.
Proof. destruct m, f, v; simpl; congruence. Qed.

Lemma meta_get_set_field_ne f g v m :
  f <> g -> meta_get_field g (meta_set_field f v m) = meta_get_field g m.
Proof. destruct m, f, g, v; simpl; congruence. Qed.

Lemma meta_get_field_typed f m : field_typed f (meta_get_field f m) = true.
Proof. destruct f; reflexivity. Qed.

Lemma meta_get_set_mask f z m : meta_get_field f (set_mask z m) = meta_get_field f m.
Proof. destruct m, f; reflexivity. Qed.

Lemma set_mask_mask z m : mask (set_mask z m) = z.
Proof. by destruct m. Qed.

Lemma mask_set_field f v m : mask (meta_set_field f v m) = mask m.
Proof. destruct m, f, v; reflexivity. Qed.

Create Rewrite HintDb vrmat_meta.
#[export] Hint Rewrite in_mask_lor in_mask_land in_mask_bit in_mask_zero
  meta_get_set_mask mask_set_field : vrmat_meta.


(** ** The interface an element kind implements

    An element kind (root, plugin, parameter) has the categories of one
    composite mask; for each it stores a member value, reports whether
    the value is present, and accepts or refuses a new value (a null
    name is refused).  [mk_norm] is the value the kind keeps for a
    written value: flags keep only zero or nonzero. *)
Class MetaKind (A : Type) := {
  mk_fields : list MetaField;
  mk_present : MetaField -> A -> bool;
  mk_stored : MetaField -> A -> FieldVal;
  mk_store : MetaField -> FieldVal -> A -> option A;
  mk_norm : MetaField -> FieldVal -> FieldVal;
}.

Class MetaKindLaws (A : Type) `{!MetaKind A} := {
  mk_fields_nodup : NoDup mk_fields;
  mk_stored_typed f a : field_typed f (mk_stored f a) = true;
  mk_store_stored f v a a' :
    mk_store f v a = Some a' -> mk_stored f a' = mk_norm f v;
  mk_store_other f g v a a' :
    f <> g -> mk_store f v a = Some a' -> mk_stored g a' = mk_stored g a;
}.

Section Generic.
Context {A : Type} `{!MetaKind A}.

(** The composite mask of the kind ([MetaCategories::Plugin], ...). *)
Definition mk_scope : Z := foldr (fun f acc => Z.lor (mc_bit f) acc) 0 mk_fields.

(** The categories the element carries a value for. *)
Definition present_mask (a : A) : Z :=
  foldr (fun f acc => if mk_present f a then Z.lor (mc_bit f) acc else acc) 0 mk_fields.

(** [DataContainer_GetMeta] on one element: the mask that comes back is
    the requested categories the element has; each of them is copied
    into its member; every other member of the caller's struct is left
    as it was. *)
Definition get_meta (a : A) (m : Meta) : result Meta :=
  if scope_ok (mask m) mk_scope then
    let out := Z.land (mask m) (present_mask a) in
    Ok (foldr (fun f m' => if in_mask f out then meta_set_field f (mk_stored f a) m' else m')
          (set_mask out m) mk_fields)
  else Err MetaScopeMismatch.

(** [DataContainer_SetMeta] on one element: the members selected by the
    mask are written, in the order of the kind's categories. *)
Fixpoint store_fields (m : Meta) (fs : list MetaField) (a : A) : option A :=
  match fs with
  | [] => Some a
  | f :: fs' =>
      a' ← (if in_mask f (mask m) then mk_store f (meta_get_field f m) a else Some a);
      store_fields m fs' a'
  end.

Definition set_meta (m : Meta) (a : A) : result A :=
  if scope_ok (mask m) mk_scope then
    of_option InvalidArgument (store_fields m mk_fields a)
  else Err MetaScopeMismatch.

End Generic.
Arguments mk_scope A {_}.

Section GenericLaws.
Context {A : Type} `{!MetaKind A} `{!MetaKindLaws A}.

Lemma in_mask_scope f : in_mask f (mk_scope A) = bool_decide (f ∈ mk_fields).
Proof.
  unfold mk_scope. induction (@mk_fields A _) as [|g fs IH]; simpl.
  - by rewrite in_mask_zero.
  - rewrite in_mask_lor, in_mask_bit, IH.
    apply eq_bool_prop_intro. rewrite orb_True, !bool_decide_spec. set_solver.
Qed.

Lemma in_mask_present f a :
  in_mask f (present_mask a) = bool_decide (f ∈ mk_fields) && mk_present f a.
Proof.
  unfold present_mask. induction (@mk_fields A _) as [|g fs IH]; simpl.
  - rewrite in_mask_zero. done.
  - destruct (mk_present g a) eqn:Hg; rewrite ?in_mask_lor, ?in_mask_bit, IH;
      apply eq_bool_prop_intro; rewrite ?orb_True, ?andb_True, !bool_decide_spec;
      destruct (decide (f = g)); subst; rewrite ?Hg; set_solver.
Qed.

(** Categories a write does not select keep their stored value. *)
Lemma store_fields_frame m fs a a' g :
  store_fields m fs a = Some a' ->
  g ∉ fs \/ in_mask g (mask m) = false ->
  mk_stored g a' = mk_stored g a.
Proof.
  revert a. induction fs as [|f fs IH]; simpl; intros a Hs Hg; [by simplify_eq|].
  destruct (in_mask f (mask m)) eqn:Hf; simpl in Hs.
  - destruct (mk_store f _ a) as [a1|] eqn:H1; simpl in Hs; [|done].
    rewrite (IH a1 Hs); [|set_solver].
    eapply mk_store_other; [|exact H1].
    intros ->. destruct Hg as [Hg|Hg]; [set_solver|congruence].
  - apply (IH a Hs). set_solver.
Qed.

Lemma store_fields_written m fs a a' f :
  NoDup fs -> store_fields m fs a = Some a' ->
  f ∈ fs -> in_mask f (mask m) = true ->
  mk_stored f a' = mk_norm f (meta_get_field f m).
Proof.
  revert a. induction fs as [|g fs IH]; simpl; intros a Hnd Hs Hin Hf;
    [set_solver|].
  apply NoDup_cons in Hnd as [Hg Hnd].
  destruct (decide (f = g)) as [->|Hne].
  - rewrite Hf in Hs. simpl in Hs.
    destruct (mk_store g _ a) as [a1|] eqn:H1; simpl in Hs; [|done].
    rewrite (store_fields_frame _ _ _ _ _ Hs) by auto.
    by eapply mk_store_stored.
  - destruct (in_mask g (mask m)); simpl in Hs;
      [destruct (mk_store g _ a) as [a1|]; simpl in Hs; [|done]|];
      eapply IH; eauto; set_solver.
Qed.

Lemma read_fields_get out a m0 fs f :
  meta_get_field f
    (foldr (fun g m' => if in_mask g out then meta_set_field g (mk_stored g a) m' else m')
       m0 fs) =
  if bool_decide (f ∈ fs) && in_mask f out then mk_stored f a else meta_get_field f m0.
Proof.
  induction fs as [|g fs IH]; simpl.
  - done.
  - destruct (decide (f = g)) as [->|Hne].
    + rewrite bool_decide_eq_true_2 by set_solver.
      destruct (in_mask g out); [|by rewrite IH, andb_false_r].
      apply meta_get_set_field, mk_stored_typed.
    + assert (bool_decide (f ∈ g :: fs) = bool_decide (f ∈ fs)) as ->.
      { apply bool_decide_ext. set_solver. }
      destruct (in_mask g out); [|done].
      rewrite meta_get_set_field_ne by congruence. done.
Qed.

Lemma read_fields_mask out a m0 fs :
  mask (foldr (fun g m' => if in_mask g out then meta_set_field g (mk_stored g a) m' else m')
          m0 fs) = mask m0.
Proof.
  induction fs as [|g fs IH]; simpl; [done|].
  destruct (in_mask g out); [|done]. by rewrite mask_set_field.
Qed.

(** A mask that passed the scope check selects only the kind's categories. *)
Lemma scope_ok_fields m f :
  scope_ok (mask m) (mk_scope A) = true -> in_mask f (mask m) = true -> f ∈ mk_fields.
Proof.
  intros Hs Hf. pose proof (scope_ok_in_mask _ _ f Hs Hf) as H.
  rewrite in_mask_scope in H. by apply bool_decide_eq_true in H.
Qed.

(** A property every single store keeps is kept by a masked write. *)
Lemma set_meta_preserves (P : A -> Prop) m a a' :
  (forall f v x x', P x -> mk_store f v x = Some x' -> P x') ->
  P a -> set_meta m a = Ok a' -> P a'.
Proof.
  intros HP Ha. unfold set_meta. destruct (scope_ok _ _); [|done].
  intros Hs%of_option_Ok. revert a Ha Hs.
  induction (@mk_fields A _) as [|f fs IH]; simpl; intros a Ha Hs; [by simplify_eq|].
  destruct (in_mask f (mask m)); simpl in Hs;
    [destruct (mk_store f _ a) as [a1|] eqn:H1; simpl in Hs; [|done]|].
  - eapply IH; [|exact Hs]. eauto.
  - eauto.
Qed.

(** ** Theorems of the masked read and write *)

(** C14: A write leaves every category its mask does not select as it was,
    including, for a plugin, its name and class when only the type is
    written. *)
Theorem set_meta_frame m a a' g :
  set_meta m a = Ok a' -> in_mask g (mask m) = false -> mk_stored g a' = mk_stored g a.
Proof.
  unfold set_meta. destruct (scope_ok _ _); [|done].
  intros Hs%of_option_Ok Hg. eapply store_fields_frame; eauto.
Qed.

(** C15: A write stores, for every category its mask selects, the member of
    the caller's struct (normalised as the kind keeps it). *)
Theorem set_meta_written m a a' f :
  set_meta m a = Ok a' -> in_mask f (mask m) = true ->
  mk_stored f a' = mk_norm f (meta_get_field f m).
Proof.
  unfold set_meta. destruct (scope_ok _ _) eqn:Hsc; [|done].
  intros Hs%of_option_Ok Hf. eapply store_fields_written; eauto.
  - apply mk_fields_nodup.
  - eapply scope_ok_fields; eauto.
Qed.

(** A read answers with the requested categories the element has, fills
    exactly their members, and leaves the caller's other members alone. *)
Lemma get_meta_spec a m m' :
  get_meta a m = Ok m' ->
  mask m' = Z.land (mask m) (present_mask a) /\
  forall f, meta_get_field f m' =
    if in_mask f (mask m') then mk_stored f a else meta_get_field f m.
Proof.
  unfold get_meta. destruct (scope_ok _ _) eqn:Hsc; [|done]. intros [= <-].
  rewrite read_fields_mask, set_mask_mask. split; [done|]. intros f.
  rewrite read_fields_get, meta_get_set_mask.
  destruct (in_mask f _) eqn:Hf; [|by rewrite andb_false_r].
  rewrite in_mask_land in Hf. apply andb_prop in Hf as [Hf _].
  rewrite bool_decide_eq_true_2; [done|]. by eapply scope_ok_fields.
Qed.

(** The categories a read reports are those requested that the element
    has; the others keep the caller's member. *)
Lemma get_meta_in_mask a m m' f :
  get_meta a m = Ok m' -> in_mask f (mask m') = in_mask f (mask m) && mk_present f a.
Proof.
  intros E. destruct (get_meta_spec a m m' E) as [-> _]. rewrite in_mask_land, in_mask_present.
  unfold get_meta in E. destruct (scope_ok _ _) eqn:Hsc; [|done].
  destruct (in_mask f (mask m)) eqn:Hf; [|done]. simpl.
  by rewrite bool_decide_eq_true_2 by (eapply scope_ok_fields; eauto).
Qed.

Lemma get_meta_frame a m m' f :
  get_meta a m = Ok m' -> in_mask f (mask m') = false -> meta_get_field f m' = meta_get_field f m.
Proof. intros E Hf. destruct (get_meta_spec a m m' E) as [_ ->]. by rewrite Hf. Qed.

End GenericLaws.

End MetaMapper.
