(* ===== verification/MetaKinds.v ===== *)
(** * The three element kinds behind [DataContainer_GetMeta]/[SetMeta]

    The attributes the container keeps for the document root (the
    [root] members of [struct Meta]), for a plugin (the [<Asset>] and
    [<vrayplugin>] attributes) and for a parameter (the [<parameter>]
    attributes), each an instance of [MetaMapper.MetaKind] with its laws.
    Presence follows the header: the category exists only for a version 1
    document, the preview, file name and plugin version only when set. *)

From Stdlib Require Import ZArith Lia.
From stdpp Require Import base decidable option list sets strings.
From S2P Require Import Prelude Meta.
Import MetaMapper.

Open Scope Z_scope.

Module MetaKinds.

(** The stored value of a category the kind does not have. *)
Definition field_default (f : MetaField) : FieldVal :=
  if field_typed f (FInt 0) then FInt 0 else FStr None.

Lemma field_default_typed f : field_typed f (field_default f) = true.
Proof. by destruct f. Qed.

(** ** The document root *)

(** The root tags the header lists: [<vrmat>], [<vropt>] and the legacy
    [<vismat>], [<visopt>]. *)
Definition root_tags : list string := ["vrmat"; "vropt"; "vismat"; "visopt"]%string.

Record RootAttrs := mkRootAttrs {
  r_version : Z;
  r_category : option string;
  r_preview : option string;
  r_tag : string;
  r_fileName : option string;
}.

Definition root_present (f : MetaField) (r : RootAttrs) : bool :=
  match f with
  | RootVersion | RootTag => true
  | RootCategory => (r_version r =? 1) && bool_decide (is_Some (r_category r))
  | RootPreview => bool_decide (is_Some (r_preview r))
  | RootFileName => bool_decide (is_Some (r_fileName r))
  | _ => false
  end.

Definition root_stored (f : MetaField) (r : RootAttrs) : FieldVal :=
  match f with
  | RootVersion => FInt (r_version r)
  | RootCategory => FStr (r_category r)
  | RootPreview => FStr (r_preview r)
  | RootTag => FStr (Some (r_tag r))
  | RootFileName => FStr (r_fileName r)
  | _ => field_default f
  end.

(** The version is 0 or 1 and the tag one of [root_tags]; the category,
    preview and file name may be reset by a null pointer.  A category
    written to a version 0 document is kept, unreported, for a later
    switch to version 1. *)
Definition root_store (f : MetaField) (v : FieldVal) (r : RootAttrs) : option RootAttrs :=
  let 'mkRootAttrs ve ca pr ta fi := r in
  match f, v with
  | RootVersion, FInt z =>
      if (z =? 0) || (z =? 1) then Some (mkRootAttrs z ca pr ta fi) else None
  | RootCategory, FStr s => Some (mkRootAttrs ve s pr ta fi)
  | RootPreview, FStr s => Some (mkRootAttrs ve ca s ta fi)
  | RootTag, FStr (Some t) =>
      if bool_decide (t ∈ root_tags) then Some (mkRootAttrs ve ca pr t fi) else None
  | RootFileName, FStr s => Some (mkRootAttrs ve ca pr ta s)
  | _, _ => None
  end.

#[export] Instance Root_MetaKind : MetaKind RootAttrs := {|
  mk_fields := [RootVersion; RootCategory; RootPreview; RootTag; RootFileName];
  mk_present := root_present;
  mk_stored := root_stored;
  mk_store := root_store;
  mk_norm := fun _ v => v;
|}.

(** ** A plugin *)

Record PluginAttrs := mkPluginAttrs {
  p_name : string;
  p_type : string;
  p_class : string;
  p_version : option Z;
}.

Definition plugin_present (f : MetaField) (p : PluginAttrs) : bool :=
  match f with
  | PluginName | PluginType | PluginClass => true
  | PluginVersion => bool_decide (is_Some (p_version p))
  | _ => false
  end.

Definition plugin_stored (f : MetaField) (p : PluginAttrs) : FieldVal :=
  match f with
  | PluginName => FStr (Some (p_name p))
  | PluginType => FStr (Some (p_type p))
  | PluginClass => FStr (Some (p_class p))
  | PluginVersion => FInt (default 0 (p_version p))
  | _ => field_default f
  end.

(** The name is mandatory, so not null, and its uniqueness is the
    caller's ("should (must) be unique", as for [AddPlugin]); type and
    class are any non-null string; a written version is kept for the
    serializer's migration. *)
Definition plugin_store (f : MetaField) (v : FieldVal) (p : PluginAttrs) : option PluginAttrs :=
  let 'mkPluginAttrs na ty cl ve := p in
  match f, v with
  | PluginName, FStr (Some s) => Some (mkPluginAttrs s ty cl ve)
  | PluginType, FStr (Some s) => Some (mkPluginAttrs na s cl ve)
  | PluginClass, FStr (Some s) => Some (mkPluginAttrs na ty s ve)
  | PluginVersion, FInt z => Some (mkPluginAttrs na ty cl (Some z))
  | _, _ => None
  end.

#[export] Instance Plugin_MetaKind : MetaKind PluginAttrs := {|
  mk_fields := [PluginName; PluginType; PluginClass; PluginVersion];
  mk_present := plugin_present;
  mk_stored := plugin_stored;
  mk_store := plugin_store;
  mk_norm := fun _ v => v;
|}.

(** ** A parameter *)

Record ParamAttrs := mkParamAttrs {
  a_name : string;
  a_type : string;
  a_custom : bool;
  a_filePath : bool;
}.

Definition flag_of_int (z : Z) : bool := negb (z =? 0).
Definition int_of_flag (b : bool) : Z := if b then 1 else 0.

Definition param_present (f : MetaField) (_ : ParamAttrs) : bool :=
  match f with
  | ParamName | ParamType | ParamCustom | ParamFilePath => true
  | _ => false
  end.

Definition param_stored (f : MetaField) (a : ParamAttrs) : FieldVal :=
  match f with
  | ParamName => FStr (Some (a_name a))
  | ParamType => FStr (Some (a_type a))
  | ParamCustom => FInt (int_of_flag (a_custom a))
  | ParamFilePath => FInt (int_of_flag (a_filePath a))
  | _ => field_default f
  end.

(** [isUserData] and [handler] are flags: any nonzero [int] sets them. *)
Definition param_store (f : MetaField) (v : FieldVal) (a : ParamAttrs) : option ParamAttrs :=
  let 'mkParamAttrs na ty cu fp := a in
  match f, v with
  | ParamName, FStr (Some s) =>
      if bool_decide (s = ""%string) then None else Some (mkParamAttrs s ty cu fp)
  | ParamType, FStr (Some s) => Some (mkParamAttrs na s cu fp)
  | ParamCustom, FInt z => Some (mkParamAttrs na ty (flag_of_int z) fp)
  | ParamFilePath, FInt z => Some (mkParamAttrs na ty cu (flag_of_int z))
  | _, _ => None
  end.

Definition param_norm (f : MetaField) (v : FieldVal) : FieldVal :=
  match f, v with
  | (ParamCustom | ParamFilePath), FInt z => FInt (int_of_flag (flag_of_int z))
  | _, _ => v
  end.

#[export] Instance Param_MetaKind : MetaKind ParamAttrs := {|
  mk_fields := [ParamName; ParamType; ParamCustom; ParamFilePath];
  mk_present := param_present;
  mk_stored := param_stored;
  mk_store := param_store;
  mk_norm := param_norm;
|}.

(** ** The laws *)

Ltac kind_laws :=
  constructor;
  [ repeat constructor; set_solver
  | intros [] ?; reflexivity
  | intros [] [?|[?|]] [] ?; simpl; intros H;
      repeat (case_match || case_bool_decide); simplify_eq; reflexivity
  | intros [] [] [?|[?|]] [] ? Hne; simpl; intros H;
      repeat (case_match || case_bool_decide); simplify_eq;
      first [reflexivity | congruence] ].

#[export] Instance Root_MetaKindLaws : MetaKindLaws RootAttrs.
Proof. kind_laws. Qed.

#[export] Instance Plugin_MetaKindLaws : MetaKindLaws PluginAttrs.
Proof. kind_laws. Qed.

#[export] Instance Param_MetaKindLaws : MetaKindLaws ParamAttrs.
Proof. kind_laws. Qed.

(** ** What a masked write keeps *)

(** The root is a version 0 or 1 document with one of the known tags. *)
Definition root_wf (r : RootAttrs) : Prop :=
  (r_version r = 0 \/ r_version r = 1) /\ r_tag r ∈ root_tags.

Lemma root_set_meta_wf m r r' : root_wf r -> set_meta m r = Ok r' -> root_wf r'.
Proof.
  apply set_meta_preserves. intros f v [ve ca pr ta fi] x' [Hv Ht].
  destruct f, v as [z|[t|]]; simpl in *; try discriminate;
    repeat (case_match || case_bool_decide); intros; simplify_eq; split; simpl; auto.
  - match goal with H : (_ || _) = true |- _ =>
      apply orb_true_iff in H as [H|H]; apply Z.eqb_eq in H; auto end.
Qed.

Lemma param_set_meta_name m a a' :
  a_name a <> ""%string -> set_meta m a = Ok a' -> a_name a' <> ""%string.
Proof.
  apply (set_meta_preserves (fun x => a_name x <> ""%string)). intros f v [na ty cu fp] x' Hn.
  destruct f, v as [z|[t|]]; simpl in *; try discriminate;
    repeat (case_match || case_bool_decide); intros; simplify_eq; simpl; auto.
Qed.

(** ** Witnesses of the masked read and write, on a plugin *)

Definition ex_plugin_attrs : PluginAttrs := mkPluginAttrs "Foo" "VRayMtl" "material" None.
Definition ex_type_meta : Meta :=
  set_mask (mc_bit PluginType) (meta_set_field PluginType (FStr (Some "X"%string)) meta_zero).
Definition ex_typed_plugin : PluginAttrs := mkPluginAttrs "Foo" "X" "material" None.

Lemma set_meta_frame_witness :
  mk_stored PluginName ex_typed_plugin = mk_stored PluginName ex_plugin_attrs /\
  mk_stored PluginClass ex_typed_plugin = mk_stored PluginClass ex_plugin_attrs.
Proof.
  split;
  [exact (set_meta_frame ex_type_meta ex_plugin_attrs ex_typed_plugin PluginName eq_refl eq_refl)
  |exact (set_meta_frame ex_type_meta ex_plugin_attrs ex_typed_plugin PluginClass eq_refl eq_refl)].
Defined.

Lemma set_meta_written_witness :
  mk_stored PluginType ex_typed_plugin = FStr (Some "X"%string).
Proof. exact (set_meta_written ex_type_meta ex_plugin_attrs ex_typed_plugin PluginType eq_refl eq_refl). Defined.

End MetaKinds.
