(* ===== verification/ValueStore.v ===== *)
(** * The value store ([DataContainer_SetValue], [DataContainer_GetValue],
      [struct ValueData])

    The data a caller hands to [DataContainer_SetValue] is "a flat array
    (for structured types) of integers, floats or null-terminated
    character pointers": numbers are 32-bit words (an [int] or the bit
    pattern of a [float], which the container copies and never
    interprets), strings are C strings (a Rocq string is cut at its first
    NUL, as [strlen] would).  [make_value] is the validation and copy;
    [value_data] is what [DataContainer_GetValue] passes to its callback:
    one [ValueData] for numbers, one per entry for strings. *)

From Stdlib Require Import ZArith Lia.
From stdpp Require Import base decidable option list strings.
From S2P Require Import Prelude TypeDesc.
Import TypeDesc.

Open Scope Z_scope.
Local Open Scope vrmat_scope.

Module ValueStore.

(** ** C strings *)

Definition NUL : Ascii.ascii := Ascii.ascii_of_nat 0.

(** The characters [strlen]/[strcpy] see: up to the first NUL. *)
Fixpoint c_string (s : string) : string :=
  match s with
  | EmptyString => EmptyString
  | String c s' => if bool_decide (c = NUL) then EmptyString else String c (c_string s')
  end.

(** A string that is its own C view: it has no NUL. *)
Fixpoint no_nul (s : string) : bool :=
  match s with
  | EmptyString => true
  | String c s' => negb (bool_decide (c = NUL)) && no_nul s'
  end.

(** ** Stored values *)

(** The caller's buffer, as the container reads it. *)
Inductive RawData :=
  | RawWords (ws : list Z)
  | RawStrings (ss : list string).

Record Value := mkValue {
  v_type : TypeDesc;
  v_count : Z;
  v_data : RawData;
}.

(** Entries in the value: [listLength] for a list, one structure otherwise
    (the header passes 0 for a single value). *)
Definition entry_count (t : TypeDesc) (listLength : Z) : Z :=
  if is_list t then listLength else 1.

(** Scalars the container copies: components times entries. *)
Definition footprint (t : TypeDesc) (n : Z) : Z := components t * n.

(** [DataContainer_SetValue]'s checks and copy: the word must decode to
    a valid descriptor, a list length must be a nonnegative [int], the
    buffer must hold the footprint, of the raw kind the descriptor names;
    the container keeps its own copy of exactly the footprint. *)
Definition make_value (data : RawData) (type listLength : Z) : result Value :=
  t <- of_option InvalidArgument (decode_type type) ;;
  ensure (type_valid t) InvalidArgument ;;;
  ensure (in_i32 listLength && (negb (is_list t) || (0 <=? listLength))) InvalidArgument ;;;
  let n := entry_count t listLength in
  let need := Z.to_nat (footprint t n) in
  match td_rdt t, data with
  | Rdt_String, RawStrings ss =>
      ensure (need <=? length ss)%nat InvalidArgument ;;;
      Ok (mkValue t n (RawStrings (c_string <$> take need ss)))
  | (Rdt_Float | Rdt_Int), RawWords ws =>
      ensure (need <=? length ws)%nat InvalidArgument ;;;
      ensure (forallb in_u32 (take need ws)) InvalidArgument ;;;
      Ok (mkValue t n (RawWords (take need ws)))
  | _, _ => Err InvalidArgument
  end.

(** The shape a stored value always has. *)
Definition value_wf (v : Value) : Prop :=
  type_valid (v_type v) = true /\ 0 <= v_count v /\ in_i32 (v_count v) = true /\
  (is_list (v_type v) = false -> v_count v = 1) /\
  match td_rdt (v_type v), v_data v with
  | Rdt_String, RawStrings ss =>
      Z.of_nat (length ss) = footprint (v_type v) (v_count v) /\ Forall (fun s => no_nul s = true) ss
  | (Rdt_Float | Rdt_Int), RawWords ws =>
      Z.of_nat (length ws) = footprint (v_type v) (v_count v) /\ Forall (fun w => in_u32 w = true) ws
  | _, _ => False
  end.

(** ** [struct ValueData] *)

Inductive VDData :=
  | VDWords (ws : list Z)
  | VDString (s : string).

Record ValueData := mkValueData {
  pluginId : Z;
  paramId : Z;
  listCount : Z;
  listIndex : Z;
  isList : Z;
  vd_components : Z;
  rdt : Rdt;
  stdt : Stdt;
  sqdt : Sqdt;
  data : VDData;
}.

(** The callbacks [DataContainer_GetValue] makes, in order. *)
Definition value_data (plid paid : Z) (v : Value) : list ValueData :=
  let t := v_type v in
  let mk n i d :=
    mkValueData plid paid n i (if is_list t then 1 else 0) (components t)
      (td_rdt t) (td_stdt t) (td_sqdt t) d in
  match v_data v with
  | RawWords ws => [mk (v_count v) 0 (VDWords ws)]
  | RawStrings ss => imap (fun i s => mk (Z.of_nat (length ss)) (Z.of_nat i) (VDString s)) ss
  end.

(** How a caller of [DataContainer_GetValue] rebuilds, from the
    callbacks it received, the arguments of a [DataContainer_SetValue]
    that stores the same value: the type word from [rdt|stdt|sqdt], the
    flat data, and the list length ([0] for a single value). *)
Definition vd_string (vd : ValueData) : option string :=
  match data vd with
  | VDString s => Some s
  | VDWords _ => None
  end.

Definition read_back (vds : list ValueData) : option (RawData * Z * Z) :=
  match vds with
  | [] => None
  | vd :: _ =>
      let w := type_word (mkTypeDesc (rdt vd) (stdt vd) (sqdt vd)) in
      let len := if isList vd =? 1 then listCount vd else 0 in
      match data vd with
      | VDWords ws => Some (RawWords ws, w, len)
      | VDString _ => Some (RawStrings (omap vd_string vds), w, len)
      end
  end.

(** The list length a caller passes for a value of [n] entries. *)
Definition list_length_arg (t : TypeDesc) (n : Z) : Z := if is_list t then n else 0.

(** ** Lemmas *)

Lemma c_string_no_nul s : no_nul (c_string s) = true.
Proof.
  induction s as [|c s IH]; simpl; [done|].
  case_bool_decide; simpl; [done|]. rewrite bool_decide_eq_false_2 by done. done.
Qed.

Lemma c_string_id s : no_nul s = true -> c_string s = s.
Proof.
  induction s as [|c s IH]; simpl; [done|].
  intros [Hc Hs]%andb_prop. case_bool_decide; [done|]. by rewrite IH.
Qed.

Lemma Stdt_width_nonneg s : 0 <= Stdt_width s.
Proof. destruct s; simpl; lia. Qed.

Lemma components_nonneg t : 0 <= components t.
Proof. unfold components. case_bool_decide; [apply Stdt_width_nonneg|lia]. Qed.

(** What a successful [make_value] has checked. *)
Lemma make_value_Ok data w n v :
  make_value data w n = Ok v ->
  decode_type w = Some (v_type v) /\ type_valid (v_type v) = true /\
  in_i32 n = true /\ v_count v = entry_count (v_type v) n /\ 0 <= v_count v /\
  let need := Z.to_nat (footprint (v_type v) (v_count v)) in
  match td_rdt (v_type v), data with
  | Rdt_String, RawStrings ss =>
      (need <= length ss)%nat /\ v_data v = RawStrings (c_string <$> take need ss)
  | (Rdt_Float | Rdt_Int), RawWords ws =>
      (need <= length ws)%nat /\ forallb in_u32 (take need ws) = true /\
      v_data v = RawWords (take need ws)
  | _, _ => False
  end.
Proof.
  unfold make_value. intros H. res_inv. subst.
  match goal with H : in_i32 _ && _ = true |- _ => apply andb_prop in H as [Hi Hn] end.
  assert (0 <= entry_count x n).
  { unfold entry_count. destruct (is_list x); [|lia].
    simpl in Hn. by apply Z.leb_le in Hn. }
  destruct (td_rdt x) eqn:Er, data as [ws|ss]; simpl in *; res_inv; try discriminate;
    match goal with H : mkValue _ _ _ = v |- _ => subst v end; simpl;
    rewrite ?Er; repeat split; auto; by apply Nat.leb_le.
Qed.

Lemma words_wf (ws : list Z) need :
  (need <= length ws)%nat -> forallb in_u32 (take need ws) = true ->
  Z.of_nat (length (take need ws)) = Z.of_nat need /\
  Forall (fun w => in_u32 w = true) (take need ws).
Proof.
  intros Hl Hu. rewrite length_take_le by done. split; [done|].
  apply Forall_forall. intros x Hx.
  by eapply forallb_forall; [exact Hu|apply list_elem_of_In].
Qed.

(** ** Theorems *)

(** Every value the store accepts has the shape of its descriptor: a
    valid descriptor, exactly components times entries scalars, words
    that are 32-bit patterns and strings without NUL. *)
Theorem make_value_wf data w n v : make_value data w n = Ok v -> value_wf v.
Proof.
  intros H. pose proof (components_nonneg (v_type v)).
  apply make_value_Ok in H as (_ & Hv & Hi & Hc & Hn & Hd).
  unfold value_wf. split; [done|]. split; [done|].
  split; [rewrite Hc; unfold entry_count; by destruct (is_list _)|].
  split; [rewrite Hc; unfold entry_count; by intros ->|].
  unfold footprint in *.
  destruct (td_rdt (v_type v)), data as [ws|ss]; try done.
  - destruct Hd as (Hlen & Hu & ->).
    destruct (words_wf ws _ Hlen Hu) as [H1 H2]. split; [lia|done].
  - destruct Hd as (Hlen & Hu & ->).
    destruct (words_wf ws _ Hlen Hu) as [H1 H2]. split; [lia|done].
  - destruct Hd as (Hlen & ->).
    rewrite length_fmap, length_take_le by done. split; [lia|].
    apply Forall_fmap, Forall_forall. intros s _. apply c_string_no_nul.
Qed.

Lemma entry_count_arg t n : is_list t = false -> entry_count t n = 1.
Proof. unfold entry_count. by intros ->. Qed.

Lemma c_string_idem s : c_string (c_string s) = c_string s.
Proof. apply c_string_id, c_string_no_nul. Qed.

(** A stored value, handed back to [make_value] with its own type word
    and list length, is accepted unchanged. *)
Lemma make_value_idem data w n v :
  make_value data w n = Ok v ->
  make_value (v_data v) w (list_length_arg (v_type v) (v_count v)) = Ok v.
Proof.
  intros H. pose proof (components_nonneg (v_type v)) as Hc0.
  destruct v as [t c d]. apply make_value_Ok in H as (Hw & Hv & Hi & Hc & Hn & Hd); simpl in *.
  assert (Hl : in_i32 (list_length_arg t c) && (negb (is_list t) || (0 <=? list_length_arg t c)) = true
            /\ entry_count t (list_length_arg t c) = c).
  { unfold list_length_arg, entry_count in *.
    destruct (is_list t); simpl; [|split; [done|lia]].
    subst c. rewrite Hi. simpl. split; [|done]. by apply Z.leb_le. }
  destruct Hl as [Hl1 Hl2].
  unfold make_value. rewrite Hw. cbn [rbind of_option]. rewrite Hv. cbn [ensure rbind].
  rewrite Hl1. cbn [ensure rbind]. rewrite Hl2.
  destruct (td_rdt t), data as [ws|ss]; try done.
  - destruct Hd as (Hlen & Hu & ->).
    rewrite take_take, Nat.min_id, length_take_le, Nat.leb_refl by done. simpl.
    by rewrite Hu.
  - destruct Hd as (Hlen & Hu & ->).
    rewrite take_take, Nat.min_id, length_take_le, Nat.leb_refl by done. simpl.
    by rewrite Hu.
  - destruct Hd as (Hlen & ->).
    rewrite length_fmap, length_take_le, Nat.leb_refl by done. simpl.
    rewrite <- fmap_take, take_take, Nat.min_id, <- list_fmap_compose.
    do 3 f_equal. apply list_fmap_ext. intros ? ? _. apply c_string_idem.
Qed.

(** A well-formed value is what [make_value] stores from its own data,
    type word and list length. *)
Lemma make_value_of_wf v :
  value_wf v -> make_value (v_data v) (type_word (v_type v)) (list_length_arg (v_type v) (v_count v)) = Ok v.
Proof.
  destruct v as [t c d]. intros (Hv & Hc & Hi & H1 & Hd); simpl in *.
  unfold make_value. rewrite decode_type_word. cbn [rbind of_option]. rewrite Hv. cbn [ensure rbind].
  assert (Hl : in_i32 (list_length_arg t c) && (negb (is_list t) || (0 <=? list_length_arg t c)) = true
            /\ entry_count t (list_length_arg t c) = c).
  { unfold list_length_arg, entry_count.
    destruct (is_list t) eqn:E; simpl; [rewrite Hi; split; [by apply Z.leb_le|done]|].
    split; [done|]. by rewrite H1. }
  destruct Hl as [-> ->]. cbn [ensure rbind].
  destruct (td_rdt t), d as [ws|ss]; try done;
    [destruct Hd as [Hlen Hu]; rewrite <- Hlen, Nat2Z.id, take_ge, Nat.leb_refl by lia; simpl;
     replace (forallb in_u32 ws) with true; [done|]; symmetry; apply forallb_forall;
     intros x Hx%list_elem_of_In; by eapply Forall_forall in Hu..|].
  destruct Hd as [Hlen Hu]. rewrite <- Hlen, Nat2Z.id, take_ge, Nat.leb_refl by lia. simpl.
  do 3 f_equal. rewrite <- (list_fmap_id ss) at 2. apply list_fmap_ext.
  intros i s Hs%list_elem_of_lookup_2. apply c_string_id. by eapply Forall_forall in Hu.
Qed.

Lemma omap_vd_string_imap (f : nat -> string -> ValueData) ss :
  (forall i s, vd_string (f i s) = Some s) -> omap vd_string (imap f ss) = ss.
Proof.
  revert f. induction ss as [|s ss IH]; intros f Hf; simpl; [done|].
  rewrite Hf. f_equal. apply IH. intros. apply Hf.
Qed.

Lemma components_not_float t : td_rdt t <> Rdt_Float -> components t = 1.
Proof. unfold components. intros. by rewrite bool_decide_eq_false_2. Qed.

(** ** Round trip *)

(** C3: What [DataContainer_GetValue] reports for a value set by
    [DataContainer_SetValue] rebuilds the call that set it: the caller
    reads back the same type word, the stored copy of the data and the
    list length, and setting them again stores the same value.  (A list
    of no strings makes no callback at all, so it is excluded.) *)
Theorem get_value_roundtrip data w n v plid paid :
  make_value data w n = Ok v -> v_data v <> RawStrings [] ->
  read_back (value_data plid paid v) =
    Some (v_data v, w, list_length_arg (v_type v) (v_count v)) /\
  make_value (v_data v) w (list_length_arg (v_type v) (v_count v)) = Ok v.
Proof.
  intros H Hne. split; [|by eapply make_value_idem].
  pose proof (make_value_wf _ _ _ _ H) as Hwf.
  apply make_value_Ok in H as (Hw & _ & _ & _ & _ & _).
  apply decode_type_sound in Hw.
  destruct v as [[r st sq] c d]; simpl in *.
  unfold value_data, read_back, list_length_arg, is_list; simpl.
  destruct d as [ws|ss].
  - simpl. rewrite Hw. by destruct (bool_decide (sq = Sqdt_List)).
  - destruct Hwf as (_ & _ & _ & _ & Hd).
    destruct r; try contradiction. destruct Hd as [Hlen _].
    unfold footprint in Hlen. rewrite components_not_float in Hlen by done.
    destruct ss as [|s0 ss]; [done|].
    set (f := fun (i : nat) (s : string) => mkValueData plid paid (Z.of_nat (length (s0 :: ss))) (Z.of_nat i)
              (if bool_decide (sq = Sqdt_List) then 1 else 0) (components (mkTypeDesc Rdt_String st sq))
              Rdt_String st sq (VDString s)).
    assert (E : omap vd_string (imap f (s0 :: ss)) = s0 :: ss) by (by apply omap_vd_string_imap).
    change (imap f (s0 :: ss)) with (f 0%nat s0 :: imap (f ∘ S) ss) in E |- *.
    unfold read_back. simpl in E |- *. rewrite E, Hw.
    destruct (bool_decide (sq = Sqdt_List)); simpl; [|done].
    do 2 f_equal. simpl in Hlen. lia.
Qed.

(** ** Type validity *)

(** C4: An [int] or string descriptor with an array structure is refused,
    whatever the data and list length. *)
Theorem make_value_rejects_arrayed data r s q n :
  r = Rdt_Int \/ r = Rdt_String -> s <> Stdt_Single ->
  make_value data (type_word (mkTypeDesc r s q)) n = Err InvalidArgument.
Proof.
  intros Hr Hs. unfold make_value. rewrite decode_type_word. simpl.
  unfold type_valid; simpl.
  rewrite (bool_decide_eq_false_2 (s = Stdt_Single)) by done.
  rewrite (bool_decide_eq_false_2 (r = Rdt_Float)) by (destruct Hr; congruence).
  by rewrite !andb_false_r.
Qed.

(** C5: A float descriptor of any structure is accepted with a buffer of
    exactly components times entries 32-bit words, and the stored copy is
    that buffer. *)
Theorem make_value_float_exact s q ws n :
  s <> Stdt_None -> q <> Sqdt_None -> in_i32 n = true ->
  (q = Sqdt_List -> 0 <= n) ->
  Z.of_nat (length ws) = Stdt_width s * entry_count (mkTypeDesc Rdt_Float s q) n ->
  Forall (fun w => in_u32 w = true) ws ->
  make_value (RawWords ws) (type_word (mkTypeDesc Rdt_Float s q)) n =
    Ok (mkValue (mkTypeDesc Rdt_Float s q) (entry_count (mkTypeDesc Rdt_Float s q) n) (RawWords ws)).
Proof.
  intros Hs Hq Hi Hn Hlen Hu. unfold make_value. rewrite decode_type_word. simpl.
  unfold type_valid; simpl.
  rewrite !bool_decide_eq_true_2 by done. simpl. rewrite Hi. simpl.
  assert (Hneg : negb (is_list (mkTypeDesc Rdt_Float s q)) || (0 <=? n) = true).
  { unfold is_list; simpl. case_bool_decide; simpl; [|done]. apply Z.leb_le; auto. }
  rewrite Hneg. simpl.
  unfold footprint, components; simpl.
  rewrite <- Hlen, Nat2Z.id, take_ge, Nat.leb_refl by lia. simpl.
  replace (forallb in_u32 ws) with true; [done|].
  symmetry. apply forallb_forall. intros x Hx%list_elem_of_In.
  by eapply Forall_forall in Hu.
Qed.

(** The header's example: two vectors of three floats. *)
Lemma make_value_float_exact_witness :
  make_value (RawWords [1; 2; 3; 4; 5; 6]) (type_word (mkTypeDesc Rdt_Float Stdt_Array3 Sqdt_List)) 2 =
    Ok (mkValue (mkTypeDesc Rdt_Float Stdt_Array3 Sqdt_List) 2 (RawWords [1; 2; 3; 4; 5; 6])).
Proof.
  apply (make_value_float_exact Stdt_Array3 Sqdt_List [1; 2; 3; 4; 5; 6] 2).
  - discriminate.
  - discriminate.
  - reflexivity.
  - intros _. lia.
  - reflexivity.
  - repeat constructor.
Defined.

Lemma make_value_rejects_arrayed_witness :
  make_value (RawWords [128; 0; 0]) (type_word (mkTypeDesc Rdt_Int Stdt_Array3 Sqdt_Single)) 0 =
    Err InvalidArgument.
Proof. apply make_value_rejects_arrayed; [left; reflexivity | discriminate]. Defined.

Lemma get_value_roundtrip_witness :
  make_value (RawStrings ["item1"; "item2"]%string)
    (type_word (mkTypeDesc Rdt_String Stdt_Single Sqdt_List)) 2 =
    Ok (mkValue (mkTypeDesc Rdt_String Stdt_Single Sqdt_List) 2 (RawStrings ["item1"; "item2"]%string)) /\
  read_back (value_data 1 2 (mkValue (mkTypeDesc Rdt_String Stdt_Single Sqdt_List) 2
      (RawStrings ["item1"; "item2"]%string))) =
    Some (RawStrings ["item1"; "item2"]%string,
          type_word (mkTypeDesc Rdt_String Stdt_Single Sqdt_List), 2).
Proof.
  assert (H : make_value (RawStrings ["item1"; "item2"]%string)
    (type_word (mkTypeDesc Rdt_String Stdt_Single Sqdt_List)) 2 =
    Ok (mkValue (mkTypeDesc Rdt_String Stdt_Single Sqdt_List) 2 (RawStrings ["item1"; "item2"]%string)))
    by reflexivity.
  split; [exact H|].
  exact (proj1 (get_value_roundtrip _ _ _ _ 1 2 H ltac:(discriminate))).
Defined.

End ValueStore.
