(* ===== verification/Container.v ===== *)
(** * The data container: element graph, values and metadata

    The state behind the [void* dc] handle of [exports.h]: the document
    root's attributes, a flat collection of plugins and one of parameters,
    both keyed by internal [unsigned int] ids drawn from one counter (0 is
    never an id), and each parameter's owning plugin and value.  One
    definition per exported function that reads or changes it:
    [DataContainer_Create], [AddPlugin], [AddParameter], [GetElementId],
    [RemoveElement], [SetValue], [GetValue], [GetMeta], [SetMeta].
    References between plugins are parameter strings naming a plugin; they
    are resolved by name on lookup and never repaired.  Every call keeps
    the invariant [dc_sound]; plugin names are not checked by any call,
    and [dc_wf] adds their uniqueness, which the calls keep when the
    caller adds or renames plugins to free names. *)

From Stdlib Require Import ZArith Lia.
From stdpp Require Import base decidable option list sets gmap strings.
From S2P Require Import Prelude TypeDesc Meta MetaKinds ValueStore.
Import TypeDesc MetaMapper MetaKinds ValueStore.

Open Scope Z_scope.
Local Open Scope vrmat_scope.

Module Container.

(** ** State *)

Record ParamRec := mkParamRec {
  pa_owner : Z;
  pa_attrs : ParamAttrs;
  pa_value : option Value;
}.

Record DataContainer := mkDC {
  dc_root : RootAttrs;
  dc_plugins : gmap Z PluginAttrs;
  dc_params : gmap Z ParamRec;
  dc_next : Z;
}.

Definition set_root (r : RootAttrs) (dc : DataContainer) : DataContainer :=
  mkDC r (dc_plugins dc) (dc_params dc) (dc_next dc).
Definition set_plugins (m : gmap Z PluginAttrs) (dc : DataContainer) : DataContainer :=
  mkDC (dc_root dc) m (dc_params dc) (dc_next dc).
Definition set_params (m : gmap Z ParamRec) (dc : DataContainer) : DataContainer :=
  mkDC (dc_root dc) (dc_plugins dc) m (dc_next dc).
Definition set_value (v : option Value) (a : ParamRec) : ParamRec :=
  mkParamRec (pa_owner a) (pa_attrs a) v.
Definition set_attrs (x : ParamAttrs) (a : ParamRec) : ParamRec :=
  mkParamRec (pa_owner a) x (pa_value a).

(** A new container: an empty version 0 [<vrmat>] document. *)
Definition root_default : RootAttrs := mkRootAttrs 0 None None "vrmat" None.

Definition DataContainer_Create : DataContainer := mkDC root_default ∅ ∅ 1.

(** ** Ids and names *)

(** The next id, if the [unsigned int] space is not used up; ids are
    handed out in increasing order and never handed out again. *)
Definition alloc_id (dc : DataContainer) : result (Z * DataContainer) :=
  if dc_next dc <=? u32_max then
    Ok (dc_next dc, mkDC (dc_root dc) (dc_plugins dc) (dc_params dc) (dc_next dc + 1))
  else Err IdsExhausted.

Definition plugin_named (dc : DataContainer) (n : string) : option Z :=
  find_key (fun p => bool_decide (p_name p = n)) (dc_plugins dc).

Definition param_named (dc : DataContainer) (pid : Z) (n : string) : option Z :=
  find_key (fun a => bool_decide (pa_owner a = pid /\ a_name (pa_attrs a) = n)) (dc_params dc).

(** The names of the plugins of the container, in storage order. *)
Definition plugin_names (dc : DataContainer) : list string :=
  (fun kv : Z * PluginAttrs => p_name kv.2) <$> map_to_list (dc_plugins dc).

(** [n] may be given to element [id]: no other element of its scope has it. *)
Definition free_for (o : option Z) (id : Z) : bool :=
  match o with
  | None => true
  | Some j => j =? id
  end.

(** ** Operations *)

(** [DataContainer_AddPlugin]: name, type and class must be non-null;
    the name is not checked against the other plugins' names: "It is
    user responsibility to assure name uniqueness if required". *)
Definition DataContainer_AddPlugin (name type klass : option string) (dc : DataContainer)
    : result (Z * DataContainer) :=
  n <- of_option InvalidArgument name ;;
  ty <- of_option InvalidArgument type ;;
  kl <- of_option InvalidArgument klass ;;
  r <- alloc_id dc ;;
  let '(id, dc1) := r in
  Ok (id, set_plugins (<[id := mkPluginAttrs n ty kl None]> (dc_plugins dc1)) dc1).

(** [DataContainer_AddParameter]: the plugin must exist; name and type
    non-null, the name nonempty and new within the plugin. *)
Definition DataContainer_AddParameter (pluginId : Z) (name type : option string) (custom : Z)
    (dc : DataContainer) : result (Z * DataContainer) :=
  ensure (bool_decide (is_Some (dc_plugins dc !! pluginId))) NotFound ;;;
  n <- of_option InvalidArgument name ;;
  ty <- of_option InvalidArgument type ;;
  ensure (bool_decide (n <> ""%string)) InvalidArgument ;;;
  ensure (bool_decide (param_named dc pluginId n = None)) Conflict ;;;
  r <- alloc_id dc ;;
  let '(id, dc1) := r in
  Ok (id, set_params (<[id := mkParamRec pluginId (mkParamAttrs n ty (flag_of_int custom) false) None]>
                        (dc_params dc1)) dc1).

(** [DataContainer_GetElementId]: a plugin by name when [pluginId] is 0,
    else a parameter of that plugin by name; 0 on a miss. *)
Definition DataContainer_GetElementId (dc : DataContainer) (pluginId : Z) (name : option string) : Z :=
  match name with
  | None => 0
  | Some n =>
      if pluginId =? 0 then default 0 (plugin_named dc n)
      else default 0 (param_named dc pluginId n)
  end.

(** [DataContainer_RemoveElement]: a plugin goes with all its parameters;
    a parameter alone. *)
Definition DataContainer_RemoveElement (elementId : Z) (dc : DataContainer) : result DataContainer :=
  ensure (negb (elementId =? 0)) InvalidArgument ;;;
  match dc_plugins dc !! elementId with
  | Some _ =>
      Ok (mkDC (dc_root dc) (delete elementId (dc_plugins dc))
            (filter (fun ia => pa_owner ia.2 <> elementId) (dc_params dc)) (dc_next dc))
  | None =>
      match dc_params dc !! elementId with
      | Some _ => Ok (set_params (delete elementId (dc_params dc)) dc)
      | None => Err NotFound
      end
  end.

(** [DataContainer_SetValue]: the old value is replaced only once the
    new one is validated and copied. *)
Definition DataContainer_SetValue (paramId : Z) (data : RawData) (type listLength : Z)
    (dc : DataContainer) : result DataContainer :=
  a <- of_option NotFound (dc_params dc !! paramId) ;;
  v <- make_value data type listLength ;;
  Ok (set_params (<[paramId := set_value (Some v) a]> (dc_params dc)) dc).

(** [DataContainer_GetValue]: the [ValueData] the callback receives, in
    order; a parameter that was never given a value has none to report. *)
Definition DataContainer_GetValue (dc : DataContainer) (paramId : Z) : result (list ValueData) :=
  a <- of_option NotFound (dc_params dc !! paramId) ;;
  v <- of_option NotFound (pa_value a) ;;
  Ok (value_data (pa_owner a) paramId v).

(** [DataContainer_GetMeta]: element 0 is the document, else a plugin or
    a parameter id. *)
Definition DataContainer_GetMeta (dc : DataContainer) (element : Z) (meta : Meta) : result Meta :=
  if element =? 0 then get_meta (dc_root dc) meta
  else match dc_plugins dc !! element with
  | Some p => get_meta p meta
  | None =>
      match dc_params dc !! element with
      | Some a => get_meta (pa_attrs a) meta
      | None => Err NotFound
      end
  end.

(** [DataContainer_SetMeta]: a renamed parameter must keep its name
    unique among its plugin's parameters, as [AddParameter] requires; a
    plugin's name, like [AddPlugin]'s, is the caller's to keep unique. *)
Definition DataContainer_SetMeta (element : Z) (meta : Meta) (dc : DataContainer)
    : result DataContainer :=
  if element =? 0 then
    r <- set_meta meta (dc_root dc) ;;
    Ok (set_root r dc)
  else match dc_plugins dc !! element with
  | Some p =>
      p' <- set_meta meta p ;;
      Ok (set_plugins (<[element := p']> (dc_plugins dc)) dc)
  | None =>
      match dc_params dc !! element with
      | Some a =>
          x <- set_meta meta (pa_attrs a) ;;
          ensure (free_for (param_named dc (pa_owner a) (a_name x)) element) Conflict ;;;
          Ok (set_params (<[element := set_attrs x a]> (dc_params dc)) dc)
      | None => Err NotFound
      end
  end.

(** ** The invariant *)

(** What every call keeps: ids are below the counter and never 0,
    plugins and parameters never share an id, every parameter's plugin
    exists, parameter names are nonempty and unique among their plugin's
    parameters, stored values have their descriptor's shape, the root is
    valid. *)
Record dc_sound (dc : DataContainer) : Prop := {
  wf_next : 1 <= dc_next dc <= u32_max + 1;
  wf_plugin_ids : forall i p, dc_plugins dc !! i = Some p -> 0 < i < dc_next dc;
  wf_param_ids : forall i a, dc_params dc !! i = Some a -> 0 < i < dc_next dc;
  wf_disjoint : forall i p a, dc_plugins dc !! i = Some p -> dc_params dc !! i = Some a -> False;
  wf_owner : forall i a, dc_params dc !! i = Some a -> is_Some (dc_plugins dc !! pa_owner a);
  wf_param_names : forall i j a b, dc_params dc !! i = Some a -> dc_params dc !! j = Some b ->
    pa_owner a = pa_owner b -> a_name (pa_attrs a) = a_name (pa_attrs b) -> i = j;
  wf_param_name_ne : forall i a, dc_params dc !! i = Some a -> a_name (pa_attrs a) <> ""%string;
  wf_values : forall i a v, dc_params dc !! i = Some a -> pa_value a = Some v -> value_wf v;
  wf_root : root_wf (dc_root dc);
}.

(** No two plugins share a name: what the XML needs ("the identifiers
    are the plugins and parameters names - thus for practical reasons
    those shall be unique", lines 13-14) and what name lookup assumes,
    but the caller's to keep (line 362). *)
Definition plugin_names_unique (dc : DataContainer) : Prop :=
  forall i j p q, dc_plugins dc !! i = Some p -> dc_plugins dc !! j = Some q ->
    p_name p = p_name q -> i = j.

(** A sound container with unique plugin names: the container the
    header's name-based calls and the XML layouts are written for. *)
Record dc_wf (dc : DataContainer) : Prop := {
  wf_sound :> dc_sound dc;
  wf_plugin_names : plugin_names_unique dc;
}.

(** ** Lemmas on ids and names *)

Lemma alloc_id_Ok dc id dc1 :
  alloc_id dc = Ok (id, dc1) ->
  id = dc_next dc /\ id <= u32_max /\
  dc1 = mkDC (dc_root dc) (dc_plugins dc) (dc_params dc) (dc_next dc + 1).
Proof.
  unfold alloc_id. destruct (Z.leb_spec (dc_next dc) u32_max); [|done].
  intros [= <- <-]. auto.
Qed.

Lemma wf_next_fresh dc :
  dc_sound dc -> dc_plugins dc !! dc_next dc = None /\ dc_params dc !! dc_next dc = None.
Proof.
  intros Hwf. split.
  - destruct (dc_plugins dc !! dc_next dc) as [p|] eqn:E; [|done].
    apply (wf_plugin_ids _ Hwf) in E. lia.
  - destruct (dc_params dc !! dc_next dc) as [a|] eqn:E; [|done].
    apply (wf_param_ids _ Hwf) in E. lia.
Qed.

Lemma plugin_named_Some_1 dc n i :
  plugin_named dc n = Some i -> exists p, dc_plugins dc !! i = Some p /\ p_name p = n.
Proof. intros (p & Hp & Hn)%find_key_Some. apply bool_decide_eq_true in Hn. eauto. Qed.

Lemma plugin_named_Some dc n i :
  dc_wf dc ->
  plugin_named dc n = Some i <-> exists p, dc_plugins dc !! i = Some p /\ p_name p = n.
Proof.
  intros Hwf. split; [apply plugin_named_Some_1|].
  intros (p & Hp & Hn). eapply find_key_unique; [|exact Hp|by apply bool_decide_eq_true].
  intros k' v' Hk' Hn'%bool_decide_eq_true.
  eapply (wf_plugin_names _ Hwf); eauto. congruence.
Qed.

Lemma plugin_named_None dc n :
  plugin_named dc n = None <-> forall i p, dc_plugins dc !! i = Some p -> p_name p <> n.
Proof.
  split.
  - intros H i p Hp Hn. eapply find_key_None in H; [|exact Hp].
    by rewrite bool_decide_eq_true_2 in H.
  - intros H. destruct (plugin_named dc n) as [i|] eqn:E; [|done].
    apply plugin_named_Some_1 in E as (p & Hp & Hn). by destruct (H i p).
Qed.

Lemma param_named_Some dc pid n i :
  dc_sound dc ->
  param_named dc pid n = Some i <->
  exists a, dc_params dc !! i = Some a /\ pa_owner a = pid /\ a_name (pa_attrs a) = n.
Proof.
  intros Hwf. split.
  - intros (a & Ha & Hn)%find_key_Some. apply bool_decide_eq_true in Hn. naive_solver.
  - intros (a & Ha & Ho & Hn). eapply find_key_unique; [|exact Ha|by apply bool_decide_eq_true].
    intros k' v' Hk' [Ho' Hn']%bool_decide_eq_true.
    eapply (wf_param_names _ Hwf); eauto; congruence.
Qed.

Lemma param_named_None dc pid n :
  param_named dc pid n = None <->
  forall i a, dc_params dc !! i = Some a -> pa_owner a = pid -> a_name (pa_attrs a) <> n.
Proof.
  split.
  - intros H i a Ha Ho Hn. eapply find_key_None in H; [|exact Ha].
    by rewrite bool_decide_eq_true_2 in H.
  - intros H. destruct (param_named dc pid n) as [i|] eqn:E; [|done].
    apply find_key_Some in E as (a & Ha & [Ho Hn]%bool_decide_eq_true). by destruct (H i a).
Qed.

(** Plugin names stay unique when no plugin is added or renamed, and when
    the one plugin written takes a name no other plugin has. *)
Lemma names_unique_sub dc dc' :
  (forall i p, dc_plugins dc' !! i = Some p -> dc_plugins dc !! i = Some p) ->
  plugin_names_unique dc -> plugin_names_unique dc'.
Proof. intros Hs Hu i j p q Hi Hj. eapply Hu; eauto. Qed.

Lemma names_unique_insert dc dc' k p :
  dc_plugins dc' = <[k := p]> (dc_plugins dc) -> plugin_names_unique dc ->
  (forall j q, dc_plugins dc !! j = Some q -> p_name q = p_name p -> j = k) ->
  plugin_names_unique dc'.
Proof.
  intros Hd Hu Hk i j p1 q1. rewrite Hd, !lookup_insert_Some.
  intros [[<- <-]|[Hi1 Hi]] [[<- <-]|[Hj1 Hj]] Hn; try done.
  - symmetry. eauto.
  - eauto.
  - eauto.
Qed.

Lemma plugin_names_fmap dc : plugin_names dc = (map_to_list (p_name <$> dc_plugins dc)).*2.
Proof.
  unfold plugin_names. rewrite map_to_list_fmap, <- list_fmap_compose.
  apply list_fmap_ext. by intros ? [] ?.
Qed.

Lemma names_unique_NoDup dc : plugin_names_unique dc <-> NoDup (plugin_names dc).
Proof.
  rewrite plugin_names_fmap, <- map_values_NoDup. unfold plugin_names_unique.
  setoid_rewrite lookup_fmap_Some. naive_solver.
Qed.

(** A plugin added under a fresh id adds its name; one rewritten under
    the same name changes none. *)
Lemma plugin_names_insert dc dc' k q :
  dc_plugins dc !! k = None -> dc_plugins dc' = <[k := q]> (dc_plugins dc) ->
  plugin_names dc' ≡ₚ p_name q :: plugin_names dc.
Proof.
  intros Hk Hd. rewrite !plugin_names_fmap, Hd, fmap_insert, map_to_list_insert; [done|].
  by rewrite lookup_fmap, Hk.
Qed.

Lemma plugin_names_replace dc dc' k p q :
  dc_plugins dc !! k = Some p -> dc_plugins dc' = <[k := q]> (dc_plugins dc) -> p_name q = p_name p ->
  plugin_names dc' = plugin_names dc.
Proof.
  intros Hk Hd Hn. rewrite !plugin_names_fmap, Hd, fmap_insert, Hn, insert_id; [done|].
  by rewrite lookup_fmap, Hk.
Qed.

(** ** The invariant holds of a new container and is kept by every operation *)

Lemma create_wf : dc_wf DataContainer_Create.
Proof.
  split; [|intros i j p q Hi; unfold DataContainer_Create in Hi; simpl in Hi; by rewrite lookup_empty in Hi].
  constructor; simpl; intros *; rewrite ?lookup_empty; try done.
  unfold root_wf, root_tags; simpl. split; [by left|]. set_solver.
Qed.

(** ** What a successful operation did *)

Lemma add_plugin_Ok name type klass dc id dc' :
  DataContainer_AddPlugin name type klass dc = Ok (id, dc') <->
  exists n ty kl, name = Some n /\ type = Some ty /\ klass = Some kl /\
    dc_next dc <= u32_max /\ id = dc_next dc /\
    dc' = mkDC (dc_root dc) (<[id := mkPluginAttrs n ty kl None]> (dc_plugins dc))
            (dc_params dc) (dc_next dc + 1).
Proof.
  unfold DataContainer_AddPlugin, alloc_id.
  destruct name as [n|], type as [ty|], klass as [kl|]; simpl;
    try (split; [discriminate|naive_solver]).
  destruct (Z.leb_spec (dc_next dc) u32_max); simpl; [|split; [discriminate|naive_solver lia]].
  split; [intros [= <- <-]; naive_solver|].
  intros (? & ? & ? & [= <-] & [= <-] & [= <-] & _ & -> & ->). done.
Qed.

Lemma add_parameter_Ok pluginId name type custom dc id dc' :
  DataContainer_AddParameter pluginId name type custom dc = Ok (id, dc') <->
  exists n ty, is_Some (dc_plugins dc !! pluginId) /\ name = Some n /\ type = Some ty /\
    n <> ""%string /\ param_named dc pluginId n = None /\ dc_next dc <= u32_max /\
    id = dc_next dc /\
    dc' = mkDC (dc_root dc) (dc_plugins dc)
            (<[id := mkParamRec pluginId (mkParamAttrs n ty (flag_of_int custom) false) None]>
               (dc_params dc)) (dc_next dc + 1).
Proof.
  unfold DataContainer_AddParameter, alloc_id.
  case_bool_decide as Hp; simpl; [|split; [discriminate|naive_solver]].
  destruct name as [n|], type as [ty|]; simpl; try (split; [discriminate|naive_solver]).
  case_bool_decide as Hn; simpl; [|split; [discriminate|naive_solver]].
  case_bool_decide as Hf; simpl; [|split; [discriminate|naive_solver]].
  destruct (Z.leb_spec (dc_next dc) u32_max); simpl; [|split; [discriminate|naive_solver lia]].
  split; [intros [= <- <-]; naive_solver|].
  intros (? & ? & _ & [= <-] & [= <-] & _ & _ & _ & -> & ->). done.
Qed.

Lemma add_plugin_sound name type klass dc id dc' :
  dc_sound dc -> DataContainer_AddPlugin name type klass dc = Ok (id, dc') -> dc_sound dc'.
Proof.
  intros Hwf (n & ty & kl & _ & _ & _ & Hmax & -> & ->)%add_plugin_Ok.
  destruct (wf_next_fresh _ Hwf) as [Hfp Hfa].
  destruct Hwf; constructor; simpl; intros *; rewrite ?lookup_insert_Some; try lia.
  - intros [[<- _]|[_ Hi]]; [lia|]. apply wf_plugin_ids0 in Hi. lia.
  - intros Hi. apply wf_param_ids0 in Hi. lia.
  - intros [[<- _]|[_ Hi]] Ha; [congruence|eauto].
  - intros Ha. rewrite lookup_insert_is_Some'. eauto.
  - eauto.
  - eauto.
  - eauto.
  - done.
Qed.

(** The plugin [AddPlugin] adds keeps the names unique exactly when they
    were and no plugin had its name. *)
Lemma add_plugin_names_unique n ty kl dc id dc' :
  dc_sound dc -> DataContainer_AddPlugin (Some n) (Some ty) (Some kl) dc = Ok (id, dc') ->
  plugin_names_unique dc' <-> plugin_names_unique dc /\ plugin_named dc n = None.
Proof.
  intros Hwf E. pose proof (proj1 (wf_next_fresh _ Hwf)) as Hfp.
  apply add_plugin_Ok in E as (? & ? & ? & [= <-] & [= <-] & [= <-] & _ & -> & Hd).
  assert (Hd' : dc_plugins dc' = <[dc_next dc := mkPluginAttrs n ty kl None]> (dc_plugins dc)) by (by subst).
  assert (Hin : forall i p, dc_plugins dc !! i = Some p -> dc_plugins dc' !! i = Some p).
  { intros i p Hi. rewrite Hd', lookup_insert_ne; [done|]. intros Heq. subst i. congruence. }
  split.
  - intros Hu. split; [eapply names_unique_sub; [exact Hin|exact Hu]|].
    apply (proj2 (plugin_named_None _ _)). intros i p Hi Hn.
    assert (i = dc_next dc) as ->.
    { eapply Hu; [exact (Hin _ _ Hi)|rewrite Hd'; apply lookup_insert_eq|done]. }
    congruence.
  - intros [Hu Hf]. rewrite plugin_named_None in Hf. eapply names_unique_insert; [exact Hd'|exact Hu|].
    intros j q Hj Hn. by destruct (Hf j q Hj).
Qed.

Lemma add_plugin_wf n ty kl dc id dc' :
  dc_wf dc -> DataContainer_AddPlugin (Some n) (Some ty) (Some kl) dc = Ok (id, dc') ->
  plugin_named dc n = None -> dc_wf dc'.
Proof.
  intros Hwf E Hf. split; [exact (add_plugin_sound _ _ _ _ _ _ Hwf E)|].
  apply (add_plugin_names_unique _ _ _ _ _ _ Hwf E). split; [apply Hwf|done].
Qed.

Lemma add_parameter_sound pluginId name type custom dc id dc' :
  dc_sound dc -> DataContainer_AddParameter pluginId name type custom dc = Ok (id, dc') -> dc_sound dc'.
Proof.
  intros Hwf (n & ty & Hpl & _ & _ & Hne & Hfree & Hmax & -> & ->)%add_parameter_Ok.
  destruct (wf_next_fresh _ Hwf) as [Hfp Hfa].
  rewrite param_named_None in Hfree.
  destruct Hwf; constructor; simpl; intros *; rewrite ?lookup_insert_Some; try lia.
  - intros Hi. apply wf_plugin_ids0 in Hi. lia.
  - intros [[<- _]|[_ Hi]]; [lia|]. apply wf_param_ids0 in Hi. lia.
  - intros Hp [[<- _]|[_ Hi]]; [congruence|eauto].
  - intros [[<- <-]|[_ Hi]]; simpl; eauto.
  - intros [[<- <-]|[Hne1 Hi]] [[<- <-]|[Hne2 Hj]]; simpl; try done.
    + intros Ho Hn. destruct (Hfree j b Hj); congruence.
    + intros Ho Hn. destruct (Hfree i a Hi); congruence.
    + eauto.
  - intros [[<- <-]|[_ Hi]]; simpl; eauto.
  - intros [[<- <-]|[_ Hi]]; simpl; [discriminate|eauto].
  - done.
Qed.

Lemma add_parameter_wf pluginId name type custom dc id dc' :
  dc_wf dc -> DataContainer_AddParameter pluginId name type custom dc = Ok (id, dc') -> dc_wf dc'.
Proof.
  intros Hwf E. split; [eapply add_parameter_sound; [exact Hwf|exact E]|].
  apply add_parameter_Ok in E as (? & ? & _ & _ & _ & _ & _ & _ & _ & ->).
  eapply names_unique_sub; [|apply Hwf]. done.
Qed.

Lemma remove_Ok elementId dc dc' :
  DataContainer_RemoveElement elementId dc = Ok dc' <->
  elementId <> 0 /\
  ((is_Some (dc_plugins dc !! elementId) /\
    dc' = mkDC (dc_root dc) (delete elementId (dc_plugins dc))
            (filter (fun ia => pa_owner ia.2 <> elementId) (dc_params dc)) (dc_next dc)) \/
   (dc_plugins dc !! elementId = None /\ is_Some (dc_params dc !! elementId) /\
    dc' = set_params (delete elementId (dc_params dc)) dc)).
Proof.
  unfold DataContainer_RemoveElement.
  destruct (Z.eqb_spec elementId 0) as [->|Hz]; simpl; [split; [discriminate|naive_solver]|].
  destruct (dc_plugins dc !! elementId) as [p|] eqn:Hp.
  - split; [intros [= <-]; naive_solver|]. intros [_ [[_ ->]|[? _]]]; [done|congruence].
  - destruct (dc_params dc !! elementId) as [a|] eqn:Ha.
    + split; [intros [= <-]; naive_solver|].
      intros [_ [[[? ?] _]|[_ [_ ->]]]]; [congruence|done].
    + split; [discriminate|]. intros [_ [[[? ?] _]|[_ [[? ?] _]]]]; congruence.
Qed.

Lemma remove_sound elementId dc dc' :
  dc_sound dc -> DataContainer_RemoveElement elementId dc = Ok dc' -> dc_sound dc'.
Proof.
  intros Hwf (Hz & [[_ ->]|[Hp [_ ->]]])%remove_Ok;
    destruct Hwf; constructor; simpl; intros *;
    rewrite ?lookup_delete_Some, ?map_lookup_filter_Some; simpl; try lia.
  - intros [_ Hi]; eauto.
  - intros [Hi _]; eauto.
  - intros [_ Hi] [Ha _]; eauto.
  - intros [Ha Ho]. rewrite lookup_delete_is_Some. split; [done|]. eauto.
  - intros [Ha _] [Hb _]; eauto.
  - intros [Ha _]; eauto.
  - intros [Ha _]; eauto.
  - done.
  - eauto.
  - intros [_ Hi]; eauto.
  - intros Hi [_ Ha]; eauto.
  - intros [_ Ha]; eauto.
  - intros [_ Ha] [_ Hb]; eauto.
  - intros [_ Ha]; eauto.
  - intros [_ Ha]; eauto.
  - done.
Qed.

Lemma remove_wf elementId dc dc' :
  dc_wf dc -> DataContainer_RemoveElement elementId dc = Ok dc' -> dc_wf dc'.
Proof.
  intros Hwf E. split; [eapply remove_sound; [exact Hwf|exact E]|].
  apply remove_Ok in E as (_ & [[_ ->]|[_ [_ ->]]]); eapply names_unique_sub; try apply Hwf;
    simpl; [|done]. intros i p [_ Hi]%lookup_delete_Some. done.
Qed.

Lemma set_value_Ok paramId data type listLength dc dc' :
  DataContainer_SetValue paramId data type listLength dc = Ok dc' <->
  exists a v, dc_params dc !! paramId = Some a /\ make_value data type listLength = Ok v /\
    dc' = set_params (<[paramId := set_value (Some v) a]> (dc_params dc)) dc.
Proof.
  unfold DataContainer_SetValue.
  destruct (dc_params dc !! paramId) as [a|] eqn:Ha; simpl; [|split; [discriminate|naive_solver]].
  destruct (make_value data type listLength) as [v|e] eqn:Hv; simpl;
    [split; [intros [= <-]|]; naive_solver|split; [discriminate|naive_solver]].
Qed.

Lemma set_value_sound paramId data type listLength dc dc' :
  dc_sound dc -> DataContainer_SetValue paramId data type listLength dc = Ok dc' -> dc_sound dc'.
Proof.
  intros Hwf (a & v & Ha & Hv & ->)%set_value_Ok.
  destruct Hwf; constructor; simpl; intros *; rewrite ?lookup_insert_Some; simpl; try lia.
  - eauto.
  - intros [[<- _]|[_ Hi]]; eauto.
  - intros Hp [[<- _]|[_ Hi]]; eauto.
  - intros [[<- <-]|[_ Hi]]; simpl; eauto.
  - intros [[<- <-]|[_ Hi]] [[<- <-]|[_ Hj]]; simpl; eauto.
  - intros [[<- <-]|[_ Hi]]; simpl; eauto.
  - intros [[<- <-]|[_ Hi]]; simpl; [intros [= <-]; by eapply make_value_wf|eauto].
  - done.
Qed.

Lemma set_value_wf paramId data type listLength dc dc' :
  dc_wf dc -> DataContainer_SetValue paramId data type listLength dc = Ok dc' -> dc_wf dc'.
Proof.
  intros Hwf E. split; [eapply set_value_sound; [exact Hwf|exact E]|].
  apply set_value_Ok in E as (? & ? & _ & _ & ->). eapply names_unique_sub; [|apply Hwf]. done.
Qed.

(** The calls that add no element leave the id counter alone. *)

Lemma remove_next id dc dc' :
  DataContainer_RemoveElement id dc = Ok dc' -> dc_next dc' = dc_next dc.
Proof. intros (_ & [[_ ->]|[_ [_ ->]]])%remove_Ok; done. Qed.

Lemma set_value_next pid d t l dc dc' :
  DataContainer_SetValue pid d t l dc = Ok dc' -> dc_next dc' = dc_next dc.
Proof. intros (? & ? & _ & _ & ->)%set_value_Ok. done. Qed.

(** What a successful [SetMeta] did, by the kind of the element. *)
Lemma set_meta_Ok element meta dc dc' :
  DataContainer_SetMeta element meta dc = Ok dc' <->
  (element = 0 /\ exists r, set_meta meta (dc_root dc) = Ok r /\ dc' = set_root r dc) \/
  (element <> 0 /\ exists p p', dc_plugins dc !! element = Some p /\ set_meta meta p = Ok p' /\
     dc' = set_plugins (<[element := p']> (dc_plugins dc)) dc) \/
  (element <> 0 /\ dc_plugins dc !! element = None /\
   exists a x, dc_params dc !! element = Some a /\ set_meta meta (pa_attrs a) = Ok x /\
     free_for (param_named dc (pa_owner a) (a_name x)) element = true /\
     dc' = set_params (<[element := set_attrs x a]> (dc_params dc)) dc).
Proof.
  unfold DataContainer_SetMeta. destruct (Z.eqb_spec element 0) as [->|Hz].
  - destruct (set_meta meta (dc_root dc)) as [r|]; simpl;
      [split; [intros [= <-]|]; naive_solver|split; [discriminate|naive_solver]].
  - destruct (dc_plugins dc !! element) as [p|] eqn:Hp.
    + destruct (set_meta meta p) as [p'|] eqn:Hs; simpl; split.
      * intros [= <-]. right; left. eauto 10.
      * intros [[? _]|[(_ & q & q' & Hq & Hq' & ->)|(_ & ? & _)]]; [done| |congruence].
        injection Hq as <-. rewrite Hs in Hq'. by injection Hq' as <-.
      * discriminate.
      * intros [[? _]|[(_ & q & q' & Hq & Hq' & _)|(_ & ? & _)]]; [done| |congruence].
        injection Hq as <-. rewrite Hs in Hq'. discriminate.
    + destruct (dc_params dc !! element) as [a|] eqn:Ha; [|split; [discriminate|naive_solver]].
      destruct (set_meta meta (pa_attrs a)) as [x|] eqn:Hs; simpl; cycle 1.
      { split; [discriminate|].
        intros [[? _]|[(_ & ? & ? & ? & _)|(_ & _ & b & y & Hb & Hy & _)]]; [done|discriminate|].
        injection Hb as <-. congruence. }
      destruct (free_for _ _) eqn:Hf; simpl; split.
      * intros [= <-]. right; right. eauto 10.
      * intros [[? _]|[(_ & ? & ? & ? & _)|(_ & _ & b & y & Hb & Hy & _ & ->)]]; [done|discriminate|].
        injection Hb as <-. rewrite Hs in Hy. by injection Hy as <-.
      * discriminate.
      * intros [[? _]|[(_ & ? & ? & ? & _)|(_ & _ & b & y & Hb & Hy & Hf' & _)]]; [done|discriminate|].
        injection Hb as <-. rewrite Hs in Hy. injection Hy as <-. congruence.
Qed.

Lemma set_meta_next e m dc dc' :
  DataContainer_SetMeta e m dc = Ok dc' -> dc_next dc' = dc_next dc.
Proof. intros [(_ & ? & _ & ->)|[(_ & ? & ? & _ & _ & ->)|(_ & _ & ? & ? & _ & _ & _ & ->)]]%set_meta_Ok; done. Qed.

Lemma free_for_plugin dc n id :
  dc_wf dc -> free_for (plugin_named dc n) id = true ->
  forall j q, dc_plugins dc !! j = Some q -> p_name q = n -> j = id.
Proof.
  intros Hwf Hf j q Hj Hn.
  assert (plugin_named dc n = Some j) as E by (apply plugin_named_Some; eauto).
  rewrite E in Hf. by apply Z.eqb_eq in Hf.
Qed.

Lemma free_for_param dc o n id :
  dc_sound dc -> free_for (param_named dc o n) id = true ->
  forall j b, dc_params dc !! j = Some b -> pa_owner b = o -> a_name (pa_attrs b) = n -> j = id.
Proof.
  intros Hwf Hf j b Hj Ho Hn.
  assert (param_named dc o n = Some j) as E by (apply param_named_Some; eauto).
  rewrite E in Hf. by apply Z.eqb_eq in Hf.
Qed.

Lemma set_meta_sound element meta dc dc' :
  dc_sound dc -> DataContainer_SetMeta element meta dc = Ok dc' -> dc_sound dc'.
Proof.
  intros Hwf [(_ & r & Hr & ->)|[(Hz & p & p' & Hp & Hs & ->)|(Hz & Hp & a & x & Ha & Hs & Hf & ->)]]%set_meta_Ok.
  - destruct Hwf; constructor; simpl; eauto. by eapply root_set_meta_wf.
  - destruct Hwf; constructor; simpl; intros *; rewrite ?lookup_insert_Some; simpl; try lia.
    + intros [[<- _]|[_ Hi]]; eauto.
    + eauto.
    + intros [[<- _]|[_ Hi]] Ha; eauto.
    + intros Ha. rewrite lookup_insert_is_Some'. eauto.
    + eauto.
    + eauto.
    + eauto.
    + done.
  - pose proof (free_for_param _ _ _ _ Hwf Hf) as Huniq.
    destruct Hwf; constructor; simpl; intros *; rewrite ?lookup_insert_Some; simpl; try lia.
    + eauto.
    + intros [[<- _]|[_ Hi]]; eauto.
    + intros Hp' [[<- _]|[_ Hi]]; eauto.
    + intros [[<- <-]|[_ Hi]]; simpl; eauto.
    + intros [[<- <-]|[Hne1 Hi]] [[<- <-]|[Hne2 Hj]]; simpl; try done.
      * intros Ho Hn. symmetry. eauto.
      * intros Ho Hn. eauto.
      * eauto.
    + intros [[<- <-]|[_ Hi]]; simpl; [|eauto]. eapply param_set_meta_name; eauto.
    + intros [[<- <-]|[_ Hi]]; simpl; eauto.
    + done.
Qed.

(** A write that gives a plugin a name no other plugin has, or none, keeps
    the names unique. *)
Lemma set_meta_wf element meta dc dc' :
  dc_wf dc -> DataContainer_SetMeta element meta dc = Ok dc' ->
  (forall p p', dc_plugins dc !! element = Some p -> set_meta meta p = Ok p' ->
     free_for (plugin_named dc (p_name p')) element = true) ->
  dc_wf dc'.
Proof.
  intros Hwf E Hfree. split; [eapply set_meta_sound; [exact Hwf|exact E]|].
  apply set_meta_Ok in E as [(_ & r & _ & ->)|[(_ & p & p' & Hp & Hs & ->)|(_ & _ & a & x & _ & _ & _ & ->)]];
    [eapply names_unique_sub; [|apply Hwf]; done| |eapply names_unique_sub; [|apply Hwf]; done].
  eapply names_unique_insert; [reflexivity|apply Hwf|].
  exact (free_for_plugin _ _ _ Hwf (Hfree p p' Hp Hs)).
Qed.

(** A write whose mask leaves out the plugin name keeps it. *)
Lemma set_meta_name_kept m (p p' : PluginAttrs) :
  in_mask PluginName (mask m) = false -> set_meta m p = Ok p' -> p_name p' = p_name p.
Proof.
  unfold set_meta. destruct (scope_ok _ _); [|done]. intros Hm Hs%of_option_Ok.
  pose proof (store_fields_frame _ _ _ _ PluginName Hs (or_intror Hm)) as E. simpl in E. congruence.
Qed.

(** A write that does not select the plugin name keeps the names unique. *)
Lemma set_meta_wf_keep element meta dc dc' :
  dc_wf dc -> DataContainer_SetMeta element meta dc = Ok dc' ->
  in_mask PluginName (mask meta) = false -> dc_wf dc'.
Proof.
  intros Hwf E Hm. apply (set_meta_wf _ _ _ _ Hwf E). intros p p' Hp Hs.
  rewrite (set_meta_name_kept _ _ _ Hm Hs), (proj2 (plugin_named_Some dc (p_name p) element Hwf)) by eauto.
  apply Z.eqb_refl.
Qed.

(** ** Lookup by name *)

(** C11: [DataContainer_GetElementId] with plugin 0 answers the id of the
    plugin with that name, and 0 exactly when no plugin has it. *)
Theorem get_element_id_plugin dc n :
  dc_wf dc ->
  (forall i p, dc_plugins dc !! i = Some p -> p_name p = n ->
     DataContainer_GetElementId dc 0 (Some n) = i) /\
  (DataContainer_GetElementId dc 0 (Some n) = 0 <->
     forall i p, dc_plugins dc !! i = Some p -> p_name p <> n).
Proof.
  intros Hwf. unfold DataContainer_GetElementId. simpl. split.
  - intros i p Hi Hn. by rewrite (proj2 (plugin_named_Some dc n i Hwf) ltac:(eauto)).
  - rewrite <- plugin_named_None. destruct (plugin_named dc n) as [i|] eqn:E; simpl; [|done].
    split; [|done]. intros ->.
    apply (plugin_named_Some dc n 0 Hwf) in E as (p & Hp & _).
    apply (wf_plugin_ids _ Hwf) in Hp. lia.
Qed.

Lemma get_element_id_param dc pid n i a :
  dc_wf dc -> pid <> 0 -> dc_params dc !! i = Some a -> pa_owner a = pid ->
  a_name (pa_attrs a) = n -> DataContainer_GetElementId dc pid (Some n) = i.
Proof.
  intros Hwf Hpid Hi Ho Hn. unfold DataContainer_GetElementId.
  rewrite (proj2 (Z.eqb_neq pid 0) Hpid).
  by rewrite (proj2 (param_named_Some dc pid n i Hwf) ltac:(eauto)).
Qed.

(** ** Removal *)

(** C8: Removing a plugin removes it and every parameter it owned: its id, its
    name and their ids no longer resolve; every other plugin, and every
    parameter of another plugin, is kept as it was, even one whose value
    names the removed plugin. *)
Theorem remove_plugin_spec dc id p dc' :
  dc_plugins dc !! id = Some p ->
  DataContainer_RemoveElement id dc = Ok dc' ->
  dc_plugins dc' !! id = None /\
  (forall j a, dc_params dc !! j = Some a -> pa_owner a = id -> dc_params dc' !! j = None) /\
  (forall j, j <> id -> dc_plugins dc' !! j = dc_plugins dc !! j) /\
  (forall j a, dc_params dc !! j = Some a -> pa_owner a <> id -> dc_params dc' !! j = Some a).
Proof.
  intros Hp (Hz & [[_ ->]|[Hn _]])%remove_Ok; [|congruence]. simpl.
  split; [by rewrite lookup_delete_eq|]. split; [|split].
  - intros j a Ha Ho. rewrite map_lookup_filter_None. right. intros x Hx. simpl.
    rewrite Ha in Hx. injection Hx as <-. auto.
  - intros j Hj. by rewrite lookup_delete_ne.
  - intros j a Ha Ho. by apply map_lookup_filter_Some.
Qed.

(** C9: A removed element is gone for every query that takes an id. *)
Theorem removed_not_found dc id dc' m :
  dc_wf dc -> DataContainer_RemoveElement id dc = Ok dc' ->
  DataContainer_GetMeta dc' id m = Err NotFound /\ DataContainer_GetValue dc' id = Err NotFound /\
  DataContainer_RemoveElement id dc' = Err NotFound.
Proof.
  intros Hwf (Hz & [[[p Hp] ->]|[Hn [_ ->]]])%remove_Ok;
    unfold DataContainer_GetMeta, DataContainer_GetValue, DataContainer_RemoveElement;
    simpl; rewrite (proj2 (Z.eqb_neq id 0) Hz); simpl.
  - rewrite lookup_delete_eq.
    assert (filter (fun ia : Z * ParamRec => pa_owner ia.2 <> id) (dc_params dc) !! id = None) as ->.
    { rewrite map_lookup_filter_None. left.
      destruct (dc_params dc !! id) eqn:E; [|done].
      exfalso. eapply (wf_disjoint _ Hwf); eauto. }
    done.
  - by rewrite Hn, lookup_delete_eq.
Qed.

(** ** Plugin names: the caller's responsibility *)

(** C10: [DataContainer_AddPlugin] does not check the name against the
    other plugins' (header line 362): while ids remain it succeeds for any
    name, adds the plugin under the next id, and the container it leaves
    keeps plugin names unique exactly when no plugin had that name. *)
Theorem add_plugin_names dc n ty kl :
  dc_wf dc -> dc_next dc <= u32_max ->
  exists dc', DataContainer_AddPlugin (Some n) (Some ty) (Some kl) dc = Ok (dc_next dc, dc') /\
    dc_plugins dc' !! dc_next dc = Some (mkPluginAttrs n ty kl None) /\
    (dc_wf dc' <-> plugin_named dc n = None).
Proof.
  intros Hwf Hmax.
  set (dc' := mkDC (dc_root dc) (<[dc_next dc := mkPluginAttrs n ty kl None]> (dc_plugins dc))
                (dc_params dc) (dc_next dc + 1)).
  assert (E : DataContainer_AddPlugin (Some n) (Some ty) (Some kl) dc = Ok (dc_next dc, dc'))
    by (apply add_plugin_Ok; eauto 10).
  exists dc'. split; [done|]. split; [apply lookup_insert_eq|].
  pose proof (add_plugin_names_unique _ _ _ _ _ _ Hwf E) as Hu. split.
  - intros Hwf'. exact (proj2 (proj1 Hu (wf_plugin_names _ Hwf'))).
  - intros Hf. exact (add_plugin_wf _ _ _ _ _ _ Hwf E Hf).
Qed.

(** ** Masked metadata on the container *)

(** C12: Writing only the plugin type of a plugin changes that plugin's
    type and nothing else: the container afterwards is the one before
    with the plugin's type replaced (its name, class and version, every
    other element, the root and the id counter as they were), and a later
    read of the plugin categories reports the new type beside the
    unchanged name and class. *)
Theorem set_meta_plugin_type dc id p m t :
  dc_sound dc -> dc_plugins dc !! id = Some p ->
  mask m = mc_bit PluginType -> pluginType m = Some t ->
  exists dc', DataContainer_SetMeta id m dc = Ok dc' /\
  dc' = set_plugins (<[id := mkPluginAttrs (p_name p) t (p_class p) (p_version p)]> (dc_plugins dc)) dc /\
  forall m2, mask m2 = MC_Plugin ->
  exists m2', DataContainer_GetMeta dc' id m2 = Ok m2' /\
    pluginName m2' = Some (p_name p) /\ pluginType m2' = Some t /\
    pluginClass m2' = Some (p_class p).
Proof.
  intros Hwf Hp Hm Ht.
  assert (Hid : id <> 0) by (apply (wf_plugin_ids _ Hwf) in Hp; lia).
  assert (Hsm : set_meta m p = Ok (mkPluginAttrs (p_name p) t (p_class p) (p_version p))).
  { unfold set_meta. rewrite Hm. destruct p. simpl. rewrite Hm. simpl. rewrite Ht. done. }
  eexists. split; [|split; [reflexivity|]].
  - apply set_meta_Ok. right; left. eauto 10.
  - intros m2 Hm2. unfold DataContainer_GetMeta. simpl.
    rewrite (proj2 (Z.eqb_neq id 0) Hid), lookup_insert_eq.
    unfold get_meta. rewrite Hm2. simpl.
    destruct m2, p as [na ty cl [ve|]]; simpl in *; subst; eexists; split; try reflexivity; simpl; auto.
Qed.

(** C16: A read answers with the requested categories the element has, by
    the header's rules: the document's version and tag always, its
    category only for a version 1 document that has one, its preview and
    file name only when set; a plugin's name, type and class always, its
    version only when one was given; a parameter's four attributes
    always.  Every member of the caller's struct the answer does not
    report is left as it was. *)
Theorem get_meta_reports dc e m m' :
  DataContainer_GetMeta dc e m = Ok m' ->
  (forall f, in_mask f (mask m') = true <->
     in_mask f (mask m) = true /\
     match f with
     | RootVersion | RootTag => e = 0
     | RootCategory => e = 0 /\ r_version (dc_root dc) = 1 /\ is_Some (r_category (dc_root dc))
     | RootPreview => e = 0 /\ is_Some (r_preview (dc_root dc))
     | RootFileName => e = 0 /\ is_Some (r_fileName (dc_root dc))
     | PluginName | PluginType | PluginClass => e <> 0 /\ is_Some (dc_plugins dc !! e)
     | PluginVersion => e <> 0 /\ exists p, dc_plugins dc !! e = Some p /\ is_Some (p_version p)
     | ParamName | ParamType | ParamCustom | ParamFilePath =>
         e <> 0 /\ dc_plugins dc !! e = None /\ is_Some (dc_params dc !! e)
     end) /\
  (forall f, in_mask f (mask m') = false -> meta_get_field f m' = meta_get_field f m).
Proof.
  unfold DataContainer_GetMeta.
  destruct (Z.eqb_spec e 0) as [->|He];
    [|destruct (dc_plugins dc !! e) as [p|] eqn:Hp;
      [|destruct (dc_params dc !! e) as [a|] eqn:Ha; [|discriminate]]];
    intros E; (split; [intros f; rewrite (get_meta_in_mask _ _ _ f E)|intros f; exact (get_meta_frame _ _ _ f E)]);
    (destruct (in_mask f (mask m)); [|split; [discriminate|intros [[=] _]]]);
    destruct f; simpl; rewrite ?andb_true_iff, ?bool_decide_eq_true, ?Z.eqb_eq; naive_solver.
Qed.

(** ** Values on the container *)

(** C13: After a successful [DataContainer_SetValue], [DataContainer_GetValue]
    reports the value just stored, with the owning plugin's id. *)
Theorem set_then_get_value dc pid data type n dc' :
  DataContainer_SetValue pid data type n dc = Ok dc' ->
  exists a v, dc_params dc !! pid = Some a /\ make_value data type n = Ok v /\
    DataContainer_GetValue dc' pid = Ok (value_data (pa_owner a) pid v).
Proof.
  intros (a & v & Ha & Hv & ->)%set_value_Ok. exists a, v. split; [done|]. split; [done|].
  unfold DataContainer_GetValue. simpl. by rewrite lookup_insert_eq.
Qed.

(** ** Witnesses on a small container

    A container with plugin 1 ["Foo"] owning parameter 2 ["diffuse"],
    built by the exported calls themselves. *)

Definition ex_plugin : PluginAttrs := mkPluginAttrs "Foo" "VRayMtl" "material" None.
Definition ex_param : ParamRec := mkParamRec 1 (mkParamAttrs "diffuse" "color" false false) None.
Definition ex_dc1 : DataContainer := mkDC root_default {[1 := ex_plugin]} ∅ 2.
Definition ex_dc2 : DataContainer := mkDC root_default {[1 := ex_plugin]} {[2 := ex_param]} 3.
Definition ex_meta_type : Meta :=
  set_mask (mc_bit PluginType) (meta_set_field PluginType (FStr (Some "X"%string)) meta_zero).
Definition ex_after_remove : DataContainer :=
  match DataContainer_RemoveElement 1 ex_dc2 with Ok d => d | Err _ => ex_dc2 end.

Lemma ex_dc2_wf : dc_wf ex_dc2.
Proof.
  apply (add_parameter_wf 1 (Some "diffuse"%string) (Some "color"%string) 0 ex_dc1 2);
    [|reflexivity].
  apply (add_plugin_wf "Foo" "VRayMtl" "material" DataContainer_Create 1);
    [apply create_wf|reflexivity|reflexivity].
Qed.

Lemma remove_plugin_spec_witness :
  DataContainer_RemoveElement 1 ex_dc2 = Ok ex_after_remove /\
  dc_params ex_after_remove !! 2 = None.
Proof.
  assert (H : DataContainer_RemoveElement 1 ex_dc2 = Ok ex_after_remove) by reflexivity.
  split; [exact H|].
  exact (proj1 (proj2 (remove_plugin_spec ex_dc2 1 ex_plugin ex_after_remove eq_refl H))
           2 ex_param eq_refl eq_refl).
Defined.

Lemma removed_not_found_witness :
  DataContainer_GetMeta ex_after_remove 1 meta_zero = Err NotFound /\
  DataContainer_GetValue ex_after_remove 1 = Err NotFound /\
  DataContainer_RemoveElement 1 ex_after_remove = Err NotFound.
Proof. exact (removed_not_found ex_dc2 1 ex_after_remove meta_zero ex_dc2_wf eq_refl). Defined.

Lemma get_element_id_plugin_witness :
  DataContainer_GetElementId ex_dc2 0 (Some "Foo"%string) = 1.
Proof. exact (proj1 (get_element_id_plugin ex_dc2 "Foo" ex_dc2_wf) 1 ex_plugin eq_refl eq_refl). Defined.

(** A second plugin named "Foo" is added, and the names are no longer unique. *)
Lemma add_plugin_names_witness :
  exists dc', DataContainer_AddPlugin (Some "Foo"%string) (Some "TexBitmap"%string) (Some "bitmap"%string) ex_dc2 =
    Ok (3, dc') /\ dc_plugins dc' !! 3 = Some (mkPluginAttrs "Foo" "TexBitmap" "bitmap" None) /\ ~ dc_wf dc'.
Proof.
  destruct (add_plugin_names ex_dc2 "Foo" "TexBitmap" "bitmap" ex_dc2_wf ltac:(vm_compute; congruence))
    as (dc' & E & Hp & Hiff).
  exists dc'. split; [exact E|]. split; [exact Hp|]. rewrite Hiff. vm_compute. discriminate.
Defined.

Lemma set_meta_plugin_type_witness :
  exists dc', DataContainer_SetMeta 1 ex_meta_type ex_dc2 = Ok dc' /\
  dc' = set_plugins (<[1 := mkPluginAttrs "Foo" "X" "material" None]> (dc_plugins ex_dc2)) ex_dc2 /\
  forall m2, mask m2 = MC_Plugin ->
  exists m2', DataContainer_GetMeta dc' 1 m2 = Ok m2' /\
    pluginName m2' = Some "Foo"%string /\ pluginType m2' = Some "X"%string /\
    pluginClass m2' = Some "material"%string.
Proof.
  exact (set_meta_plugin_type ex_dc2 1 ex_plugin ex_meta_type "X" ex_dc2_wf eq_refl eq_refl eq_refl).
Defined.

(** A version 0 document keeps a category it is given, unreported. *)
Definition ex_root_cat : RootAttrs := mkRootAttrs 0 (Some "mtl"%string) None "vrmat" None.
Definition ex_dc_cat : DataContainer := set_root ex_root_cat ex_dc2.

Lemma get_meta_reports_witness :
  exists m', DataContainer_GetMeta ex_dc_cat 0 (set_mask MC_Root meta_zero) = Ok m' /\
    in_mask RootCategory (mask m') = false /\ in_mask RootVersion (mask m') = true.
Proof.
  eexists. split; [reflexivity|].
  pose proof (proj1 (get_meta_reports ex_dc_cat 0 (set_mask MC_Root meta_zero) _ eq_refl)) as H.
  split.
  - destruct (in_mask RootCategory _) eqn:E; [|reflexivity].
    apply H in E as [_ (_ & Hv & _)]. discriminate.
  - apply H. split; [reflexivity|reflexivity].
Defined.

Definition ex_word_type : Z := type_word (mkTypeDesc Rdt_Float Stdt_Array3 Sqdt_Single).
Definition ex_after_set : DataContainer :=
  match DataContainer_SetValue 2 (RawWords [1; 2; 3]) ex_word_type 0 ex_dc2 with
  | Ok d => d | Err _ => ex_dc2 end.

Lemma set_then_get_value_witness :
  exists a v, dc_params ex_dc2 !! 2 = Some a /\
    make_value (RawWords [1; 2; 3]) ex_word_type 0 = Ok v /\
    DataContainer_GetValue ex_after_set 2 = Ok (value_data (pa_owner a) 2 v).
Proof. exact (set_then_get_value ex_dc2 2 (RawWords [1; 2; 3]) ex_word_type 0 ex_after_set eq_refl). Defined.

End Container.
