(* ===== verification/Doc.v ===== *)
(** * The document by names: the contract the container refines

    The project specification states the element graph by names: a
    document is a set of uniquely named plugins, each with uniquely named
    parameters, and the calls add, remove and set them by name.  The
    container of [Container] addresses elements by ids.  This file holds
    the name-keyed document [ADoc] (Module [Doc]), its operations
    ([a_add_plugin], [a_add_param], [a_remove_plugin], [a_remove_param],
    [a_set_value]), the abstraction [abs] that forgets ids and keys every
    element by its name, and one refinement theorem per mutating call:
    on a container satisfying [dc_wf], the call followed by [abs] is the
    abstract operation applied to [abs] of the container, failures
    included ([Conflict] on a taken parameter name, [InvalidArgument] on
    an empty one, [IdsExhausted]).  The abstraction keys plugins by name,
    so it sees a container whose plugin names are unique: [AddPlugin]
    does not check them (header line 362), and its refinement holds for
    the calls that add a name the document does not hold, the caller's
    side of that contract.  Ids are never visible at this level. *)

From Stdlib Require Import ZArith Lia.
From stdpp Require Import base decidable option list sets gmap strings.
From S2P Require Import Prelude TypeDesc Meta MetaKinds ValueStore Container.
Import TypeDesc MetaMapper MetaKinds ValueStore Container.

Open Scope Z_scope.
Local Open Scope vrmat_scope.

Module Doc.

Record AParam := mkAParam { ap_attrs : ParamAttrs; ap_value : option Value }.
Record APlugin := mkAPlugin { apl_attrs : PluginAttrs; apl_params : gmap string AParam }.
Record ADoc := mkADoc { ad_root : RootAttrs; ad_plugins : gmap string APlugin }.

Definition aparam (a : ParamRec) : AParam := mkAParam (pa_attrs a) (pa_value a).

(** The parameters plugin [pid] owns, in the table's order. *)
Definition params_of (m : gmap Z ParamRec) (pid : Z) : list (Z * ParamRec) :=
  filter (fun ia => pa_owner ia.2 = pid) (map_to_list m).

Definition abs_params (m : gmap Z ParamRec) (pid : Z) : gmap string AParam :=
  list_to_map ((fun ia : Z * ParamRec => (a_name (pa_attrs ia.2), aparam ia.2)) <$> params_of m pid).

Definition abs (dc : DataContainer) : ADoc :=
  mkADoc (dc_root dc)
    (list_to_map ((fun ip : Z * PluginAttrs =>
                     (p_name ip.2, mkAPlugin ip.2 (abs_params (dc_params dc) ip.1)))
                  <$> map_to_list (dc_plugins dc))).

(** In a well-formed container a plugin's parameters are keyed by their
    names, and the plugins by theirs. *)
Lemma params_of_inj dc pid : dc_wf dc ->
  forall x y, x ∈ params_of (dc_params dc) pid -> y ∈ params_of (dc_params dc) pid ->
  a_name (pa_attrs x.2) = a_name (pa_attrs y.2) -> x = y.
Proof.
  intros Hwf [i a] [j b] [Ho1 Hi%elem_of_map_to_list]%list_elem_of_filter
    [Ho2 Hj%elem_of_map_to_list]%list_elem_of_filter Hn; simpl in *.
  assert (i = j) as <- by (eapply (wf_param_names _ Hwf); eauto; congruence). congruence.
Qed.

Lemma plugins_inj dc : dc_wf dc ->
  forall x y, x ∈ map_to_list (dc_plugins dc) -> y ∈ map_to_list (dc_plugins dc) -> p_name x.2 = p_name y.2 -> x = y.
Proof.
  intros Hwf [i p] [j q] Hi%elem_of_map_to_list Hj%elem_of_map_to_list Hn; simpl in *.
  assert (i = j) as <- by (eapply (wf_plugin_names _ Hwf); eauto). congruence.
Qed.

Lemma abs_params_lookup dc pid n : dc_wf dc ->
  abs_params (dc_params dc) pid !! n =
    (i ← param_named dc pid n; a ← dc_params dc !! i; Some (aparam a)).
Proof.
  intros Hwf. apply option_eq. intros x. unfold abs_params.
  rewrite (list_to_map_keyed (fun ia : Z * ParamRec => a_name (pa_attrs ia.2))
             (fun ia : Z * ParamRec => aparam ia.2)).
  - unfold params_of. setoid_rewrite list_elem_of_filter. split.
    + intros ([i a] & [Ho Hi%elem_of_map_to_list] & Hn & <-); simpl in *.
      rewrite (proj2 (param_named_Some dc pid n i Hwf)) by eauto. simpl. by rewrite Hi.
    + destruct (param_named dc pid n) as [i|] eqn:E; simpl; [|done].
      apply (param_named_Some _ _ _ _ Hwf) in E as (a & Ha & Ho & Hn).
      rewrite Ha. simpl. intros [= <-]. exists (i, a).
      rewrite elem_of_map_to_list. naive_solver.
  - apply NoDup_filter, NoDup_map_to_list.
  - by apply params_of_inj.
Qed.

Lemma abs_plugins_lookup dc n : dc_wf dc ->
  ad_plugins (abs dc) !! n =
    (i ← plugin_named dc n; p ← dc_plugins dc !! i;
     Some (mkAPlugin p (abs_params (dc_params dc) i))).
Proof.
  intros Hwf. apply option_eq. intros x. unfold abs; simpl.
  rewrite (list_to_map_keyed (fun ip : Z * PluginAttrs => p_name ip.2)
             (fun ip : Z * PluginAttrs => mkAPlugin ip.2 (abs_params (dc_params dc) ip.1))).
  - split.
    + intros ([i p] & Hi%elem_of_map_to_list & Hn & <-); simpl in *.
      rewrite (proj2 (plugin_named_Some dc n i Hwf)) by eauto. simpl. by rewrite Hi.
    + destruct (plugin_named dc n) as [i|] eqn:E; simpl; [|done].
      apply (plugin_named_Some _ _ _ Hwf) in E as (p & Hp & Hn).
      rewrite Hp. simpl. intros [= <-]. exists (i, p).
      rewrite elem_of_map_to_list. naive_solver.
  - apply NoDup_map_to_list.
  - by apply plugins_inj.
Qed.

(** ** The abstract operations: the element graph by names *)

(** A new plugin, without parameters, under a name the document does not
    hold yet. *)
Definition a_add_plugin (n ty kl : string) (d : ADoc) : ADoc :=
  mkADoc (ad_root d) (<[n := mkAPlugin (mkPluginAttrs n ty kl None) ∅]> (ad_plugins d)).

Definition a_add_param (pn n ty : string) (custom : bool) (d : ADoc) : result ADoc :=
  pl <- of_option NotFound (ad_plugins d !! pn) ;;
  ensure (bool_decide (n <> ""%string)) InvalidArgument ;;;
  ensure (bool_decide (apl_params pl !! n = None)) Conflict ;;;
  Ok (mkADoc (ad_root d)
        (<[pn := mkAPlugin (apl_attrs pl)
                   (<[n := mkAParam (mkParamAttrs n ty custom false) None]> (apl_params pl))]>
           (ad_plugins d))).

Definition a_remove_plugin (pn : string) (d : ADoc) : ADoc :=
  mkADoc (ad_root d) (delete pn (ad_plugins d)).

Definition a_remove_param (pn n : string) (d : ADoc) : ADoc :=
  mkADoc (ad_root d)
    (alter (fun pl => mkAPlugin (apl_attrs pl) (delete n (apl_params pl))) pn (ad_plugins d)).

Definition a_set_value (pn n : string) (v : Value) (d : ADoc) : ADoc :=
  mkADoc (ad_root d)
    (alter (fun pl => mkAPlugin (apl_attrs pl)
              (alter (fun ap => mkAParam (ap_attrs ap) (Some v)) n (apl_params pl))) pn (ad_plugins d)).

(** ** Lemmas *)

Lemma adoc_eq d1 d2 :
  ad_root d1 = ad_root d2 -> (forall n, ad_plugins d1 !! n = ad_plugins d2 !! n) -> d1 = d2.
Proof. destruct d1, d2; simpl. intros -> H. f_equal. by apply map_eq. Qed.

Lemma abs_params_fresh dc pid :
  dc_wf dc -> dc_plugins dc !! pid = None -> abs_params (dc_params dc) pid = ∅.
Proof.
  intros Hwf Hp. apply map_eq. intros n. rewrite abs_params_lookup, lookup_empty by done.
  destruct (param_named dc pid n) as [i|] eqn:E; [|done].
  apply (param_named_Some _ _ _ _ Hwf) in E as (a & Ha & Ho & _).
  apply (wf_owner _ Hwf) in Ha. rewrite Ho, Hp in Ha. by destruct Ha.
Qed.

Lemma abs_plugins_None dc n :
  dc_wf dc -> ad_plugins (abs dc) !! n = None <-> plugin_named dc n = None.
Proof.
  intros Hwf. rewrite (abs_plugins_lookup _ _ Hwf).
  destruct (plugin_named dc n) as [i|] eqn:E; simpl; [|done].
  apply (plugin_named_Some _ _ _ Hwf) in E as (p & -> & _). done.
Qed.

Lemma plugin_named_add n ty kl dc id dc' k :
  dc_wf dc -> DataContainer_AddPlugin (Some n) (Some ty) (Some kl) dc = Ok (id, dc') ->
  plugin_named dc n = None ->
  plugin_named dc' k = if bool_decide (k = n) then Some id else plugin_named dc k.
Proof.
  intros Hwf Hadd Hfree. pose proof (add_plugin_wf _ _ _ _ _ _ Hwf Hadd Hfree) as Hwf'.
  apply add_plugin_Ok in Hadd as (n' & ty' & kl' & [= <-] & [= <-] & [= <-] & _ & -> & ->).
  rewrite plugin_named_None in Hfree.
  apply option_eq. intros i. rewrite (plugin_named_Some _ _ _ Hwf'); simpl.
  setoid_rewrite lookup_insert_Some. case_bool_decide as Hk; subst.
  - split.
    + intros (p & [[Hi _]|[_ Hi]] & Hn); [by subst|]. by destruct (Hfree i p Hi).
    + intros [= Hi]. subst i. eexists. split; [left; split; reflexivity|done].
  - rewrite (plugin_named_Some _ _ _ Hwf). split.
    + intros (p & [[_ <-]|[_ Hi]] & Hn); [done|eauto].
    + intros (p & Hi & Hn). exists p. split; [right|done].
      split; [|done]. apply (wf_plugin_ids _ Hwf) in Hi. lia.
Qed.

Lemma abs_params_None dc pid n :
  dc_wf dc -> abs_params (dc_params dc) pid !! n = None <-> param_named dc pid n = None.
Proof.
  intros Hwf. rewrite (abs_params_lookup _ _ _ Hwf).
  destruct (param_named dc pid n) as [i|] eqn:E; simpl; [|done].
  apply (param_named_Some _ _ _ _ Hwf) in E as (a & -> & _). done.
Qed.

Lemma param_named_add pid name type custom dc id dc' n ty :
  dc_wf dc -> DataContainer_AddParameter pid name type custom dc = Ok (id, dc') ->
  name = Some n -> type = Some ty ->
  forall j k, param_named dc' j k =
    if bool_decide (j = pid /\ k = n) then Some id else param_named dc j k.
Proof.
  intros Hwf Hadd. pose proof (add_parameter_wf _ _ _ _ _ _ _ Hwf Hadd) as Hwf'.
  apply add_parameter_Ok in Hadd as (n' & ty' & _ & -> & -> & _ & Hfree & _ & -> & ->).
  intros [= <-] [= <-] j k. rewrite param_named_None in Hfree.
  apply option_eq. intros i. rewrite (param_named_Some _ _ _ _ Hwf'); simpl.
  setoid_rewrite lookup_insert_Some. case_bool_decide as Hk; [destruct Hk; subst|].
  - split.
    + intros (a & [[Hi <-]|[_ Hi]] & Ho & Hn); [by subst|]. by destruct (Hfree i a Hi Ho).
    + intros [= Hi]. subst i. eexists. split; [left; split; reflexivity|done].
  - rewrite (param_named_Some _ _ _ _ Hwf). split.
    + intros (a & [[_ <-]|[_ Hi]] & Ho & Hn); simpl in *; [naive_solver|eauto].
    + intros (a & Hi & Ho & Hn). exists a. split; [right|done].
      split; [|done]. apply (wf_param_ids _ Hwf) in Hi. lia.
Qed.

Lemma abs_params_add pid n ty custom dc id dc' :
  dc_wf dc -> DataContainer_AddParameter pid (Some n) (Some ty) custom dc = Ok (id, dc') ->
  forall j, abs_params (dc_params dc') j =
    if bool_decide (j = pid)
    then <[n := mkAParam (mkParamAttrs n ty (flag_of_int custom) false) None]> (abs_params (dc_params dc) pid)
    else abs_params (dc_params dc) j.
Proof.
  intros Hwf Hadd j. pose proof (add_parameter_wf _ _ _ _ _ _ _ Hwf Hadd) as Hwf'.
  pose proof (param_named_add _ _ _ _ _ _ _ n ty Hwf Hadd eq_refl eq_refl) as Hnm.
  apply add_parameter_Ok in Hadd as (? & ? & _ & [= <-] & [= <-] & _ & _ & _ & -> & ->).
  apply map_eq. intros k. rewrite (abs_params_lookup _ _ _ Hwf'), Hnm.
  destruct (decide (j = pid /\ k = n)) as [[-> ->]|Hjk].
  - rewrite !bool_decide_eq_true_2 by done. simpl. rewrite !lookup_insert_eq. done.
  - rewrite (bool_decide_eq_false_2 (_ /\ _)) by done.
    assert (Hr : abs_params (dc_params dc) j !! k = (i ← param_named dc j k; a ← dc_params dc !! i; Some (aparam a)))
      by apply (abs_params_lookup _ _ _ Hwf).
    case_bool_decide; subst; [rewrite lookup_insert_ne by naive_solver|]; rewrite Hr;
      (destruct (param_named dc _ k) as [i|] eqn:Ei; cbn [mbind option_bind]; [|done]);
      apply (param_named_Some _ _ _ _ Hwf) in Ei as (a & Ha & _); simpl;
      rewrite lookup_insert_ne; try done; apply (wf_param_ids _ Hwf) in Ha; lia.
Qed.

Lemma plugin_named_plugins dc dc' n :
  dc_plugins dc' = dc_plugins dc -> plugin_named dc' n = plugin_named dc n.
Proof. unfold plugin_named. by intros ->. Qed.

Lemma abs_plugin_of dc i p :
  dc_wf dc -> dc_plugins dc !! i = Some p ->
  ad_plugins (abs dc) !! p_name p = Some (mkAPlugin p (abs_params (dc_params dc) i)).
Proof.
  intros Hwf Hp. rewrite (abs_plugins_lookup _ _ Hwf).
  rewrite (proj2 (plugin_named_Some dc (p_name p) i Hwf)) by eauto. simpl. by rewrite Hp.
Qed.

(** Name lookups see only the elements that carry the name. *)
Lemma plugin_named_ext dc dc' n :
  dc_wf dc -> dc_wf dc' ->
  (forall i p, p_name p = n -> dc_plugins dc' !! i = Some p <-> dc_plugins dc !! i = Some p) ->
  plugin_named dc' n = plugin_named dc n.
Proof.
  intros Hwf Hwf' Hext. apply option_eq. intros i.
  rewrite (plugin_named_Some _ _ _ Hwf), (plugin_named_Some _ _ _ Hwf'). naive_solver.
Qed.

Lemma param_named_ext dc dc' pid n :
  dc_wf dc -> dc_wf dc' ->
  (forall i a, pa_owner a = pid -> a_name (pa_attrs a) = n ->
     dc_params dc' !! i = Some a <-> dc_params dc !! i = Some a) ->
  param_named dc' pid n = param_named dc pid n.
Proof.
  intros Hwf Hwf' Hext. apply option_eq. intros i.
  rewrite (param_named_Some _ _ _ _ Hwf), (param_named_Some _ _ _ _ Hwf'). naive_solver.
Qed.

Lemma abs_params_ext dc dc' pid :
  dc_wf dc -> dc_wf dc' ->
  (forall i a, pa_owner a = pid -> dc_params dc' !! i = Some a <-> dc_params dc !! i = Some a) ->
  abs_params (dc_params dc') pid = abs_params (dc_params dc) pid.
Proof.
  intros Hwf Hwf' Hext. apply map_eq. intros n.
  rewrite (abs_params_lookup _ _ _ Hwf), (abs_params_lookup _ _ _ Hwf').
  rewrite (param_named_ext dc dc') by naive_solver.
  destruct (param_named dc pid n) as [i|] eqn:Ei; cbn [mbind option_bind]; [|done].
  apply (param_named_Some _ _ _ _ Hwf) in Ei as (a & Ha & Ho & _).
  rewrite Ha. by rewrite (proj2 (Hext i a Ho) Ha).
Qed.

(** Replacing a parameter's record by one with the same owner and name,
    or a plugin's by one with the same name, changes no name lookup. *)
Lemma param_named_replace dc id a b pid n :
  dc_wf dc -> dc_wf (set_params (<[id := b]> (dc_params dc)) dc) ->
  dc_params dc !! id = Some a -> pa_owner b = pa_owner a -> a_name (pa_attrs b) = a_name (pa_attrs a) ->
  param_named (set_params (<[id := b]> (dc_params dc)) dc) pid n = param_named dc pid n.
Proof.
  intros Hwf Hwf' Ha Ho Hn. apply option_eq. intros i.
  rewrite (param_named_Some _ _ _ _ Hwf), (param_named_Some _ _ _ _ Hwf'). cbn [dc_params set_params].
  setoid_rewrite lookup_insert_Some. split.
  - intros (c & [[<- <-]|[_ Hc]] & Hco & Hcn); [|eauto]. exists a. rewrite <- Ho, <- Hn. eauto.
  - intros (c & Hc & Hco & Hcn). destruct (decide (id = i)) as [<-|Hne].
    + rewrite Ha in Hc. injection Hc as <-. exists b. rewrite Ho, Hn.
      split; [left; split; reflexivity|done].
    + exists c. eauto.
Qed.

Lemma plugin_named_replace dc id p p' n :
  dc_wf dc -> dc_wf (set_plugins (<[id := p']> (dc_plugins dc)) dc) ->
  dc_plugins dc !! id = Some p -> p_name p' = p_name p ->
  plugin_named (set_plugins (<[id := p']> (dc_plugins dc)) dc) n = plugin_named dc n.
Proof.
  intros Hwf Hwf' Hp Hn. apply option_eq. intros i.
  rewrite (plugin_named_Some _ _ _ Hwf), (plugin_named_Some _ _ _ Hwf'). cbn [dc_plugins set_plugins].
  setoid_rewrite lookup_insert_Some. split.
  - intros (q & [[<- <-]|[_ Hq]] & Hqn); [|eauto]. exists p. rewrite <- Hn. eauto.
  - intros (q & Hq & Hqn). destruct (decide (id = i)) as [<-|Hne].
    + rewrite Hp in Hq. injection Hq as <-. exists p'. rewrite Hn.
      split; [left; split; reflexivity|done].
    + exists q. eauto.
Qed.

Lemma abs_param_of dc id a :
  dc_wf dc -> dc_params dc !! id = Some a ->
  abs_params (dc_params dc) (pa_owner a) !! a_name (pa_attrs a) = Some (aparam a).
Proof.
  intros Hwf Ha. rewrite (abs_params_lookup _ _ _ Hwf).
  rewrite (proj2 (param_named_Some dc (pa_owner a) (a_name (pa_attrs a)) id Hwf)) by eauto.
  simpl. by rewrite Ha.
Qed.

(** The document after a parameter's record is replaced, keeping its
    owner and name. *)
Lemma abs_replace_param dc id a b p :
  dc_wf dc -> dc_wf (set_params (<[id := b]> (dc_params dc)) dc) ->
  dc_params dc !! id = Some a -> pa_owner b = pa_owner a -> a_name (pa_attrs b) = a_name (pa_attrs a) ->
  dc_plugins dc !! pa_owner a = Some p ->
  abs (set_params (<[id := b]> (dc_params dc)) dc) =
  mkADoc (dc_root dc)
    (<[p_name p := mkAPlugin p (<[a_name (pa_attrs a) := aparam b]> (abs_params (dc_params dc) (pa_owner a)))]>
       (ad_plugins (abs dc))).
Proof.
  intros Hwf Hwf' Ha Ho Hn Hp. apply adoc_eq; [done|]. intros k. cbn [ad_plugins].
  rewrite (abs_plugins_lookup _ _ Hwf'), (plugin_named_plugins dc) by done.
  destruct (decide (k = p_name p)) as [->|Hk].
  - rewrite (proj2 (plugin_named_Some dc (p_name p) (pa_owner a) Hwf)) by eauto.
    rewrite lookup_insert_eq. cbn [mbind option_bind set_params dc_plugins]. rewrite Hp. cbn [mbind option_bind].
    do 3 f_equal. apply map_eq. intros n.
    rewrite (abs_params_lookup _ _ _ Hwf'), (param_named_replace _ _ _ _ _ _ Hwf Hwf' Ha Ho Hn).
    destruct (decide (n = a_name (pa_attrs a))) as [->|Hn'].
    + rewrite lookup_insert_eq, (proj2 (param_named_Some dc (pa_owner a) (a_name (pa_attrs a)) id Hwf)) by eauto.
      cbn [mbind option_bind set_params dc_params]. by rewrite lookup_insert_eq.
    + rewrite lookup_insert_ne, (abs_params_lookup _ _ _ Hwf) by done.
      destruct (param_named dc _ n) as [i|] eqn:Ei; cbn [mbind option_bind]; [|done].
      apply (param_named_Some _ _ _ _ Hwf) in Ei as (c & Hc & _ & Hcn).
      cbn [dc_params set_params]. rewrite lookup_insert_ne; [done|]. intros <-. congruence.
  - rewrite lookup_insert_ne by done. rewrite (abs_plugins_lookup _ _ Hwf).
    destruct (plugin_named dc k) as [i|] eqn:Ei; cbn [mbind option_bind]; [|done].
    apply (plugin_named_Some _ _ _ Hwf) in Ei as (q & Hq & Hqn).
    assert (i <> pa_owner a) by (intros ->; congruence).
    cbn [dc_plugins set_params]. rewrite Hq. cbn [mbind option_bind].
    do 2 f_equal. apply (abs_params_ext dc _ i Hwf Hwf'). intros j c Hco. cbn [dc_params set_params].
    rewrite lookup_insert_Some. split; [|intros Hc; right; split; [intros <-; congruence|done]].
    intros [[<- <-]|[_ Hc]]; [congruence|done].
Qed.

(** The document after a plugin's record is replaced, keeping its name. *)
Lemma abs_replace_plugin dc id p p' :
  dc_wf dc -> dc_wf (set_plugins (<[id := p']> (dc_plugins dc)) dc) ->
  dc_plugins dc !! id = Some p -> p_name p' = p_name p ->
  abs (set_plugins (<[id := p']> (dc_plugins dc)) dc) =
  mkADoc (dc_root dc) (<[p_name p := mkAPlugin p' (abs_params (dc_params dc) id)]> (ad_plugins (abs dc))).
Proof.
  intros Hwf Hwf' Hp Hn. apply adoc_eq; [done|]. intros k. cbn [ad_plugins].
  rewrite (abs_plugins_lookup _ _ Hwf'), (plugin_named_replace _ _ _ _ _ Hwf Hwf' Hp Hn).
  destruct (decide (k = p_name p)) as [->|Hk].
  - rewrite (proj2 (plugin_named_Some dc (p_name p) id Hwf)) by eauto.
    rewrite lookup_insert_eq. cbn [mbind option_bind set_plugins dc_plugins dc_params].
    by rewrite lookup_insert_eq.
  - rewrite lookup_insert_ne, (abs_plugins_lookup _ _ Hwf) by done.
    destruct (plugin_named dc k) as [i|] eqn:Ei; cbn [mbind option_bind]; [|done].
    apply (plugin_named_Some _ _ _ Hwf) in Ei as (q & Hq & Hqn).
    cbn [set_plugins dc_plugins dc_params]. rewrite lookup_insert_ne; [by rewrite Hq|]. intros <-. congruence.
Qed.

(** [SetMeta] on a plugin, and on a parameter that keeps its name. *)
Lemma set_meta_plugin_keep dc id p m p' :
  dc_sound dc -> dc_plugins dc !! id = Some p -> set_meta m p = Ok p' ->
  DataContainer_SetMeta id m dc = Ok (set_plugins (<[id := p']> (dc_plugins dc)) dc).
Proof.
  intros Hwf Hp Hm. apply set_meta_Ok. right; left.
  split; [apply (wf_plugin_ids _ Hwf) in Hp; lia|eauto].
Qed.

Lemma set_meta_param_keep dc id a m x :
  dc_wf dc -> dc_params dc !! id = Some a -> set_meta m (pa_attrs a) = Ok x -> a_name x = a_name (pa_attrs a) ->
  DataContainer_SetMeta id m dc = Ok (set_params (<[id := set_attrs x a]> (dc_params dc)) dc).
Proof.
  intros Hwf Ha Hm Hn. unfold DataContainer_SetMeta.
  rewrite (proj2 (Z.eqb_neq id 0)) by (apply (wf_param_ids _ Hwf) in Ha; lia).
  destruct (dc_plugins dc !! id) eqn:Ep; [edestruct (wf_disjoint _ Hwf); eauto|].
  rewrite Ha, Hm. cbn [rbind].
  rewrite Hn, (proj2 (param_named_Some dc (pa_owner a) (a_name (pa_attrs a)) id Hwf)) by eauto.
  simpl. by rewrite Z.eqb_refl.
Qed.

(** What a successful [AddPlugin] and [AddParameter] do to the document. *)
Lemma abs_add_plugin dc n ty kl id dc' :
  dc_wf dc -> DataContainer_AddPlugin (Some n) (Some ty) (Some kl) dc = Ok (id, dc') ->
  plugin_named dc n = None ->
  abs dc' = a_add_plugin n ty kl (abs dc).
Proof.
  intros Hwf E Hfree. pose proof (add_plugin_wf _ _ _ _ _ _ Hwf E Hfree) as Hwf'.
  pose proof (fun k => plugin_named_add _ _ _ _ _ _ k Hwf E Hfree) as Hnm.
  apply add_plugin_Ok in E as (? & ? & ? & [= <-] & [= <-] & [= <-] & _ & -> & ->). unfold a_add_plugin.
  apply adoc_eq; [done|]. intros k. cbn [ad_plugins].
  rewrite (abs_plugins_lookup _ _ Hwf'), Hnm. case_bool_decide as Hk; subst.
  - rewrite lookup_insert_eq. simpl. rewrite lookup_insert_eq. simpl.
    by rewrite (abs_params_fresh _ _ Hwf (proj1 (wf_next_fresh _ Hwf))).
  - rewrite lookup_insert_ne by done. rewrite (abs_plugins_lookup _ _ Hwf).
    destruct (plugin_named dc k) as [i|] eqn:Ei; cbn [mbind option_bind]; [|done].
    apply (plugin_named_Some _ _ _ Hwf) in Ei as (p & Hp & _).
    cbn [dc_plugins dc_params]. rewrite lookup_insert_ne; [done|].
    apply (wf_plugin_ids _ Hwf) in Hp. lia.
Qed.

Lemma abs_add_param dc pid p n ty custom id dc' :
  dc_wf dc -> dc_plugins dc !! pid = Some p ->
  DataContainer_AddParameter pid (Some n) (Some ty) custom dc = Ok (id, dc') ->
  abs dc' = mkADoc (dc_root dc)
    (<[p_name p := mkAPlugin p (<[n := mkAParam (mkParamAttrs n ty (flag_of_int custom) false) None]>
                                  (abs_params (dc_params dc) pid))]> (ad_plugins (abs dc))).
Proof.
  intros Hwf Hp E. pose proof (abs_params_add _ _ _ _ _ _ _ Hwf E) as Hap.
  pose proof (add_parameter_wf _ _ _ _ _ _ _ Hwf E) as Hwf'.
  apply add_parameter_Ok in E as (? & ? & _ & [= <-] & [= <-] & Hne & Hfree & _ & -> & ->).
  apply adoc_eq; [done|]. intros k. cbn [ad_plugins].
  rewrite (abs_plugins_lookup _ _ Hwf'), (plugin_named_plugins dc) by done.
  destruct (decide (k = p_name p)) as [->|Hk].
  - rewrite (proj2 (plugin_named_Some dc (p_name p) pid Hwf)) by eauto.
    rewrite lookup_insert_eq. cbn [mbind option_bind dc_plugins]. rewrite Hp. cbn [mbind option_bind].
    rewrite Hap, bool_decide_eq_true_2 by done. done.
  - rewrite lookup_insert_ne by done. rewrite (abs_plugins_lookup _ _ Hwf).
    destruct (plugin_named dc k) as [i|] eqn:Ei; cbn [mbind option_bind dc_plugins]; [|done].
    apply (plugin_named_Some _ _ _ Hwf) in Ei as (q & Hq & Hn). rewrite Hq. cbn [mbind option_bind].
    rewrite Hap, bool_decide_eq_false_2; [done|]. intros ->. congruence.
Qed.

(** ** Refinement *)

(** C21: Adding a plugin under a name the document does not hold, as the
    caller must ensure (header line 362): the container's call, seen
    through [abs], is the abstract insertion of a new plugin without
    parameters, and it fails only when the ids are used up. *)
Theorem add_plugin_refines dc n ty kl :
  dc_wf dc -> ad_plugins (abs dc) !! n = None ->
  rmap (fun r => abs r.2) (DataContainer_AddPlugin (Some n) (Some ty) (Some kl) dc) =
  if dc_next dc <=? u32_max then Ok (a_add_plugin n ty kl (abs dc)) else Err IdsExhausted.
Proof.
  intros Hwf Hn. apply (abs_plugins_None _ _ Hwf) in Hn.
  destruct (Z.leb_spec (dc_next dc) u32_max) as [Hmax|Hmax].
  - assert (E : DataContainer_AddPlugin (Some n) (Some ty) (Some kl) dc =
      Ok (dc_next dc, mkDC (dc_root dc) (<[dc_next dc := mkPluginAttrs n ty kl None]> (dc_plugins dc))
                        (dc_params dc) (dc_next dc + 1))) by (apply add_plugin_Ok; eauto 10).
    rewrite E. cbn [rmap snd]. by rewrite (abs_add_plugin _ _ _ _ _ _ Hwf E Hn).
  - unfold DataContainer_AddPlugin, alloc_id. cbn [of_option rbind].
    by rewrite (proj2 (Z.leb_gt _ _) Hmax).
Qed.

(** C22: Adding a parameter to plugin [pid] is the abstract insertion under
    the plugin's name, failures included. *)
Theorem add_parameter_refines dc pid p n ty custom :
  dc_wf dc -> dc_next dc <= u32_max -> dc_plugins dc !! pid = Some p ->
  rmap (fun r => abs r.2) (DataContainer_AddParameter pid (Some n) (Some ty) custom dc) =
  a_add_param (p_name p) n ty (flag_of_int custom) (abs dc).
Proof.
  intros Hwf Hmax Hp. unfold a_add_param. rewrite (abs_plugin_of _ _ _ Hwf Hp). cbn [of_option rbind apl_params apl_attrs].
  destruct (DataContainer_AddParameter _ _ _ _ dc) as [[id dc']|e] eqn:E; cbn [rmap].
  - pose proof (abs_add_param _ _ _ _ _ _ _ _ Hwf Hp E) as Habs.
    apply add_parameter_Ok in E as (? & ? & _ & [= <-] & [= <-] & Hne & Hfree & _).
    rewrite <- (abs_params_None _ _ _ Hwf) in Hfree.
    rewrite !bool_decide_eq_true_2 by done. cbn [ensure rbind snd]. by rewrite Habs.
  - revert E. unfold DataContainer_AddParameter, alloc_id.
    rewrite bool_decide_eq_true_2 by eauto. cbn [of_option rbind ensure].
    pose proof (abs_params_None dc pid n Hwf) as Hn.
    do 3 case_bool_decide; cbn [ensure rbind]; try tauto; try congruence.
    destruct (Z.leb_spec (dc_next dc) u32_max); [discriminate|lia].
Qed.

(** C23: Removing a plugin drops it, with its parameters, from the document
    by names. *)
Theorem remove_plugin_refines dc id p :
  dc_wf dc -> dc_plugins dc !! id = Some p ->
  rmap abs (DataContainer_RemoveElement id dc) = Ok (a_remove_plugin (p_name p) (abs dc)).
Proof.
  intros Hwf Hp. assert (id <> 0) by (apply (wf_plugin_ids _ Hwf) in Hp; lia).
  assert (E : DataContainer_RemoveElement id dc =
    Ok (mkDC (dc_root dc) (delete id (dc_plugins dc))
          (filter (fun ia => pa_owner ia.2 <> id) (dc_params dc)) (dc_next dc)))
    by (apply remove_Ok; eauto).
  pose proof (remove_wf _ _ _ Hwf E) as Hwf'. rewrite E. cbn [rmap].
  f_equal. apply adoc_eq; [done|]. intros k. cbn [ad_plugins a_remove_plugin a_remove_param].
  rewrite (abs_plugins_lookup _ _ Hwf').
  destruct (decide (k = p_name p)) as [->|Hk].
  - rewrite lookup_delete_eq. replace (plugin_named _ _) with (@None Z); [done|].
    symmetry. apply plugin_named_None. intros i q. cbn [dc_plugins].
    rewrite lookup_delete_Some. intros [Hi Hq] Hn. apply Hi.
    eapply (wf_plugin_names _ Hwf); eauto.
  - rewrite lookup_delete_ne by done. rewrite (abs_plugins_lookup _ _ Hwf).
    rewrite (plugin_named_ext dc _ _ Hwf Hwf'); cycle 1.
    { intros i q Hn. cbn [dc_plugins]. rewrite lookup_delete_Some.
      split; [naive_solver|]. intros Hq. split; [|done]. intros <-. congruence. }
    destruct (plugin_named dc k) as [i|] eqn:Ei; cbn [mbind option_bind]; [|done].
    apply (plugin_named_Some _ _ _ Hwf) in Ei as (q & Hq & Hn).
    assert (i <> id) by (intros ->; congruence).
    cbn [dc_plugins]. rewrite lookup_delete_ne by done. rewrite Hq. cbn [mbind option_bind].
    do 2 f_equal. apply (abs_params_ext dc _ i Hwf Hwf'). intros j a Ho. cbn [dc_params].
    rewrite map_lookup_filter_Some. simpl. naive_solver.
Qed.

(** C24: Removing a parameter drops it from its plugin's parameters and
    changes nothing else of the document by names. *)
Theorem remove_param_refines dc id a p :
  dc_wf dc -> dc_params dc !! id = Some a -> dc_plugins dc !! pa_owner a = Some p ->
  rmap abs (DataContainer_RemoveElement id dc) =
  Ok (a_remove_param (p_name p) (a_name (pa_attrs a)) (abs dc)).
Proof.
  intros Hwf Ha Hp. assert (id <> 0) by (apply (wf_param_ids _ Hwf) in Ha; lia).
  assert (Hnp : dc_plugins dc !! id = None).
  { destruct (dc_plugins dc !! id) eqn:Ei; [|done]. edestruct (wf_disjoint _ Hwf); eauto. }
  assert (E : DataContainer_RemoveElement id dc = Ok (set_params (delete id (dc_params dc)) dc))
    by (apply remove_Ok; eauto 10).
  pose proof (remove_wf _ _ _ Hwf E) as Hwf'. rewrite E. cbn [rmap].
  f_equal. apply adoc_eq; [done|]. intros k. cbn [ad_plugins a_remove_plugin a_remove_param].
  rewrite (abs_plugins_lookup _ _ Hwf'), (plugin_named_plugins dc) by done.
  destruct (decide (k = p_name p)) as [->|Hk].
  - rewrite (proj2 (plugin_named_Some dc (p_name p) (pa_owner a) Hwf)) by eauto.
    rewrite lookup_alter_eq, (abs_plugin_of _ _ _ Hwf Hp). cbn [mbind option_bind set_params dc_plugins].
    rewrite Hp. cbn [mbind option_bind fmap option_fmap option_map apl_attrs apl_params].
    do 3 f_equal. apply map_eq. intros n. rewrite (abs_params_lookup _ _ _ Hwf').
    destruct (decide (n = a_name (pa_attrs a))) as [->|Hn].
    + rewrite lookup_delete_eq. replace (param_named _ _ _) with (@None Z); [done|].
      symmetry. apply param_named_None. intros i b. cbn [dc_params set_params].
      rewrite lookup_delete_Some. intros [Hi Hb] Ho Hn. apply Hi.
      eapply (wf_param_names _ Hwf); eauto.
    + rewrite lookup_delete_ne, (abs_params_lookup _ _ _ Hwf) by done.
      rewrite (param_named_ext dc _ _ _ Hwf Hwf'); cycle 1.
      { intros i b Ho Hn'. cbn [dc_params set_params]. rewrite lookup_delete_Some.
        split; [naive_solver|]. intros Hb. split; [|done]. intros <-. congruence. }
      destruct (param_named dc _ n) as [i|] eqn:Ei; cbn [mbind option_bind]; [|done].
      apply (param_named_Some _ _ _ _ Hwf) in Ei as (b & Hb & _ & Hbn).
      cbn [dc_params set_params]. rewrite lookup_delete_ne; [done|]. intros ->. congruence.
  - rewrite lookup_alter_ne by done. rewrite (abs_plugins_lookup _ _ Hwf).
    destruct (plugin_named dc k) as [i|] eqn:Ei; cbn [mbind option_bind]; [|done].
    apply (plugin_named_Some _ _ _ Hwf) in Ei as (q & Hq & Hn).
    assert (i <> pa_owner a) by (intros ->; congruence).
    cbn [dc_plugins set_params]. rewrite Hq. cbn [mbind option_bind].
    do 2 f_equal. apply (abs_params_ext dc _ i Hwf Hwf'). intros j b Ho. cbn [dc_params set_params].
    rewrite lookup_delete_Some. split; [naive_solver|]. intros Hb. split; [|done]. intros <-. congruence.
Qed.

(** C25: Setting a value: the container validates it as [make_value] does and
    the document's parameter takes it; on failure neither changes. *)
Theorem set_value_refines dc id a p data type listLength :
  dc_wf dc -> dc_params dc !! id = Some a -> dc_plugins dc !! pa_owner a = Some p ->
  rmap abs (DataContainer_SetValue id data type listLength dc) =
  rmap (fun v => a_set_value (p_name p) (a_name (pa_attrs a)) v (abs dc))
    (make_value data type listLength).
Proof.
  intros Hwf Ha Hp. unfold DataContainer_SetValue. rewrite Ha. cbn [of_option rbind].
  destruct (make_value data type listLength) as [v|e] eqn:Hv; cbn [rbind rmap]; [|done].
  assert (E : DataContainer_SetValue id data type listLength dc =
    Ok (set_params (<[id := set_value (Some v) a]> (dc_params dc)) dc))
    by (unfold DataContainer_SetValue; by rewrite Ha, Hv).
  pose proof (set_value_wf _ _ _ _ _ _ Hwf E) as Hwf'.
  f_equal. rewrite (abs_replace_param _ _ _ _ _ Hwf Hwf' Ha eq_refl eq_refl Hp).
  unfold a_set_value. rewrite (alter_lookup_insert _ _ _ _ (abs_plugin_of _ _ _ Hwf Hp)).
  cbn [apl_attrs apl_params]. do 4 f_equal. symmetry.
  by rewrite (alter_lookup_insert _ _ _ _ (abs_param_of _ _ _ Hwf Ha)).
Qed.

(** ** Witnesses, on the container with plugin 1 ["Foo"] and its parameter 2 ["diffuse"] *)

Lemma add_plugin_refines_witness :
  rmap (fun r => abs r.2)
    (DataContainer_AddPlugin (Some "Bar"%string) (Some "TexBitmap"%string) (Some "bitmap"%string) ex_dc2) =
  Ok (a_add_plugin "Bar" "TexBitmap" "bitmap" (abs ex_dc2)).
Proof. apply add_plugin_refines; [exact ex_dc2_wf|vm_compute; reflexivity]. Defined.

Lemma add_parameter_refines_witness :
  rmap (fun r => abs r.2)
    (DataContainer_AddParameter 1 (Some "reflect"%string) (Some "color"%string) 0 ex_dc2) =
  a_add_param (p_name ex_plugin) "reflect" "color" (flag_of_int 0) (abs ex_dc2).
Proof.
  apply add_parameter_refines; [exact ex_dc2_wf|simpl; rewrite u32_max_val; lia|reflexivity].
Defined.

Lemma remove_plugin_refines_witness :
  rmap abs (DataContainer_RemoveElement 1 ex_dc2) = Ok (a_remove_plugin (p_name ex_plugin) (abs ex_dc2)).
Proof. apply remove_plugin_refines; [exact ex_dc2_wf|reflexivity]. Defined.

Lemma remove_param_refines_witness :
  rmap abs (DataContainer_RemoveElement 2 ex_dc2) =
  Ok (a_remove_param (p_name ex_plugin) (a_name (pa_attrs ex_param)) (abs ex_dc2)).
Proof. apply remove_param_refines; [exact ex_dc2_wf|reflexivity|reflexivity]. Defined.

Lemma set_value_refines_witness :
  rmap abs (DataContainer_SetValue 2 (RawWords [1; 2; 3])
              (type_word (mkTypeDesc Rdt_Float Stdt_Array3 Sqdt_Single)) 0 ex_dc2) =
  rmap (fun v => a_set_value (p_name ex_plugin) (a_name (pa_attrs ex_param)) v (abs ex_dc2))
    (make_value (RawWords [1; 2; 3]) (type_word (mkTypeDesc Rdt_Float Stdt_Array3 Sqdt_Single)) 0).
Proof. apply set_value_refines; [exact ex_dc2_wf|reflexivity|reflexivity]. Defined.

End Doc.
