(* ===== verification/Xml.v ===== *)
(** * XML trees and the text of numbers and token lists *)

From Stdlib Require Import ZArith Lia Ascii String DecimalString DecimalZ.
From stdpp Require Import base decidable option list.
From S2P Require Import Prelude.

Open Scope Z_scope.

Module Xml.

Inductive Xml :=
  | XElem (tag : string) (attrs : list (string * string)) (kids : list Xml)
  | XText (text : string).

(** The value bound to [k]: the first binding of that name. *)
Fixpoint assoc {A} (k : string) (l : list (string * A)) : option A :=
  match l with
  | [] => None
  | (k', v) :: l' => if String.eqb k k' then Some v else assoc k l'
  end.

(** The value of attribute [k] of an element. *)
Definition attr (k : string) (l : list (string * string)) : option string := assoc k l.

(** ** Numbers as decimal text *)

Definition z_text (z : Z) : string := NilZero.string_of_int (Z.to_int z).
Definition z_of_text (s : string) : option Z := Z.of_int <$> NilZero.int_of_string s.

(** ** Lists of tokens separated by single spaces *)

Definition space : ascii := " "%char.

Definition token_ok (t : string) : bool :=
  negb (String.eqb t EmptyString) &&
  forallb (fun c => negb (Ascii.eqb c space)) (list_ascii_of_string t).

Fixpoint unwords_l (ts : list string) : list ascii :=
  match ts with
  | [] => []
  | [t] => list_ascii_of_string t
  | t :: ts' => list_ascii_of_string t ++ space :: unwords_l ts'
  end.

Definition unwords (ts : list string) : string := string_of_list_ascii (unwords_l ts).

(** Splitting at spaces, [acc] the current token reversed; runs of
    spaces and leading or trailing spaces make no empty token. *)
Fixpoint words_go (l : list ascii) (acc : list ascii) : list string :=
  match l with
  | [] => match acc with [] => [] | _ => [string_of_list_ascii (rev acc)] end
  | c :: l' =>
      if Ascii.eqb c space then
        match acc with
        | [] => words_go l' []
        | _ => string_of_list_ascii (rev acc) :: words_go l' []
        end
      else words_go l' (c :: acc)
  end.

Definition words (s : string) : list string := words_go (list_ascii_of_string s) [].

(** ** Lemmas *)

Lemma z_of_text_z_text z : z_of_text (z_text z) = Some z.
Proof.
  unfold z_of_text, z_text. rewrite <- (DecimalZ.of_to z) at 2.
  destruct (Z.to_int z) as [d|d] eqn:E.
  - destruct d; try (rewrite NilZero.isi by discriminate; reflexivity). reflexivity.
  - destruct d; try (rewrite NilZero.isi by discriminate; reflexivity). reflexivity.
Qed.

Lemma uint_text_no_space d :
  forallb (fun c => negb (Ascii.eqb c space)) (list_ascii_of_string (NilEmpty.string_of_uint d)) = true.
Proof. induction d; simpl; auto. Qed.

Lemma z_text_token z : token_ok (z_text z) = true.
Proof.
  unfold token_ok, z_text, NilZero.string_of_int, NilZero.string_of_uint.
  destruct (Z.to_int z) as [d|d]; destruct d; simpl; rewrite ?uint_text_no_space; reflexivity.
Qed.

Lemma words_go_app l rest acc :
  forallb (fun c => negb (Ascii.eqb c space)) l = true ->
  words_go (l ++ rest) acc = words_go rest (rev l ++ acc).
Proof.
  revert acc. induction l as [|c l IH]; intros acc Hl; [done|].
  simpl in Hl. apply andb_true_iff in Hl as [Hc Hl].
  simpl. destruct (Ascii.eqb c space); [done|].
  rewrite IH by done. by rewrite <- app_assoc.
Qed.

Lemma words_go_token t rest :
  token_ok t = true ->
  words_go (list_ascii_of_string t ++ rest) [] =
  match rest with
  | [] => [t]
  | c :: rest' => if Ascii.eqb c space then t :: words_go rest' [] else words_go rest' (c :: rev (list_ascii_of_string t))
  end.
Proof.
  intros [Hne Hsp]%andb_true_iff. rewrite words_go_app by done. rewrite app_nil_r.
  assert (Hnil : rev (list_ascii_of_string t) <> []).
  { destruct t; [done|]. simpl. intros H. by apply app_eq_nil in H as [_ ?]. }
  destruct rest as [|c rest]; simpl.
  - destruct (rev _) eqn:E; [done|]. rewrite <- E, rev_involutive.
    by rewrite string_of_list_ascii_of_string.
  - destruct (Ascii.eqb c space); [|done].
    destruct (rev _) eqn:E; [done|]. rewrite <- E, rev_involutive.
    by rewrite string_of_list_ascii_of_string.
Qed.

(** Tokens joined by spaces split back into the same tokens. *)
Lemma words_unwords ts : Forall (fun t => token_ok t = true) ts -> words (unwords ts) = ts.
Proof.
  unfold words, unwords. rewrite list_ascii_of_string_of_list_ascii.
  induction 1 as [|t ts Ht Hts IH]; [done|].
  destruct ts as [|t' ts'].
  - simpl. rewrite <- (app_nil_r (list_ascii_of_string t)). by rewrite words_go_token.
  - change (unwords_l (t :: t' :: ts')) with (list_ascii_of_string t ++ space :: unwords_l (t' :: ts')).
    rewrite words_go_token by done. simpl Ascii.eqb. by rewrite IH.
Qed.

End Xml.
