(* ===== verification/XmlText.v ===== *)
(** * XML as text: the bytes [DataContainer_Save] writes and
      [DataContainer_Load] reads

    The layer under the XML trees of [Xml]: a printer ([print]) that
    writes an element with its attributes double-quoted and every text
    escaped ([&amp;], [&lt;], [&gt;], [&quot;]), and a reader in two
    passes, both structural recursions: a lexer ([lex]), a character at
    a time through the states of a tag, an attribute and a text, turning
    the bytes into open-tag, close-tag and text tokens with the entities
    decoded; and a builder ([build]) that matches the tags on a stack of
    open elements.  Only the subset of XML the documents need is read:
    no declarations, comments, CDATA or self-closing tags, and every
    character between tags is text.  [DataContainer_Load_text] is the
    exported call on its [buffer] and [length] arguments. *)

From Stdlib Require Import ZArith Lia Ascii String.
From stdpp Require Import base decidable option list.
From S2P Require Import Prelude Xml.
Import Xml.

Open Scope Z_scope.

Module XmlText.

Local Open Scope string_scope.
Local Open Scope char_scope.

(** Appending to a string that starts with a character computes. *)
#[local] Arguments String.append : simpl nomatch.

(** ** Characters *)

Definition quote : ascii := "034".

(** The characters that end a name. *)
Definition special (c : ascii) : bool :=
  existsb (Ascii.eqb c) [" "; "<"; ">"; "="; "/"; "&"; quote; ";"].

(** A tag or attribute name: nonempty, no special character. *)
Fixpoint name_chars (s : string) : bool :=
  match s with
  | EmptyString => true
  | String c s' => negb (special c) && name_chars s'
  end.

Definition name_ok (s : string) : bool := negb (String.eqb s "") && name_chars s.

(** [s] followed by one character. *)
Definition snoc (s : string) (c : ascii) : string := s ++ String c EmptyString.

(** ** Printing *)

Definition esc_char (c : ascii) : string :=
  if Ascii.eqb c "&" then "&amp;"
  else if Ascii.eqb c "<" then "&lt;"
  else if Ascii.eqb c ">" then "&gt;"
  else if Ascii.eqb c quote then "&quot;"
  else String c EmptyString.

Fixpoint escape (s : string) : string :=
  match s with
  | EmptyString => EmptyString
  | String c s' => esc_char c ++ escape s'
  end.

(** The entities the reader decodes. *)
Definition entity (e : string) : option ascii :=
  if String.eqb e "amp" then Some "&"
  else if String.eqb e "lt" then Some "<"
  else if String.eqb e "gt" then Some ">"
  else if String.eqb e "quot" then Some quote
  else if String.eqb e "apos" then Some "'"
  else None.

Definition print_attr (kv : string * string) : string :=
  " " ++ kv.1 ++ "=" ++ String quote (escape kv.2 ++ String quote EmptyString).

Fixpoint print_attrs (l : list (string * string)) : string :=
  match l with
  | [] => EmptyString
  | kv :: l' => print_attr kv ++ print_attrs l'
  end.

Fixpoint print (x : Xml) : string :=
  match x with
  | XText s => escape s
  | XElem t a ks =>
      "<" ++ t ++ print_attrs a ++ ">" ++
      (fix go (ks : list Xml) : string :=
         match ks with [] => EmptyString | k :: ks' => print k ++ go ks' end) ks ++
      "</" ++ t ++ ">"
  end.

Fixpoint print_kids (ks : list Xml) : string :=
  match ks with [] => EmptyString | k :: ks' => print k ++ print_kids ks' end.

(** ** Lexing *)

Inductive Tok :=
  | TOpen (tag : string) (attrs : list (string * string))
  | TClose (tag : string)
  | TText (s : string).

Inductive LState :=
  | LText (acc : string)
  | LTextEnt (acc ent : string)
  | LOpen
  | LName (tag : string)
  | LCloseName (tag : string)
  | LAttrs (tag : string) (attrs : list (string * string))
  | LAttrName (tag : string) (attrs : list (string * string)) (key : string)
  | LAttrEq (tag : string) (attrs : list (string * string)) (key : string)
  | LAttrVal (tag : string) (attrs : list (string * string)) (key val : string)
  | LAttrValEnt (tag : string) (attrs : list (string * string)) (key val ent : string).

(** A pending text becomes a token when a tag starts; an empty one is
    no token. *)
Definition flush (acc : string) (toks : list Tok) : list Tok :=
  if String.eqb acc "" then toks else TText acc :: toks.

(** One character; the tokens so far are kept last first. *)
Definition step (st : LState) (toks : list Tok) (c : ascii) : option (LState * list Tok) :=
  match st with
  | LText acc =>
      if Ascii.eqb c "<" then Some (LOpen, flush acc toks)
      else if Ascii.eqb c "&" then Some (LTextEnt acc "", toks)
      else Some (LText (snoc acc c), toks)
  | LTextEnt acc e =>
      if Ascii.eqb c ";" then d ← entity e; Some (LText (snoc acc d), toks)
      else Some (LTextEnt acc (snoc e c), toks)
  | LOpen =>
      if Ascii.eqb c "/" then Some (LCloseName "", toks)
      else if special c then None
      else Some (LName (String c EmptyString), toks)
  | LName t =>
      if Ascii.eqb c ">" then Some (LText "", TOpen t [] :: toks)
      else if Ascii.eqb c " " then Some (LAttrName t [] "", toks)
      else if special c then None
      else Some (LName (snoc t c), toks)
  | LCloseName t =>
      if Ascii.eqb c ">" then (if String.eqb t "" then None else Some (LText "", TClose t :: toks))
      else if special c then None
      else Some (LCloseName (snoc t c), toks)
  | LAttrs t a =>
      if Ascii.eqb c ">" then Some (LText "", TOpen t a :: toks)
      else if Ascii.eqb c " " then Some (LAttrName t a "", toks)
      else None
  | LAttrName t a k =>
      if Ascii.eqb c "=" then (if String.eqb k "" then None else Some (LAttrEq t a k, toks))
      else if special c then None
      else Some (LAttrName t a (snoc k c), toks)
  | LAttrEq t a k =>
      if Ascii.eqb c quote then Some (LAttrVal t a k "", toks) else None
  | LAttrVal t a k v =>
      if Ascii.eqb c quote then Some (LAttrs t (a ++ [(k, v)]), toks)
      else if Ascii.eqb c "&" then Some (LAttrValEnt t a k v "", toks)
      else if Ascii.eqb c "<" then None
      else Some (LAttrVal t a k (snoc v c), toks)
  | LAttrValEnt t a k v e =>
      if Ascii.eqb c ";" then d ← entity e; Some (LAttrVal t a k (snoc v d), toks)
      else Some (LAttrValEnt t a k v (snoc e c), toks)
  end.

Fixpoint lex_go (st : LState) (toks : list Tok) (s : string) : option (list Tok) :=
  match s with
  | EmptyString =>
      match st with LText acc => Some (rev (flush acc toks)) | _ => None end
  | String c s' =>
      match step st toks c with
      | Some (st', toks') => lex_go st' toks' s'
      | None => None
      end
  end.

Definition lex (s : string) : option (list Tok) := lex_go (LText "") [] s.

(** ** Building the tree *)

(** An open element: its tag, attributes and the children read so far,
    last first. *)
Definition Frame : Type := string * list (string * string) * list Xml.

(** The finished element goes to its parent, or is the document. *)
Definition close_into (e : Xml) (fr : list Frame) (res : option Xml) : option (list Frame * option Xml) :=
  match fr with
  | [] => match res with None => Some ([], Some e) | Some _ => None end
  | (t, a, ks) :: fr' => Some ((t, a, e :: ks) :: fr', res)
  end.

Fixpoint build_go (fr : list Frame) (res : option Xml) (ts : list Tok) : option Xml :=
  match ts with
  | [] => match fr with [] => res | _ => None end
  | TOpen t a :: ts' =>
      match res with Some _ => None | None => build_go ((t, a, []) :: fr) None ts' end
  | TText s :: ts' =>
      match fr with
      | (t, a, ks) :: fr' => build_go ((t, a, XText s :: ks) :: fr') res ts'
      | [] => None
      end
  | TClose t :: ts' =>
      match fr with
      | (t', a, ks) :: fr' =>
          if String.eqb t t' then
            match close_into (XElem t' a (rev ks)) fr' res with
            | Some (fr'', res') => build_go fr'' res' ts'
            | None => None
            end
          else None
      | [] => None
      end
  end.

Definition build (ts : list Tok) : option Xml := build_go [] None ts.

(** The document a text holds: one element. *)
Definition parse_text (s : string) : option Xml := ts ← lex s; build ts.

(** ** Well-formed trees and their tokens *)

(** No two texts side by side: the reader would see one text. *)
Fixpoint no_adj_text (ks : list Xml) : bool :=
  match ks with
  | XText _ :: ((XText _ :: _) as ks') => false
  | _ :: ks' => no_adj_text ks'
  | [] => true
  end.

(** What printing keeps: names of tags and attribute keys, nonempty
    texts never side by side. *)
Fixpoint xml_wf (x : Xml) : bool :=
  match x with
  | XText s => negb (String.eqb s "")
  | XElem t a ks =>
      name_ok t && forallb (fun kv => name_ok kv.1) a && no_adj_text ks &&
      (fix go (ks : list Xml) : bool := match ks with [] => true | k :: ks' => xml_wf k && go ks' end) ks
  end.

Fixpoint tokens_of (x : Xml) : list Tok :=
  match x with
  | XText s => [TText s]
  | XElem t a ks =>
      TOpen t a :: app ((fix go (ks : list Xml) : list Tok :=
                      match ks with [] => [] | k :: ks' => app (tokens_of k) (go ks') end) ks) [TClose t]
  end.

Fixpoint kids_tokens (ks : list Xml) : list Tok :=
  match ks with [] => [] | k :: ks' => app (tokens_of k) (kids_tokens ks') end.

(** Induction over trees with a hypothesis for every child. *)
Definition Xml_ind' (P : Xml -> Prop) (Ht : forall s, P (XText s))
    (He : forall t a ks, Forall P ks -> P (XElem t a ks)) : forall x, P x :=
  fix IH (x : Xml) : P x :=
    match x with
    | XText s => Ht s
    | XElem t a ks =>
        He t a ks ((fix go (ks : list Xml) : Forall P ks :=
                      match ks as l return Forall P l with
                      | [] => @List.Forall_nil Xml P
                      | k :: ks' => @List.Forall_cons Xml P k ks' (IH k) (go ks')
                      end) ks)
    end.

(** The lexer's steps over a string, without the end of input. *)
Fixpoint run_go (st : LState) (toks : list Tok) (s : string) : option (LState * list Tok) :=
  match s with
  | EmptyString => Some (st, toks)
  | String c s' => p ← step st toks c; run_go p.1 p.2 s'
  end.

Definition finish (p : LState * list Tok) : option (list Tok) :=
  match p.1 with LText acc => Some (rev (flush acc p.2)) | _ => None end.

(** ** Lemmas on strings *)

Lemma string_app_assoc (s1 s2 s3 : string) : (s1 ++ s2) ++ s3 = s1 ++ (s2 ++ s3).
Proof. induction s1 as [|c s1 IH]; simpl; [done|by rewrite IH]. Qed.

Lemma string_app_nil_r (s : string) : s ++ "" = s.
Proof. induction s as [|c s IH]; simpl; [done|by rewrite IH]. Qed.

Lemma snoc_app s c r : snoc s c ++ r = s ++ String c r.
Proof. unfold snoc. by rewrite string_app_assoc. Qed.

Lemma print_elem t a ks :
  print (XElem t a ks) = ("<" ++ t ++ print_attrs a ++ ">") ++ (print_kids ks ++ "<") ++ ("/" ++ t ++ ">").
Proof.
  change (print (XElem t a ks)) with ("<" ++ t ++ print_attrs a ++ ">" ++ print_kids ks ++ "</" ++ t ++ ">").
  rewrite !string_app_assoc. reflexivity.
Qed.

Lemma xml_wf_elem t a ks :
  xml_wf (XElem t a ks) = true <->
  name_ok t = true /\ forallb (fun kv => name_ok kv.1) a = true /\ no_adj_text ks = true /\
  Forall (fun k => xml_wf k = true) ks.
Proof.
  cbn [xml_wf]. rewrite !andb_true_iff. enough (Hk : (fix go (ks : list Xml) : bool :=
    match ks with [] => true | k :: ks' => xml_wf k && go ks' end) ks = true <-> Forall (fun k => xml_wf k = true) ks)
    by (rewrite Hk; tauto).
  induction ks as [|k ks IH]; [split; auto|]. rewrite andb_true_iff, Forall_cons, IH. done.
Qed.

Lemma tokens_of_elem t a ks : tokens_of (XElem t a ks) = TOpen t a :: app (kids_tokens ks) [TClose t].
Proof. done. Qed.

(** ** Lemmas on the lexer *)

Lemma run_go_app st toks s1 s2 :
  run_go st toks (s1 ++ s2) = p ← run_go st toks s1; run_go p.1 p.2 s2.
Proof.
  revert st toks. induction s1 as [|c s1 IH]; intros st toks; simpl; [done|].
  destruct (step st toks c) as [[st' toks']|]; simpl; [apply IH|done].
Qed.

Lemma lex_go_run st toks s : lex_go st toks s = p ← run_go st toks s; finish p.
Proof.
  revert st toks. induction s as [|c s IH]; intros st toks; simpl; [by destruct st|].
  destruct (step st toks c) as [[st' toks']|]; simpl; [apply IH|done].
Qed.

Lemma special_eq c : special c = false ->
  c <> " " /\ c <> "<" /\ c <> ">" /\ c <> "=" /\ c <> "/" /\ c <> "&" /\ c <> quote /\ c <> ";".
Proof.
  intros H. split_and!; intros ->; cbv in H; discriminate.
Qed.

(** An escaped character read in a text or an attribute value is the
    character. *)
Lemma esc_char_text acc toks c : run_go (LText acc) toks (esc_char c) = Some (LText (snoc acc c), toks).
Proof.
  unfold esc_char. destruct (Ascii.eqb_spec c "&") as [->|H1]; [reflexivity|].
  destruct (Ascii.eqb_spec c "<") as [->|H2]; [reflexivity|].
  destruct (Ascii.eqb_spec c ">") as [->|H3]; [reflexivity|].
  destruct (Ascii.eqb_spec c quote) as [->|H4]; [reflexivity|].
  cbn [run_go step]. destruct (Ascii.eqb_spec c "<"); [done|]. destruct (Ascii.eqb_spec c "&"); [done|].
  reflexivity.
Qed.

Lemma esc_char_attr t a k v toks c :
  run_go (LAttrVal t a k v) toks (esc_char c) = Some (LAttrVal t a k (snoc v c), toks).
Proof.
  unfold esc_char. destruct (Ascii.eqb_spec c "&") as [->|H1]; [reflexivity|].
  destruct (Ascii.eqb_spec c "<") as [->|H2]; [reflexivity|].
  destruct (Ascii.eqb_spec c ">") as [->|H3]; [reflexivity|].
  destruct (Ascii.eqb_spec c quote) as [->|H4]; [reflexivity|].
  cbn [run_go step]. destruct (Ascii.eqb_spec c quote); [done|]. destruct (Ascii.eqb_spec c "&"); [done|].
  destruct (Ascii.eqb_spec c "<"); [done|]. reflexivity.
Qed.

Lemma escape_text acc toks s : run_go (LText acc) toks (escape s) = Some (LText (acc ++ s), toks).
Proof.
  revert acc. induction s as [|c s IH]; intros acc; simpl; [by rewrite string_app_nil_r|].
  rewrite run_go_app, esc_char_text. simpl. by rewrite IH, snoc_app.
Qed.

Lemma escape_attr t a k v toks s :
  run_go (LAttrVal t a k v) toks (escape s) = Some (LAttrVal t a k (v ++ s), toks).
Proof.
  revert v. induction s as [|c s IH]; intros v; simpl; [by rewrite string_app_nil_r|].
  rewrite run_go_app, esc_char_attr. simpl. by rewrite IH, snoc_app.
Qed.

(** A name is read a character at a time, in any of the three name
    states. *)
Lemma name_run (f : string -> LState) toks :
  (forall x c, special c = false -> step (f x) toks c = Some (f (snoc x c), toks)) ->
  forall n x, name_chars n = true -> run_go (f x) toks n = Some (f (x ++ n), toks).
Proof.
  intros Hf n. induction n as [|c n IH]; intros x Hn; simpl; [by rewrite string_app_nil_r|].
  apply andb_true_iff in Hn as [Hc%negb_true_iff Hn]. rewrite Hf by done. simpl.
  by rewrite IH, snoc_app.
Qed.

Lemma step_name t toks c : special c = false -> step (LName t) toks c = Some (LName (snoc t c), toks).
Proof.
  intros Hc. destruct (special_eq c Hc) as (H1 & _ & H3 & _). cbn [step].
  destruct (Ascii.eqb_spec c ">"); [done|]. destruct (Ascii.eqb_spec c " "); [done|]. by rewrite Hc.
Qed.

Lemma step_close_name t toks c : special c = false -> step (LCloseName t) toks c = Some (LCloseName (snoc t c), toks).
Proof.
  intros Hc. destruct (special_eq c Hc) as (_ & _ & H3 & _). cbn [step].
  destruct (Ascii.eqb_spec c ">"); [done|]. by rewrite Hc.
Qed.

Lemma step_attr_name t a k toks c :
  special c = false -> step (LAttrName t a k) toks c = Some (LAttrName t a (snoc k c), toks).
Proof.
  intros Hc. destruct (special_eq c Hc) as (_ & _ & _ & H4 & _). cbn [step].
  destruct (Ascii.eqb_spec c "="); [done|]. by rewrite Hc.
Qed.

Lemma print_attr_run t a toks k v :
  name_ok k = true -> run_go (LAttrs t a) toks (print_attr (k, v)) = Some (LAttrs t (app a [(k, v)]), toks).
Proof.
  intros [Hne%negb_true_iff Hk]%andb_true_iff. unfold print_attr. cbn [fst snd]. simpl.
  rewrite run_go_app, (name_run (LAttrName t a) toks (fun x c => step_attr_name t a x toks c) k "" Hk). simpl.
  rewrite Hne. simpl. rewrite run_go_app, escape_attr. reflexivity.
Qed.

Lemma print_attrs_run t a toks l :
  forallb (fun kv => name_ok kv.1) l = true ->
  run_go (LAttrs t a) toks (print_attrs l) = Some (LAttrs t (app a l), toks).
Proof.
  revert a. induction l as [|[k v] l IH]; intros a Hl; cbn [print_attrs]; [simpl; by rewrite app_nil_r|].
  apply andb_true_iff in Hl as [Hk Hl]. rewrite run_go_app, print_attr_run by done. cbn [mbind option_bind fst snd].
  by rewrite IH, <- app_assoc.
Qed.

Lemma open_tag_run t a acc toks :
  name_ok t = true -> forallb (fun kv => name_ok kv.1) a = true ->
  run_go (LText acc) toks ("<" ++ t ++ print_attrs a ++ ">") = Some (LText "", TOpen t a :: flush acc toks).
Proof.
  intros Ht Ha. destruct t as [|c t]; [done|]. apply andb_true_iff in Ht as [_ Ht].
  apply andb_true_iff in Ht as [Hc%negb_true_iff Ht]. simpl.
  destruct (special_eq c Hc) as (_ & _ & _ & _ & H5 & _).
  destruct (Ascii.eqb_spec c "/"); [done|]. rewrite Hc. simpl.
  rewrite run_go_app, (name_run LName (flush acc toks) (fun x c0 => step_name x (flush acc toks) c0) t (String c "") Ht). simpl.
  assert (E : run_go (LName (String c t)) (flush acc toks) (print_attrs a ++ ">") =
              run_go (LAttrs (String c t) []) (flush acc toks) (print_attrs a ++ ">"))
    by (destruct a as [|[k v] a]; reflexivity).
  rewrite E, run_go_app, print_attrs_run by done. reflexivity.
Qed.

Lemma close_tag_run t toks :
  name_ok t = true -> run_go LOpen toks ("/" ++ t ++ ">") = Some (LText "", TClose t :: toks).
Proof.
  intros [Hne%negb_true_iff Ht]%andb_true_iff. simpl.
  rewrite run_go_app, (name_run LCloseName toks (fun x c => step_close_name x toks c) t "" Ht). simpl.
  by rewrite Hne.
Qed.

(** What reading a printed tree does: a text adds to the pending text,
    an element gives its tokens. *)
Definition lex_spec (x : Xml) : Prop :=
  forall acc toks, xml_wf x = true ->
  run_go (LText acc) toks (print x) =
    match x with
    | XText s => Some (LText (acc ++ s), toks)
    | XElem _ _ _ => Some (LText "", app (rev (tokens_of x)) (flush acc toks))
    end.

Definition text_start (ks : list Xml) : bool := match ks with XText _ :: _ => true | _ => false end.

Lemma no_adj_text_tail k ks : no_adj_text (k :: ks) = true -> no_adj_text ks = true.
Proof. destruct k, ks as [|[] ks]; simpl; congruence. Qed.

Lemma no_adj_text_start s ks : no_adj_text (XText s :: ks) = true -> text_start ks = false.
Proof. by destruct ks as [|[] ks]. Qed.

Lemma flush_empty toks : flush EmptyString toks = toks.
Proof. done. Qed.

(** The children, up to the [<] of the closing tag. *)
Lemma kids_run ks acc toks :
  Forall lex_spec ks -> no_adj_text ks = true -> Forall (fun k => xml_wf k = true) ks ->
  (String.eqb acc "" || negb (text_start ks)) = true ->
  run_go (LText acc) toks (print_kids ks ++ "<") = Some (LOpen, app (rev (kids_tokens ks)) (flush acc toks)).
Proof.
  revert acc toks. induction ks as [|k ks IH]; intros acc toks Hl Hn Hw Ha; [reflexivity|].
  apply Forall_cons in Hl as [Hk Hl]. apply Forall_cons in Hw as [Hwk Hw].
  pose proof (no_adj_text_tail _ _ Hn) as Hn'. cbn [print_kids kids_tokens].
  rewrite string_app_assoc, run_go_app, (Hk acc toks Hwk). destruct k as [t a kk|s]; cbn [mbind option_bind fst snd].
  - rewrite (IH EmptyString _ Hl Hn' Hw eq_refl), flush_empty, rev_app_distr. by rewrite <- app_assoc.
  - apply orb_true_iff in Ha as [Ha%String.eqb_eq|Ha]; [subst acc|done].
    rewrite (IH s _ Hl Hn' Hw) by (by rewrite (no_adj_text_start _ _ Hn), orb_true_r).
    apply negb_true_iff, String.eqb_neq in Hwk. unfold flush at 1. rewrite (proj2 (String.eqb_neq _ _) Hwk).
    cbn [tokens_of rev app]. by rewrite flush_empty, <- app_assoc.
Qed.

Lemma lex_spec_all x : lex_spec x.
Proof.
  induction x as [s|t a ks IH] using Xml_ind'; intros acc toks Hwf.
  - apply escape_text.
  - apply xml_wf_elem in Hwf as (Ht & Ha & Hn & Hw). rewrite print_elem.
    rewrite (run_go_app _ _ ("<" ++ t ++ print_attrs a ++ ">")), open_tag_run by done.
    cbn [mbind option_bind fst snd]. rewrite (run_go_app _ _ (print_kids ks ++ "<")).
    rewrite (kids_run ks EmptyString _ IH Hn Hw eq_refl), flush_empty.
    cbn [mbind option_bind fst snd]. rewrite close_tag_run by done. rewrite tokens_of_elem.
    cbn [rev]. rewrite rev_app_distr. cbn [rev app]. by rewrite <- !app_assoc.
Qed.

Lemma lex_print t a ks :
  xml_wf (XElem t a ks) = true -> lex (print (XElem t a ks)) = Some (tokens_of (XElem t a ks)).
Proof.
  intros Hwf. unfold lex. rewrite lex_go_run, (lex_spec_all _ EmptyString [] Hwf). cbn [mbind option_bind]. unfold finish. cbn [fst snd].
  by rewrite !flush_empty, app_nil_r, rev_involutive.
Qed.

(** ** Lemmas on the builder *)

Definition build_spec (x : Xml) : Prop :=
  forall fr ts, xml_wf x = true ->
  match x with
  | XText s => forall t a ks, build_go ((t, a, ks) :: fr) None (app (tokens_of x) ts) =
                             build_go ((t, a, x :: ks) :: fr) None ts
  | XElem _ _ _ => build_go fr None (app (tokens_of x) ts) =
                   match close_into x fr None with Some (fr', r) => build_go fr' r ts | None => None end
  end.

Lemma build_kid t a acc fr ts k :
  build_spec k -> xml_wf k = true ->
  build_go ((t, a, acc) :: fr) None (app (tokens_of k) ts) = build_go ((t, a, k :: acc) :: fr) None ts.
Proof. intros Hk Hw. specialize (Hk ((t, a, acc) :: fr) ts Hw). by destruct k. Qed.

Lemma build_kids ks t a acc fr ts :
  Forall build_spec ks -> Forall (fun k => xml_wf k = true) ks ->
  build_go ((t, a, acc) :: fr) None (app (kids_tokens ks) ts) = build_go ((t, a, app (rev ks) acc) :: fr) None ts.
Proof.
  revert acc. induction ks as [|k ks IH]; intros acc Hb Hw; [done|].
  apply Forall_cons in Hb as [Hk Hb]. apply Forall_cons in Hw as [Hwk Hw]. cbn [kids_tokens].
  rewrite <- app_assoc, build_kid, IH by done. cbn [rev]. by rewrite <- app_assoc.
Qed.

Lemma build_spec_all x : build_spec x.
Proof.
  induction x as [s|t a ks IH] using Xml_ind'; intros fr ts Hwf; [done|].
  apply xml_wf_elem in Hwf as (_ & _ & _ & Hw). rewrite tokens_of_elem. cbn [app build_go].
  rewrite <- app_assoc, build_kids by done. cbn [app build_go]. rewrite String.eqb_refl, app_nil_r, rev_involutive.
  done.
Qed.

(** ** Reading what was printed *)

(** A well-formed element printed as text reads back as itself: the
    lexer and the builder invert the printer, escaping included. *)
Theorem parse_print t a ks :
  xml_wf (XElem t a ks) = true -> parse_text (print (XElem t a ks)) = Some (XElem t a ks).
Proof.
  intros Hwf. unfold parse_text. rewrite lex_print by done. cbn [mbind option_bind]. unfold build.
  rewrite <- (app_nil_r (tokens_of _)). rewrite (build_spec_all _ [] [] Hwf). done.
Qed.

End XmlText.
