(* ===== verification/Serialize.v ===== *)
(** * The serialization engine: [DataContainer_Load], [_Open], [_Save]

    The header declares [DataContainer_Open], [DataContainer_Load] and
    [DataContainer_Save]; their implementation is not part of the
    repository, so this file models them from the project specification
    (section 4.4) and from what the header says of the XML attributes
    ([struct Meta], lines 110-198): the legacy layout 0 nests
    [<vrayplugin>] in [<Asset>] and duplicates names and types, the
    compact layout 1 is flat and carries the document's category.  The
    document is an XML tree ([Xml.Xml]); [DataContainer_Load_text] and
    [DataContainer_Save_text] put the text layer of [XmlText] around
    [Load] and [Save], with the header's [buffer]/[length] convention.
    The parser builds the container through the exported
    calls ([AddPlugin], [AddParameter], [SetMeta], [SetValue]), so
    everything proved of them holds of a loaded document; a step that
    fails fails the whole load.  Floats are written through a
    [FloatText] codec, an interface whose laws state exactness; the
    instance [bits_text] shows they can be met. *)

From Stdlib Require Import ZArith Lia Ascii String.
From stdpp Require Import base decidable option list gmap.
From S2P Require Import Prelude TypeDesc Meta MetaKinds ValueStore Container Doc Xml XmlText.
Import TypeDesc MetaMapper MetaKinds ValueStore Container Doc Xml XmlText.

Open Scope Z_scope.
Local Open Scope vrmat_scope.
Local Open Scope string_scope.

Module Serializer.

(** ** Floats as text *)

(** The text of a float, given by its 32-bit pattern, and back. *)
Class FloatText := {
  float_text : Z -> string;
  float_of_text : string -> option Z;
}.

(** What the round trip needs of it: one token per float, read back
    exactly. *)
Class FloatTextLaws `{FloatText} := {
  float_text_token : forall w, in_u32 w = true -> token_ok (float_text w) = true;
  float_of_text_text : forall w, in_u32 w = true -> float_of_text (float_text w) = Some w;
}.

(** An exact float text: the decimal numeral of the float's bit
    pattern.  A printer of 9 significant digits is exact for binary32 as
    well; any instance with the laws serves. *)
#[export] Instance bits_text : FloatText := {|
  float_text := z_text;
  float_of_text s := z ← z_of_text s; if in_u32 z then Some z else None;
|}.

#[export] Instance bits_text_laws : FloatTextLaws.
Proof.
  constructor; intros w Hw; simpl; [apply z_text_token|]. by rewrite z_of_text_z_text; simpl; rewrite Hw.
Qed.

(** ** Parameter types *)

(** The type vocabulary of [Meta::paramType] and the value shape each
    names. *)
Definition type_table : list (string * (Rdt * Stdt)) :=
  [("integer", (Rdt_Int, Stdt_Single)); ("bool", (Rdt_Int, Stdt_Single));
   ("float", (Rdt_Float, Stdt_Single)); ("string", (Rdt_String, Stdt_Single));
   ("color", (Rdt_Float, Stdt_Array3)); ("acolor", (Rdt_Float, Stdt_Array4));
   ("vector", (Rdt_Float, Stdt_Array3)); ("matrix", (Rdt_Float, Stdt_Array9));
   ("transform", (Rdt_Float, Stdt_Array12)); ("plugin", (Rdt_String, Stdt_Single))]%string.

Definition canonical (t : string) : bool := bool_decide (is_Some (assoc t type_table)).

Definition texture_suffix : string := " texture".

(** [t] without a trailing [" texture"], if it has one. *)
Definition strip_texture (t : string) : option string :=
  let n := String.length t in
  let m := String.length texture_suffix in
  if (m <=? n)%nat && String.eqb (substring (n - m) m t) texture_suffix
  then Some (substring 0 (n - m) t) else None.

(** A legacy alias such as ["float texture"] names its canonical type;
    any other string is kept. *)
Definition normalize_type (t : string) : string :=
  match strip_texture t with
  | Some b => if canonical b then b else t
  | None => t
  end.

(** The descriptor a parameter of type [t] holds, a list or not. *)
Definition desc_of_type (t : string) (lst : bool) : option TypeDesc :=
  (fun rs : Rdt * Stdt => mkTypeDesc rs.1 rs.2 (if lst then Sqdt_List else Sqdt_Single))
    <$> assoc (normalize_type t) type_table.

(** ** Lemmas on types *)

Lemma canonical_cases t :
  canonical t = true ->
  t = "integer" \/ t = "bool" \/ t = "float" \/ t = "string" \/ t = "color" \/
  t = "acolor" \/ t = "vector" \/ t = "matrix" \/ t = "transform" \/ t = "plugin".
Proof.
  unfold canonical, type_table. simpl.
  repeat match goal with |- context [String.eqb t ?s] =>
    destruct (String.eqb_spec t s) as [->|?]; [tauto|] end.
  by intros ?%bool_decide_eq_true_1%is_Some_None.
Qed.

Lemma strip_texture_canonical b : canonical b = true -> strip_texture b = None.
Proof. intros Hb. apply canonical_cases in Hb. by repeat destruct Hb as [->|Hb]; [..|subst]. Qed.

Lemma normalize_canonical b : canonical b = true -> normalize_type b = b.
Proof. intros Hb. unfold normalize_type. by rewrite strip_texture_canonical. Qed.

Lemma normalize_type_idem t : normalize_type (normalize_type t) = normalize_type t.
Proof.
  destruct (strip_texture t) as [b|] eqn:E; [destruct (canonical b) eqn:Hb|].
  - assert (Hn : normalize_type t = b) by (unfold normalize_type; by rewrite E, Hb).
    rewrite Hn. by apply normalize_canonical.
  - assert (Hn : normalize_type t = t) by (unfold normalize_type; by rewrite E, Hb). by rewrite !Hn.
  - assert (Hn : normalize_type t = t) by (unfold normalize_type; by rewrite E). by rewrite !Hn.
Qed.

(** The normal form of a type is no legacy alias. *)
Lemma normalize_no_alias t b : strip_texture (normalize_type t) = Some b -> canonical b = false.
Proof.
  destruct (strip_texture t) as [b'|] eqn:E; [destruct (canonical b') eqn:Hb|].
  - assert (Hn : normalize_type t = b') by (unfold normalize_type; by rewrite E, Hb).
    rewrite Hn, strip_texture_canonical by done. discriminate.
  - assert (Hn : normalize_type t = t) by (unfold normalize_type; by rewrite E, Hb).
    rewrite Hn, E. by intros [= <-].
  - assert (Hn : normalize_type t = t) by (unfold normalize_type; by rewrite E).
    rewrite Hn, E. discriminate.
Qed.

(** A legacy alias ["X texture"] of a canonical type [X] normalises to [X]. *)
Lemma normalize_alias b : canonical b = true -> normalize_type (b ++ texture_suffix) = b.
Proof. intros Hb. apply canonical_cases in Hb. by repeat destruct Hb as [->|Hb]; [..|subst]. Qed.

(** ** Values as text *)

Definition to_i32 (w : Z) : Z := (if w <? 2 ^ 31 then w else w - 2 ^ 32)%Z.
Definition of_i32 (z : Z) : Z := (if z <? 0 then z + 2 ^ 32 else z)%Z.

Section Text.
Context `{FloatText}.

Definition word_text (r : Rdt) (w : Z) : string :=
  match r with Rdt_Float => float_text w | _ => z_text (to_i32 w) end.

Definition word_of_text (r : Rdt) (s : string) : option Z :=
  match r with
  | Rdt_Float => float_of_text s
  | _ => z ← z_of_text s; if in_i32 z then Some (of_i32 z) else None
  end.

(** One [<value>] element around a text; an empty text is no content
    at all, as XML writes it. *)
Definition value_elem (s : string) : Xml :=
  XElem "value" [] (if String.eqb s "" then [] else [XText s]).

(** A value is one [<value>] holding its numbers, or one [<value>] per
    string. *)
Definition value_elems (v : Value) : list Xml :=
  match v_data v with
  | RawWords ws => [value_elem (unwords (word_text (td_rdt (v_type v)) <$> ws))]
  | RawStrings ss => value_elem <$> ss
  end.

(** The text of a [<value>] element, empty when it has no content. *)
Definition value_text (x : Xml) : option string :=
  match x with
  | XElem tag [] [] => if String.eqb tag "value" then Some "" else None
  | XElem tag [] [XText s] => if String.eqb tag "value" then Some s else None
  | _ => None
  end.

(** The data and list length of the [SetValue] call a parameter's
    [<value>] texts describe; the number count must fill whole
    structures. *)
Definition parse_value (t : TypeDesc) (texts : list string) : option (RawData * Z) :=
  match td_rdt t with
  | Rdt_String =>
      if is_list t then Some (RawStrings texts, Z.of_nat (length texts))
      else match texts with [s] => Some (RawStrings [s], 0%Z) | _ => None end
  | r =>
      match texts with
      | [s] =>
          ws ← mapM (word_of_text r) (words s);
          let n := Z.of_nat (length ws) in
          if (n mod components t =? 0)%Z then
            Some (RawWords ws, if is_list t then (n / components t)%Z else 0%Z)
          else None
      | _ => None
      end
  end.

End Text.

(** ** Lemmas on values as text *)

Lemma i32_roundtrip w : in_u32 w = true -> in_i32 (to_i32 w) = true /\ of_i32 (to_i32 w) = w.
Proof.
  rewrite in_u32_spec, u32_max_val. intros Hw. unfold to_i32, of_i32, in_i32, i32_min, i32_max.
  destruct (Z.ltb_spec w (2 ^ 31)); rewrite !andb_true_iff, !Z.leb_le;
    [destruct (Z.ltb_spec w 0)|destruct (Z.ltb_spec (w - 2 ^ 32) 0)]; split; lia.
Qed.

Lemma components_pos t : type_valid t = true -> 0 < components t.
Proof.
  destruct t as [r [] q]; unfold components; simpl; case_bool_decide; try lia.
  unfold type_valid. simpl. by rewrite andb_false_r, !andb_false_l.
Qed.

Section TextLaws.
Context `{FloatTextLaws}.

Lemma word_text_token r w : in_u32 w = true -> token_ok (word_text r w) = true.
Proof. intros Hw. destruct r; simpl; auto using z_text_token, float_text_token. Qed.

Lemma word_of_text_text r w : in_u32 w = true -> word_of_text r (word_text r w) = Some w.
Proof.
  intros Hw. destruct r; simpl; auto using float_of_text_text;
    destruct (i32_roundtrip w Hw) as [Hi Ho]; rewrite z_of_text_z_text; simpl; by rewrite Hi, Ho.
Qed.

Lemma words_text r ws :
  Forall (fun w => in_u32 w = true) ws ->
  mapM (word_of_text r) (words (unwords (word_text r <$> ws))) = Some ws.
Proof.
  intros Hu. rewrite words_unwords.
  - apply mapM_fmap_Forall_Some. eapply Forall_impl; [exact Hu|]. intros w Hw.
    by apply word_of_text_text.
  - apply Forall_fmap. eapply Forall_impl; [exact Hu|]. intros w Hw. by apply word_text_token.
Qed.

End TextLaws.

Lemma value_text_elem s : value_text (value_elem s) = Some s.
Proof. unfold value_elem, value_text. by destruct (String.eqb_spec s ""); [subst|]. Qed.

Lemma value_texts_strings ss : mapM value_text (value_elem <$> ss) = Some ss.
Proof. apply mapM_fmap_Some, value_text_elem. Qed.

(** A stored value written as [<value>] elements reads back as the data
    and list length of the [SetValue] call that stores it again (a list of
    no strings, which writes no element, excepted). *)
Lemma value_text_parse `{FloatTextLaws} v :
  value_wf v -> v_data v <> RawStrings [] ->
  (texts ← mapM value_text (value_elems v); parse_value (v_type v) texts) =
    Some (v_data v, list_length_arg (v_type v) (v_count v)).
Proof.
  destruct v as [t c d]. intros (Hv & Hc & _ & H1 & Hd) Hne; simpl in *.
  pose proof (components_pos t Hv) as Hpos.
  unfold value_elems, parse_value, list_length_arg, footprint in *; simpl in *.
  destruct (td_rdt t) eqn:Er, d as [ws|ss]; try done.
  1,2: destruct Hd as [Hlen Hu]; cbn [mapM]; rewrite value_text_elem; simpl; rewrite words_text by done; simpl;
    rewrite Hlen, Z.mul_comm, Z_mod_mult; simpl; rewrite Z.div_mul by lia;
    destruct (is_list t); done.
  destruct Hd as [Hlen _]. rewrite value_texts_strings. simpl.
  rewrite components_not_float in Hlen by congruence.
  destruct (is_list t); [f_equal; f_equal; lia|].
  rewrite H1 in Hlen by done. destruct ss as [|s [|s' ss]]; simpl in Hlen; try lia. done.
Qed.

(** ** Emitting a document *)

Definition flag_text (b : bool) : string := if b then "1" else "0".

Definition opt_attr (k : string) (o : option string) : list (string * string) :=
  match o with Some v => [(k, v)] | None => [] end.

(** Whether a parameter's value is a list. *)
Definition list_attr (a : ParamRec) : bool :=
  match pa_value a with Some v => is_list (v_type v) | None => false end.

Section Emit.
Context `{FloatText}.
(** The plugin version written when none is set: the latest at build time. *)
Context (build_version : Z).

Definition values_of (a : ParamRec) : list Xml := default [] (value_elems <$> pa_value a).

(** Version 0: [<parameter>] with the duplicated [name]/[label], the
    [type]/[listType] pair, [isUserData] and, for a file path, [handler]. *)
Definition emit_param0 (a : ParamRec) : Xml :=
  let x := pa_attrs a in
  XElem "parameter"
    (app [("name", a_name x); ("label", a_name x); ("type", normalize_type (a_type x));
          ("listType", if list_attr a then "list" else "none"); ("isUserData", flag_text (a_custom x))]
       (if a_filePath x then [("handler", "FileBrowser")] else []))
    (values_of a).

(** Version 1: a flat [<param>]. *)
Definition emit_param1 (a : ParamRec) : Xml :=
  let x := pa_attrs a in
  XElem "param"
    [("name", a_name x); ("type", normalize_type (a_type x)); ("list", flag_text (list_attr a));
     ("custom", flag_text (a_custom x)); ("filePath", flag_text (a_filePath x))]
    (values_of a).

(** Version 0: [<Asset url type>] around [<vrayplugin name type version>]. *)
Definition emit_plugin0 (p : PluginAttrs) (params : list Xml) : Xml :=
  XElem "Asset" [("url", p_name p); ("type", p_class p)]
    [XElem "vrayplugin"
       [("name", p_type p); ("type", p_class p); ("version", z_text (default build_version (p_version p)))]
       params].

Definition emit_plugin1 (p : PluginAttrs) (params : list Xml) : Xml :=
  XElem "plugin"
    [("name", p_name p); ("type", p_type p); ("class", p_class p);
     ("version", z_text (default build_version (p_version p)))]
    params.

(** The document in layout [ver], walking the plugins and each plugin's
    parameters in storage order. *)
Definition emit (ver : Z) (dc : DataContainer) : Xml :=
  let r := dc_root dc in
  let eparam := if (ver =? 1)%Z then emit_param1 else emit_param0 in
  let eplugin := if (ver =? 1)%Z then emit_plugin1 else emit_plugin0 in
  XElem (r_tag r)
    (app (if (ver =? 1)%Z then ("version", "1") :: opt_attr "category" (r_category r) else [])
       (opt_attr "preview" (r_preview r)))
    ((fun ip : Z * PluginAttrs => eplugin ip.2 (eparam ∘ snd <$> params_of (dc_params dc) ip.1))
       <$> map_to_list (dc_plugins dc)).

End Emit.

(** ** Parsing a document *)

(** Any failure of a step is a parse failure. *)
Definition pe {A} (r : result A) : result A :=
  match r with Ok a => Ok a | Err _ => Err ParseError end.

Definition req {A} (o : option A) : result A := of_option ParseError o.

Definition flag_of_text (s : string) : option bool :=
  if String.eqb s "1" then Some true else if String.eqb s "0" then Some false else None.

(** An optional flag attribute, 0 when absent. *)
Definition opt_flag (o : option string) : result bool :=
  match o with None => Ok false | Some s => req (flag_of_text s) end.

Definition list_of_text0 (s : string) : option bool :=
  if String.eqb s "list" then Some true else if String.eqb s "none" then Some false else None.

(** The [Meta] that sets one attribute. *)
Definition meta_one (f : MetaField) (v : FieldVal) : Meta :=
  set_mask (mc_bit f) (meta_set_field f v meta_zero).

Fixpoint rfold {A} (f : A -> DataContainer -> result DataContainer) (xs : list A)
    (dc : DataContainer) : result DataContainer :=
  match xs with
  | [] => Ok dc
  | x :: xs' => dc' <- f x dc ;; rfold f xs' dc'
  end.

Section Parse.
Context `{FloatText}.

(** The attributes of a parameter element: name, type, list flag, custom
    flag, file-path flag. *)
Definition param_attrs (ver : Z) (tag : string) (attrs : list (string * string))
    : result (string * string * bool * bool * bool) :=
  if (ver =? 1)%Z then
    ensure (String.eqb tag "param") ParseError ;;;
    n <- req (attr "name" attrs) ;;
    ty <- req (attr "type" attrs) ;;
    lst <- opt_flag (attr "list" attrs) ;;
    cu <- opt_flag (attr "custom" attrs) ;;
    fp <- opt_flag (attr "filePath" attrs) ;;
    Ok (n, ty, lst, cu, fp)
  else
    ensure (String.eqb tag "parameter") ParseError ;;;
    n <- req (match attr "name" attrs with Some n => Some n | None => attr "label" attrs end) ;;
    ty <- req (attr "type" attrs) ;;
    lst <- (match attr "listType" attrs with None => Ok false | Some s => req (list_of_text0 s) end) ;;
    cu <- opt_flag (attr "isUserData" attrs) ;;
    Ok (n, ty, lst, cu, bool_decide (is_Some (attr "handler" attrs))).

(** A parameter of plugin [pid]: [AddParameter], then the file-path flag
    by [SetMeta], then the value by [SetValue]. *)
Definition parse_param (ver pid : Z) (x : Xml) (dc : DataContainer) : result DataContainer :=
  match x with
  | XText _ => Err ParseError
  | XElem tag attrs kids =>
      a <- param_attrs ver tag attrs ;;
      let '(n, ty, lst, cu, fp) := a in
      r <- pe (DataContainer_AddParameter pid (Some n) (Some ty) (int_of_flag cu) dc) ;;
      let '(id, dc1) := r in
      dc2 <- (if fp then pe (DataContainer_SetMeta id (meta_one ParamFilePath (FInt 1)) dc1) else Ok dc1) ;;
      match kids with
      | [] => Ok dc2
      | _ =>
          t <- req (desc_of_type ty lst) ;;
          texts <- req (mapM value_text kids) ;;
          dv <- req (parse_value t texts) ;;
          pe (DataContainer_SetValue id dv.1 (type_word t) dv.2 dc2)
      end
  end.

(** A plugin element and its parameters: name, type, class, and the
    version if written, then each parameter. *)
Definition plugin_parts (ver : Z) (x : Xml)
    : result (string * string * string * option string * list Xml) :=
  match x with
  | XElem tag attrs kids =>
      if (ver =? 1)%Z then
        ensure (String.eqb tag "plugin") ParseError ;;;
        n <- req (attr "name" attrs) ;;
        ty <- req (attr "type" attrs) ;;
        cl <- req (attr "class" attrs) ;;
        Ok (n, ty, cl, attr "version" attrs, kids)
      else
        ensure (String.eqb tag "Asset") ParseError ;;;
        match kids with
        | [XElem vtag vattrs params] =>
            ensure (String.eqb vtag "vrayplugin") ParseError ;;;
            n <- req (attr "url" attrs) ;;
            ty <- req (attr "name" vattrs) ;;
            cl <- req (match attr "type" attrs with Some c => Some c | None => attr "type" vattrs end) ;;
            Ok (n, ty, cl, attr "version" vattrs, params)
        | _ => Err ParseError
        end
  | XText _ => Err ParseError
  end.

Definition parse_plugin (ver : Z) (x : Xml) (dc : DataContainer) : result DataContainer :=
  parts <- plugin_parts ver x ;;
  let '(n, ty, cl, ov, params) := parts in
  r <- pe (DataContainer_AddPlugin (Some n) (Some ty) (Some cl) dc) ;;
  let '(id, dc1) := r in
  dc2 <- (match ov with
          | None => Ok dc1
          | Some s => z <- req (z_of_text s) ;; pe (DataContainer_SetMeta id (meta_one PluginVersion (FInt z)) dc1)
          end) ;;
  rfold (parse_param ver id) params dc2.

(** The layout from the root's [version] attribute: absent or 0 is the
    legacy layout, 1 the compact one. *)
Definition doc_version (attrs : list (string * string)) : result Z :=
  match attr "version" attrs with
  | None => Ok 0%Z
  | Some s =>
      z <- req (z_of_text s) ;;
      ensure ((z =? 0) || (z =? 1))%Z ParseError ;;;
      Ok z
  end.

(** The document: the root tag and attributes, then every plugin. *)
Definition parse_doc (x : Xml) (dc : DataContainer) : result DataContainer :=
  match x with
  | XText _ => Err ParseError
  | XElem tag attrs kids =>
      ensure (bool_decide (tag ∈ root_tags)) ParseError ;;;
      ver <- doc_version attrs ;;
      let cat := if (ver =? 1)%Z then attr "category" attrs else None in
      let dc1 := set_root (mkRootAttrs ver cat (attr "preview" attrs) tag None) dc in
      rfold (parse_plugin ver) kids dc1
  end.

(** The container emptied: the ids already handed out stay used. *)
Definition clear (dc : DataContainer) : DataContainer := mkDC root_default ∅ ∅ (dc_next dc).

(** [DataContainer_Load]: "the contents of the container is destroyed
    before loading the buffer"; the C result and the container after. *)
Definition DataContainer_Load (x : Xml) (dc : DataContainer) : Z * DataContainer :=
  let dc0 := clear dc in
  match parse_doc x dc0 with
  | Ok dc' => (1%Z, dc')
  | Err _ => (0%Z, dc0)
  end.

(** [DataContainer_Open]: the file's contents loaded, and its path kept
    as the root's [fileName]. *)
Definition DataContainer_Open (fileName : string) (x : Xml) (dc : DataContainer) : Z * DataContainer :=
  let '(r, dc') := DataContainer_Load x dc in
  if (r =? 0)%Z then (r, dc')
  else
    let rt := dc_root dc' in
    (r, set_root (mkRootAttrs (r_version rt) (r_category rt) (r_preview rt) (r_tag rt) (Some fileName)) dc').

End Parse.

(** [DataContainer_Save]: the document in layout 0 or 1; any other
    version is refused. *)
Definition DataContainer_Save `{FloatText} (build_version : Z) (dc : DataContainer) (version : Z)
    : result Xml :=
  ensure ((version =? 0) || (version =? 1))%Z WriteError ;;;
  Ok (emit build_version version dc).

(** ** The calls on text *)

(** A C string ends at its first NUL byte. *)
Fixpoint until_nul (s : string) : string :=
  match s with
  | EmptyString => EmptyString
  | String c s' => if Ascii.eqb c zero then EmptyString else String c (until_nul s')
  end.

(** The bytes [DataContainer_Load] reads: [length] of them, or up to the
    NUL when [length] is 0. *)
Definition c_buffer (buffer : string) (length : Z) : string :=
  if (length =? 0)%Z then until_nul buffer else substring 0 (Z.to_nat length) buffer.

(** [DataContainer_Load (dc, buffer, length)]: the container is emptied,
    then the text is read as XML and loaded. *)
Definition DataContainer_Load_text `{FloatText} (buffer : string) (length : Z) (dc : DataContainer)
    : Z * DataContainer :=
  match parse_text (c_buffer buffer length) with
  | Some x => DataContainer_Load x dc
  | None => (0, clear dc)
  end.

Lemma substring_all s : substring 0 (String.length s) s = s.
Proof. induction s as [|c s IH]; [done|]. simpl. by rewrite IH. Qed.

(** Passing the text's own length reads all of it. *)
Lemma c_buffer_length s : c_buffer s (Z.of_nat (String.length s)) = s.
Proof.
  unfold c_buffer. destruct s as [|c s]; [done|]. simpl String.length.
  rewrite (proj2 (Z.eqb_neq _ _)) by lia. rewrite Nat2Z.id. exact (substring_all (String c s)).
Qed.

(** C34: [DataContainer_Load] given the text of a well-formed document
    and its length does what loading the document does: printing and
    reading the bytes lose nothing, escaped markup characters included. *)
Theorem load_text_print `{FloatText} t a ks dc :
  xml_wf (XElem t a ks) = true ->
  DataContainer_Load_text (print (XElem t a ks)) (Z.of_nat (String.length (print (XElem t a ks)))) dc =
  DataContainer_Load (XElem t a ks) dc.
Proof. intros Hwf. unfold DataContainer_Load_text. by rewrite c_buffer_length, parse_print. Qed.

(** [DataContainer_Save]: the text written to the file. *)
Definition DataContainer_Save_text `{FloatText} (build_version : Z) (dc : DataContainer) (version : Z)
    : result string :=
  rmap print (DataContainer_Save build_version dc version).

(** ** Load keeps the container sound *)

(** A step that keeps the invariant every call keeps and never lowers
    the id counter. *)
Definition grows (f : DataContainer -> result DataContainer) : Prop :=
  forall dc dc', dc_sound dc -> f dc = Ok dc' -> dc_sound dc' /\ dc_next dc <= dc_next dc'.

Lemma grows_rfold {A} (f : A -> DataContainer -> result DataContainer) xs :
  (forall x, grows (f x)) -> grows (rfold f xs).
Proof.
  intros Hf. induction xs as [|x xs IH]; intros dc dc' Hwf; simpl; [intros [= <-]; split; [done|lia]|].
  destruct (f x dc) as [dc1|] eqn:E; simpl; [|done]. intros H.
  destruct (Hf x dc dc1 Hwf E) as [Hwf1 Hn1]. destruct (IH dc1 dc' Hwf1 H). split; [done|lia].
Qed.

Lemma pe_Ok {A} (r : result A) a : pe r = Ok a -> r = Ok a.
Proof. by destruct r; simpl; [intros [= ->]|]. Qed.

Lemma grows_set_meta e m : grows (DataContainer_SetMeta e m).
Proof.
  intros dc dc' Hwf H. split; [by eapply set_meta_sound|]. apply set_meta_next in H. lia.
Qed.

Lemma grows_set_value id d t l : grows (DataContainer_SetValue id d t l).
Proof.
  intros dc dc' Hwf H. split; [by eapply set_value_sound|]. apply set_value_next in H. lia.
Qed.

Lemma grows_parse_param `{FloatText} ver pid x : grows (parse_param ver pid x).
Proof.
  intros dc dc' Hwf. destruct x as [tag attrs kids|]; simpl; [|done].
  destruct (param_attrs ver tag attrs) as [[[[[n ty] lst] cu] fp]|]; simpl; [|done].
  destruct (DataContainer_AddParameter _ _ _ _ dc) as [[id dc1]|] eqn:E; simpl; [|done].
  pose proof (add_parameter_sound _ _ _ _ _ _ _ Hwf E) as Hwf1.
  apply add_parameter_Ok in E as (? & ? & _ & _ & _ & _ & _ & _ & _ & Hd1).
  assert (Hn1 : dc_next dc1 = dc_next dc + 1) by (by rewrite Hd1). clear Hd1.
  assert (Hg : forall dc2, (if fp then pe (DataContainer_SetMeta id (meta_one ParamFilePath (FInt 1)) dc1)
      else Ok dc1) = Ok dc2 -> dc_sound dc2 /\ dc_next dc < dc_next dc2).
  { intros dc2. destruct fp; simpl; [|intros [= <-]; split; [done|lia]].
    intros Hm%pe_Ok. destruct (grows_set_meta _ _ _ _ Hwf1 Hm). split; [done|lia]. }
  destruct (if fp then _ else _) as [dc2|]; simpl; [|done].
  destruct (Hg dc2 eq_refl) as [Hwf2 Hn2].
  destruct kids; [intros [= <-]; split; [done|lia]|].
  repeat match goal with |- context [req ?o] => destruct o; simpl; [|done] end.
  intros Hm%pe_Ok. destruct (grows_set_value _ _ _ _ _ _ Hwf2 Hm). split; [done|lia].
Qed.

Lemma grows_parse_plugin `{FloatText} ver x : grows (parse_plugin ver x).
Proof.
  intros dc dc' Hwf. unfold parse_plugin.
  destruct (plugin_parts ver x) as [[[[[n ty] cl] ov] params]|]; simpl; [|done].
  destruct (DataContainer_AddPlugin _ _ _ dc) as [[id dc1]|] eqn:E; simpl; [|done].
  pose proof (add_plugin_sound _ _ _ _ _ _ Hwf E) as Hwf1.
  apply add_plugin_Ok in E as (? & ? & ? & _ & _ & _ & _ & _ & Hd1).
  assert (Hn1 : dc_next dc1 = dc_next dc + 1) by (by rewrite Hd1). clear Hd1.
  assert (Hg : forall dc2, (match ov with None => Ok dc1 | Some s => z <- req (z_of_text s) ;;
      pe (DataContainer_SetMeta id (meta_one PluginVersion (FInt z)) dc1) end) = Ok dc2 ->
      dc_sound dc2 /\ dc_next dc < dc_next dc2).
  { intros dc2. destruct ov as [s|]; simpl; [|intros [= <-]; split; [done|lia]].
    destruct (z_of_text s); simpl; [|done].
    intros Hm%pe_Ok. destruct (grows_set_meta _ _ _ _ Hwf1 Hm). split; [done|lia]. }
  destruct (match ov with None => _ | Some _ => _ end) as [dc2|]; simpl; [|done].
  destruct (Hg dc2 eq_refl) as [Hwf2 Hn2]. intros Hr.
  destruct (grows_rfold _ _ (@grows_parse_param _ ver id) _ _ Hwf2 Hr). split; [done|lia].
Qed.

Lemma clear_sound dc : dc_sound dc -> dc_sound (clear dc).
Proof.
  intros Hwf. pose proof (wf_next _ Hwf).
  constructor; simpl; intros *; rewrite ?lookup_empty; try done; try lia.
  unfold root_wf, root_tags; simpl. split; [by left|]. set_solver.
Qed.

Lemma clear_wf dc : dc_sound dc -> dc_wf (clear dc).
Proof.
  intros Hwf. split; [by apply clear_sound|]. intros i j p q Hi. unfold clear in Hi; simpl in Hi. by rewrite lookup_empty in Hi.
Qed.

Lemma set_root_sound r dc : dc_sound dc -> root_wf r -> dc_sound (set_root r dc).
Proof. intros Hwf Hr. destruct Hwf; by constructor. Qed.

Lemma set_root_wf r dc : dc_wf dc -> root_wf r -> dc_wf (set_root r dc).
Proof. intros Hwf Hr. split; [apply set_root_sound; [exact Hwf|done]|apply Hwf]. Qed.

Lemma doc_version_range attrs ver : doc_version attrs = Ok ver -> ver = 0 \/ ver = 1.
Proof.
  unfold doc_version. destruct (attr "version" attrs); simpl; [|intros [= <-]; auto].
  destruct (z_of_text s); simpl; [|done].
  destruct ((z =? 0) || (z =? 1))%Z eqn:E; simpl; [|done]. intros [= <-].
  apply orb_true_iff in E as [E|E]; apply Z.eqb_eq in E; auto.
Qed.

(** The root a document gives is a valid one. *)
Lemma parsed_root_wf attrs ver tag cat pr :
  doc_version attrs = Ok ver -> tag ∈ root_tags -> root_wf (mkRootAttrs ver cat pr tag None).
Proof. intros Ev Ht. split; [|done]. by apply doc_version_range in Ev. Qed.

Lemma grows_parse_doc `{FloatText} x : grows (parse_doc x).
Proof.
  intros dc dc' Hwf. destruct x as [tag attrs kids|]; simpl; [|done].
  case_bool_decide as Ht; simpl; [|done].
  destruct (doc_version attrs) as [ver|] eqn:Ev; simpl; [|done]. intros Hr.
  exact (grows_rfold _ _ (@grows_parse_plugin _ ver) _ _
           (set_root_sound _ _ Hwf (parsed_root_wf _ _ _ _ _ Ev Ht)) Hr).
Qed.

(** ** The plugin names a load leaves *)

(** The names the plugin elements [xs] give in layout [ver]. *)
Definition plugin_names_of (ver : Z) (xs : list Xml) : list string :=
  omap (fun x => match plugin_parts ver x with Ok (n, _, _, _, _) => Some n | Err _ => None end) xs.

(** The plugin names a document lists: "In the XML the identifiers are
    the plugins and parameters names - thus for practical reasons those
    shall be unique" (lines 13-14). *)
Definition doc_plugin_names (x : Xml) : list string :=
  match x with
  | XElem _ attrs kids =>
      match doc_version attrs with Ok ver => plugin_names_of ver kids | Err _ => [] end
  | XText _ => []
  end.

Lemma parse_param_plugins `{FloatText} ver pid x dc dc' :
  dc_sound dc -> parse_param ver pid x dc = Ok dc' -> dc_plugins dc' = dc_plugins dc.
Proof.
  intros Hwf. destruct x as [tag attrs kids|]; simpl; [|done].
  destruct (param_attrs ver tag attrs) as [[[[[n ty] lst] cu] fp]|]; simpl; [|done].
  destruct (DataContainer_AddParameter _ _ _ _ dc) as [[id dc1]|] eqn:E; simpl; [|done].
  pose proof (add_parameter_sound _ _ _ _ _ _ _ Hwf E) as Hwf1.
  apply add_parameter_Ok in E as (? & ? & _ & [= <-] & [= <-] & _ & _ & _ & -> & ->).
  assert (Hg : forall dc2, (if fp then pe (DataContainer_SetMeta (dc_next dc) (meta_one ParamFilePath (FInt 1))
      (mkDC (dc_root dc) (dc_plugins dc) (<[dc_next dc := mkParamRec pid (mkParamAttrs n ty (flag_of_int (int_of_flag cu)) false) None]>
        (dc_params dc)) (dc_next dc + 1))) else Ok (mkDC (dc_root dc) (dc_plugins dc)
        (<[dc_next dc := mkParamRec pid (mkParamAttrs n ty (flag_of_int (int_of_flag cu)) false) None]>
        (dc_params dc)) (dc_next dc + 1))) = Ok dc2 -> dc_plugins dc2 = dc_plugins dc).
  { intros dc2. destruct fp; simpl; [|by intros [= <-]].
    pose proof (wf_next_fresh _ Hwf) as [Hf _]. pose proof (wf_next _ Hwf).
    intros [(? & _)|[(_ & q & _ & Hq & _)|(_ & _ & ? & ? & _ & _ & _ & ->)]]%pe_Ok%set_meta_Ok;
      [lia|simpl in Hq; congruence|done]. }
  destruct (if fp then _ else _) as [dc2|]; simpl; [|done].
  specialize (Hg dc2 eq_refl).
  destruct kids; [by intros [= <-]|].
  repeat match goal with |- context [req ?o] => destruct o; simpl; [|done] end.
  intros (? & ? & _ & _ & ->)%pe_Ok%set_value_Ok. done.
Qed.

Lemma rfold_params_plugins `{FloatText} ver pid xs dc dc' :
  dc_sound dc -> rfold (parse_param ver pid) xs dc = Ok dc' -> dc_plugins dc' = dc_plugins dc.
Proof.
  revert dc. induction xs as [|x xs IH]; intros dc Hwf; simpl; [by intros [= <-]|].
  destruct (parse_param ver pid x dc) as [dc1|] eqn:E; simpl; [|done]. intros Hr.
  rewrite (IH dc1 (proj1 (grows_parse_param ver pid x dc dc1 Hwf E)) Hr).
  exact (parse_param_plugins _ _ _ _ _ Hwf E).
Qed.

(** A plugin element adds one plugin, under the name it gives. *)
Lemma parse_plugin_names `{FloatText} ver x dc dc' :
  dc_sound dc -> parse_plugin ver x dc = Ok dc' ->
  exists n ty cl ov ps, plugin_parts ver x = Ok (n, ty, cl, ov, ps) /\
    plugin_names dc' ≡ₚ n :: plugin_names dc.
Proof.
  intros Hwf. unfold parse_plugin.
  destruct (plugin_parts ver x) as [[[[[n ty] cl] ov] ps]|]; simpl; [|done].
  destruct (DataContainer_AddPlugin _ _ _ dc) as [[id dc1]|] eqn:E; simpl; [|done].
  pose proof (add_plugin_sound _ _ _ _ _ _ Hwf E) as Hwf1.
  apply add_plugin_Ok in E as (? & ? & ? & [= <-] & [= <-] & [= <-] & _ & -> & Hd1).
  pose proof (proj1 (wf_next_fresh _ Hwf)) as Hfresh.
  pose proof (plugin_names_insert dc dc1 (dc_next dc) (mkPluginAttrs n ty cl None) Hfresh ltac:(by rewrite Hd1)) as Hn1.
  cbn [p_name] in Hn1.
  assert (Hp1 : dc_plugins dc1 !! dc_next dc = Some (mkPluginAttrs n ty cl None)) by (rewrite Hd1; apply lookup_insert_eq).
  assert (Hg : forall dc2, (match ov with None => Ok dc1 | Some s => z <- req (z_of_text s) ;;
      pe (DataContainer_SetMeta (dc_next dc) (meta_one PluginVersion (FInt z)) dc1) end) = Ok dc2 ->
      dc_sound dc2 /\ plugin_names dc2 = plugin_names dc1).
  { intros dc2. destruct ov as [s|]; simpl; [|intros [= <-]; done].
    destruct (z_of_text s) as [z|]; simpl; [|done]. intros Hm%pe_Ok.
    split; [exact (set_meta_sound _ _ _ _ Hwf1 Hm)|].
    apply set_meta_Ok in Hm as [(? & _)|[(_ & q & q' & Hq & Hs & ->)|(_ & Hq & _)]]; [|idtac|congruence].
    - pose proof (wf_next _ Hwf). lia.
    - rewrite Hp1 in Hq. injection Hq as <-.
      eapply plugin_names_replace; [exact Hp1|reflexivity|].
      exact (set_meta_name_kept (meta_one PluginVersion (FInt z)) _ _ eq_refl Hs). }
  destruct (match ov with None => _ | Some _ => _ end) as [dc2|]; simpl; [|done].
  destruct (Hg dc2 eq_refl) as [Hwf2 Hn2]. intros Hr.
  do 5 eexists. split; [reflexivity|].
  rewrite (plugin_names_fmap dc'), (rfold_params_plugins _ _ _ _ _ Hwf2 Hr), <- plugin_names_fmap.
  by rewrite Hn2.
Qed.

Lemma rfold_plugin_names `{FloatText} ver xs dc dc' :
  dc_sound dc -> rfold (parse_plugin ver) xs dc = Ok dc' ->
  plugin_names dc' ≡ₚ plugin_names_of ver xs ++ plugin_names dc.
Proof.
  revert dc. induction xs as [|x xs IH]; intros dc Hwf; simpl; [by intros [= <-]|].
  destruct (parse_plugin ver x dc) as [dc1|] eqn:E; simpl; [|done]. intros Hr.
  destruct (parse_plugin_names _ _ _ _ Hwf E) as (n & ty & cl & ov & ps & Hparts & Hn).
  rewrite (IH dc1 (proj1 (grows_parse_plugin ver x dc dc1 Hwf E)) Hr), Hn.
  unfold plugin_names_of. simpl. rewrite Hparts. simpl. by rewrite Permutation_middle.
Qed.

(** ** Theorems on loading and saving *)

Lemma load_grows `{FloatText} x dc :
  dc_sound dc -> dc_sound (DataContainer_Load x dc).2 /\ dc_next dc <= dc_next (DataContainer_Load x dc).2.
Proof.
  intros Hwf. pose proof (clear_sound _ Hwf) as Hc. unfold DataContainer_Load.
  destruct (parse_doc x (clear dc)) as [dc'|] eqn:E; simpl; [|split; [done|simpl; lia]].
  exact (grows_parse_doc x _ _ Hc E).
Qed.

(** C26: Loading, whether it succeeds or fails, leaves a sound container
    (the invariant every call keeps) and never lowers the id counter: ids
    handed out before a load are not handed out again. *)
Theorem load_sound `{FloatText} x dc :
  dc_sound dc -> dc_sound (DataContainer_Load x dc).2 /\ dc_next dc <= dc_next (DataContainer_Load x dc).2.
Proof. apply load_grows. Qed.

(** C27: A load that fails leaves the container empty, as the header says
    ("the contents of the container is destroyed before loading"): no
    plugin, no parameter, a default root; the id counter is kept. *)
Theorem load_failure_empties `{FloatText} x dc :
  (DataContainer_Load x dc).1 = 0%Z ->
  (DataContainer_Load x dc).2 = clear dc /\
  dc_plugins (clear dc) = ∅ /\ dc_params (clear dc) = ∅ /\ dc_root (clear dc) = root_default /\
  dc_next (clear dc) = dc_next dc.
Proof. unfold DataContainer_Load. by destruct (parse_doc x (clear dc)). Qed.

(** The plugins a successful load leaves are the document's, by name. *)
Lemma load_plugin_names `{FloatText} x dc :
  dc_sound dc -> (DataContainer_Load x dc).1 = 1%Z ->
  plugin_names (DataContainer_Load x dc).2 ≡ₚ doc_plugin_names x.
Proof.
  intros Hwf. unfold DataContainer_Load.
  destruct (parse_doc x (clear dc)) as [dc'|] eqn:E; simpl; [intros _|discriminate].
  destruct x as [tag attrs kids|]; simpl in E |- *; [|done].
  case_bool_decide as Ht; simpl in E; [|done].
  destruct (doc_version attrs) as [ver|] eqn:Ev; simpl in E; [|done].
  rewrite (rfold_plugin_names _ _ _ _
             (set_root_sound _ _ (clear_sound _ Hwf) (parsed_root_wf _ _ _ _ _ Ev Ht)) E).
  by rewrite app_nil_r.
Qed.

(** A load of a document whose plugin names are distinct leaves a
    container with unique plugin names, whether it succeeds or not. *)
Lemma load_wf_distinct `{FloatText} x dc :
  dc_sound dc -> NoDup (doc_plugin_names x) -> dc_wf (DataContainer_Load x dc).2.
Proof.
  intros Hwf Hnd. destruct (Z.eqb_spec (DataContainer_Load x dc).1 1) as [H1|H1].
  - split; [exact (proj1 (load_grows x dc Hwf))|].
    by rewrite names_unique_NoDup, (load_plugin_names x dc Hwf H1).
  - revert H1. unfold DataContainer_Load. destruct (parse_doc x (clear dc)); simpl; [done|].
    intros _. exact (clear_wf _ Hwf).
Qed.

(** C29: A load does not check plugin names either: after a successful
    load the container holds one plugin per plugin element of the
    document, under the name the element gives, so its plugin names are
    unique exactly when the document's are. *)
Theorem load_names_unique `{FloatText} x dc :
  dc_sound dc -> (DataContainer_Load x dc).1 = 1%Z ->
  plugin_names (DataContainer_Load x dc).2 ≡ₚ doc_plugin_names x /\
  (plugin_names_unique (DataContainer_Load x dc).2 <-> NoDup (doc_plugin_names x)).
Proof.
  intros Hwf H1. pose proof (load_plugin_names x dc Hwf H1) as Hn.
  split; [done|]. by rewrite names_unique_NoDup, Hn.
Qed.

(** The value of attribute [k] of an element. *)
Definition elem_attr (k : string) (x : Xml) : option string :=
  match x with XElem _ attrs _ => attr k attrs | XText _ => None end.

(** C30: The type the serializer writes for a parameter, in either
    layout, is never a legacy alias ["X texture"] of a canonical type
    [X]; the loader's normalisation leaves it as it is, and it describes
    the same data as the stored type. *)
Theorem saved_type_canonical `{FloatText} (a : ParamRec) :
  exists t, elem_attr "type" (emit_param0 a) = Some t /\ elem_attr "type" (emit_param1 a) = Some t /\
    (forall b, strip_texture t = Some b -> canonical b = false) /\ normalize_type t = t /\
    (forall lst, desc_of_type t lst = desc_of_type (a_type (pa_attrs a)) lst).
Proof.
  exists (normalize_type (a_type (pa_attrs a))). split; [done|]. split; [done|].
  split; [|split; [apply normalize_type_idem|intros lst; unfold desc_of_type; by rewrite normalize_type_idem]].
  apply normalize_no_alias.
Qed.

(** C31: A parameter stored under a legacy alias ["X texture"] of a
    canonical type [X] is written with type [X], in either layout. *)
Theorem legacy_alias_normalized `{FloatText} (a : ParamRec) b :
  canonical b = true -> a_type (pa_attrs a) = (b ++ texture_suffix)%string ->
  elem_attr "type" (emit_param0 a) = Some b /\ elem_attr "type" (emit_param1 a) = Some b.
Proof. intros Hb Ha. simpl. rewrite Ha, normalize_alias by done. done. Qed.

(** ** Witnesses *)

Definition ex_bad_doc : Xml := XElem "vrmat" [] [XElem "Asset" [] []].

Lemma load_sound_witness :
  dc_sound (DataContainer_Load ex_bad_doc ex_dc2).2 /\ dc_next ex_dc2 <= dc_next (DataContainer_Load ex_bad_doc ex_dc2).2.
Proof. exact (load_sound ex_bad_doc ex_dc2 ex_dc2_wf). Defined.

Lemma load_failure_empties_witness :
  (DataContainer_Load ex_bad_doc ex_dc2).2 = clear ex_dc2 /\
  dc_plugins (clear ex_dc2) = ∅ /\ dc_params (clear ex_dc2) = ∅ /\ dc_root (clear ex_dc2) = root_default /\
  dc_next (clear ex_dc2) = dc_next ex_dc2.
Proof. exact (load_failure_empties ex_bad_doc ex_dc2 eq_refl). Defined.

(** A bump parameter stored as a ["float texture"]. *)
Definition ex_alias_param : ParamRec := mkParamRec 1 (mkParamAttrs "bump" "float texture" false false) None.

Lemma legacy_alias_normalized_witness :
  elem_attr "type" (emit_param0 ex_alias_param) = Some "float" /\
  elem_attr "type" (emit_param1 ex_alias_param) = Some "float".
Proof. exact (legacy_alias_normalized ex_alias_param "float" eq_refl eq_refl). Defined.

(** A document listing two plugins named ["a"] loads both. *)
Definition ex_dup_doc : Xml :=
  XElem "vrmat" [("version", "1")]
    [XElem "plugin" [("name", "a"); ("type", "VRayMtl"); ("class", "material")] [];
     XElem "plugin" [("name", "a"); ("type", "TexBitmap"); ("class", "bitmap")] []].

Lemma load_names_unique_witness :
  (DataContainer_Load ex_dup_doc DataContainer_Create).1 = 1%Z /\
  ~ plugin_names_unique (DataContainer_Load ex_dup_doc DataContainer_Create).2.
Proof.
  assert (H1 : (DataContainer_Load ex_dup_doc DataContainer_Create).1 = 1%Z) by reflexivity.
  split; [exact H1|]. intros Hu.
  apply (proj2 (load_names_unique ex_dup_doc DataContainer_Create create_wf H1)) in Hu.
  revert Hu. vm_compute. intros Hnd. apply NoDup_cons in Hnd as [Hnd _]. apply Hnd. left.
Defined.


(** A plugin whose name holds markup characters. *)
Definition ex_text_doc : Xml :=
  XElem "vrmat" [("version", "1")]
    [XElem "plugin" [("name", "a&b<c>"); ("type", "VRayMtl"); ("class", "material")] []].

Lemma load_text_print_witness :
  xml_wf ex_text_doc = true /\
  DataContainer_Load_text (print ex_text_doc) (Z.of_nat (String.length (print ex_text_doc))) DataContainer_Create =
  DataContainer_Load ex_text_doc DataContainer_Create.
Proof. split; [reflexivity|]. apply load_text_print. reflexivity. Defined.

End Serializer.
