(* ===== verification/RoundTrip.v ===== *)
(** * Saving and loading a document

    What [DataContainer_Save] writes, [DataContainer_Load] reads back.
    [repr bv ver] is the document by names ([Doc.abs]) as layout [ver]
    records it: types in canonical spelling ([normalize_type]), every
    plugin version written out ([bv] when none was set), the category only
    in layout 1, no file name. The proof follows the parser: one
    parameter ([parse_param_step]), a plugin's parameters
    ([parse_params_fold]), one plugin ([parse_plugin_step]), all plugins
    ([parse_plugins_fold]), each step stated on the document by names.
    It counts the ids the parser hands out ([plugs_count]): one per
    element, at most the plugins and parameters saved. *)

From Stdlib Require Import ZArith Lia String.
From stdpp Require Import base decidable option list gmap.
From S2P Require Import Prelude TypeDesc Meta MetaKinds ValueStore Container Doc Xml XmlText Serialize.
Import TypeDesc MetaMapper MetaKinds ValueStore Container Doc Xml XmlText Serializer.

Open Scope Z_scope.
Local Open Scope vrmat_scope.

Module RoundTrip.

(** ** What a layout represents *)

Section Repr.
Context (bv : Z).

(** A parameter as it is read back: its type written canonically. *)
Definition repr_aparam (ap : AParam) : AParam :=
  let x := ap_attrs ap in
  mkAParam (mkParamAttrs (a_name x) (normalize_type (a_type x)) (a_custom x) (a_filePath x)) (ap_value ap).

(** A plugin as it is read back: its version written out. *)
Definition repr_pattrs (p : PluginAttrs) : PluginAttrs :=
  mkPluginAttrs (p_name p) (p_type p) (p_class p) (Some (default bv (p_version p))).

Definition repr_aplugin (pl : APlugin) : APlugin :=
  mkAPlugin (repr_pattrs (apl_attrs pl)) (repr_aparam <$> apl_params pl).

(** The root as it is read back from layout [ver]: the category only in
    layout 1, no file name. *)
Definition repr_root (ver : Z) (r : RootAttrs) : RootAttrs :=
  mkRootAttrs ver (if ver =? 1 then r_category r else None) (r_preview r) (r_tag r) None.

Definition repr (ver : Z) (d : ADoc) : ADoc :=
  mkADoc (repr_root ver (ad_root d)) (repr_aplugin <$> ad_plugins d).

End Repr.

(** A parameter's name, and the parameter as it is read back. *)
Definition pname (a : ParamRec) : string := a_name (pa_attrs a).
Definition prepr (a : ParamRec) : string * AParam := (pname a, repr_aparam (aparam a)).

(** A parameter's type string describes its value, and the value is not
    a list of no strings; [typed] asks it of every parameter. *)
Definition param_typed (a : ParamRec) : bool :=
  match pa_value a with
  | Some v =>
      bool_decide (desc_of_type (a_type (pa_attrs a)) (is_list (v_type v)) = Some (v_type v)) &&
      match v_data v with RawStrings [] => false | _ => true end
  | None => true
  end.

Definition typed (dc : DataContainer) : Prop := map_Forall (fun _ a => param_typed a = true) (dc_params dc).

#[export] Instance typed_dec dc : Decision (typed dc).
Proof. unfold typed. apply _. Defined.

Lemma typed_value dc i a v :
  typed dc -> dc_params dc !! i = Some a -> pa_value a = Some v ->
  desc_of_type (a_type (pa_attrs a)) (is_list (v_type v)) = Some (v_type v) /\ v_data v <> RawStrings [].
Proof.
  intros Hty Hi Hv. specialize (Hty i a Hi). unfold param_typed in Hty. rewrite Hv in Hty.
  apply andb_true_iff in Hty as [Hd%bool_decide_eq_true_1 Hs]. split; [done|]. by destruct (v_data v) as [|[]].
Qed.

(** ** Counting the ids the parser hands out *)

Section Count.
Local Open Scope nat_scope.
Context {A K B : Type} `{EqDecision K} (f : A -> K).

Lemma sum_list_with_plus (g h : K * B -> nat) ks :
  sum_list_with (fun kb => g kb + h kb) ks = sum_list_with g ks + sum_list_with h ks.
Proof. induction ks; simpl; lia. Qed.

Lemma sum_list_with_ext (g h : K * B -> nat) ks :
  (forall kb, g kb = h kb) -> sum_list_with g ks = sum_list_with h ks.
Proof. intros E. induction ks; simpl; congruence. Qed.

Lemma sum_list_with_one (ks : list (K * B)) : sum_list_with (fun _ => 1) ks = length ks.
Proof. induction ks; simpl; lia. Qed.

Lemma sum_list_with_zero (ks : list (K * B)) : sum_list_with (fun _ => 0) ks = 0.
Proof. induction ks; simpl; lia. Qed.

Lemma sum_hits_le x (ks : list (K * B)) :
  NoDup (fst <$> ks) -> sum_list_with (fun kb => if decide (f x = kb.1) then 1 else 0) ks <= 1.
Proof.
  induction ks as [|[k b] ks IH]; simpl; [lia|]. intros [Hk Hnd]%NoDup_cons.
  case_decide as E; [|auto]. subst k.
  enough (sum_list_with (fun kb => if decide (f x = kb.1) then 1 else 0) ks = 0) by lia.
  clear IH Hnd. induction ks as [|[k' b'] ks IH]; simpl; [done|].
  cbn [fmap list_fmap fst] in Hk. rewrite not_elem_of_cons in Hk. destruct Hk as [Hk Hks]. case_decide; simpl in *; [congruence|auto].
Qed.

(** Elements of [L] keyed by distinct keys number at most [length L]. *)
Lemma sum_filter_le (ks : list (K * B)) (L : list A) :
  NoDup (fst <$> ks) -> sum_list_with (fun kb => length (filter (fun x => f x = kb.1) L)) ks <= length L.
Proof.
  intros Hnd. induction L as [|x L IH]; simpl.
  - by rewrite sum_list_with_zero.
  - rewrite (sum_list_with_ext _ (fun kb => (if decide (f x = kb.1) then 1 else 0) +
                                            length (filter (fun y => f y = kb.1) L)))
      by (intros kb; rewrite filter_cons; by case_decide).
    rewrite sum_list_with_plus. pose proof (sum_hits_le x ks Hnd). lia.
Qed.

End Count.

Lemma sum_list_with_fmap {A B} (g : B -> nat) (f : A -> B) l :
  sum_list_with g (f <$> l) = sum_list_with (g ∘ f) l.
Proof. induction l as [|x l IH]; [done|]. rewrite fmap_cons. cbn [sum_list_with]. by rewrite IH. Qed.

(** ** Parsing what was emitted *)

Section Parse.
Context `{FloatTextLaws} (bv : Z).

Definition eparam (ver : Z) : ParamRec -> Xml := if ver =? 1 then emit_param1 else emit_param0.

Lemma flag_of_text_flag b : flag_of_text (flag_text b) = Some b.
Proof. by destruct b. Qed.

Lemma param_attrs_emit ver a :
  ver = 0 \/ ver = 1 ->
  exists tag attrs, eparam ver a = XElem tag attrs (values_of a) /\
    param_attrs ver tag attrs =
      Ok (a_name (pa_attrs a), normalize_type (a_type (pa_attrs a)), list_attr a,
          a_custom (pa_attrs a), a_filePath (pa_attrs a)).
Proof.
  intros [-> | ->]; eexists _, _; (split; [reflexivity|]); destruct a as [o [n t cu fp] v];
    cbn -[normalize_type]; rewrite ?flag_of_text_flag; cbn;
    destruct (list_attr _), cu, fp; reflexivity.
Qed.

(** ** The document through the parser's steps *)

Lemma abs_params_of_form c id p root P M :
  dc_wf c -> dc_plugins c !! id = Some p ->
  abs c = mkADoc root (<[p_name p := mkAPlugin p P]> M) -> abs_params (dc_params c) id = P.
Proof.
  intros Hwf Hp Habs. pose proof (abs_plugin_of _ _ _ Hwf Hp) as E.
  rewrite Habs in E. cbn [ad_plugins] in E. rewrite lookup_insert_eq in E. congruence.
Qed.

(** Replacing parameter [pid] of plugin [id], keeping its name, in a
    document of that form. *)
Lemma abs_form_replace c id p pid a b root P M :
  dc_wf c -> dc_wf (set_params (<[pid := b]> (dc_params c)) c) ->
  dc_plugins c !! id = Some p -> dc_params c !! pid = Some a -> pa_owner a = id -> pa_owner b = id ->
  a_name (pa_attrs b) = a_name (pa_attrs a) ->
  abs c = mkADoc root (<[p_name p := mkAPlugin p P]> M) ->
  abs (set_params (<[pid := b]> (dc_params c)) c) =
  mkADoc root (<[p_name p := mkAPlugin p (<[a_name (pa_attrs a) := aparam b]> P)]> M).
Proof.
  intros Hwf Hwf' Hp Ha Ho Hob Hn Habs. subst id.
  rewrite (abs_replace_param _ _ _ _ _ Hwf Hwf' Ha Hob Hn Hp).
  rewrite (abs_params_of_form _ _ _ _ _ _ Hwf Hp Habs).
  assert (Hr : dc_root c = root) by (change (dc_root c) with (ad_root (abs c)); by rewrite Habs).
  rewrite Hr, Habs. cbn [ad_plugins].
  by rewrite insert_insert_eq.
Qed.

Lemma set_meta_filepath x :
  set_meta (meta_one ParamFilePath (FInt 1)) x = Ok (mkParamAttrs (a_name x) (a_type x) (a_custom x) true).
Proof. by destruct x. Qed.

Lemma set_meta_version p z :
  set_meta (meta_one PluginVersion (FInt z)) p = Ok (mkPluginAttrs (p_name p) (p_type p) (p_class p) (Some z)).
Proof. by destruct p. Qed.

Lemma flag_of_int_of_flag b : flag_of_int (int_of_flag b) = b.
Proof. by destruct b. Qed.

Lemma root_of_form c root Q : abs c = mkADoc root Q -> dc_root c = root.
Proof. intros Habs. change (dc_root c) with (ad_root (abs c)). by rewrite Habs. Qed.

(** [AddParameter] of a fresh name in plugin [id]. *)
Lemma form_add c id p root P M n t k :
  dc_wf c -> dc_plugins c !! id = Some p -> abs c = mkADoc root (<[p_name p := mkAPlugin p P]> M) ->
  P !! n = None -> n <> ""%string -> dc_next c <= u32_max ->
  exists c1, DataContainer_AddParameter id (Some n) (Some t) k c = Ok (dc_next c, c1) /\ dc_wf c1 /\
    dc_plugins c1 = dc_plugins c /\ dc_root c1 = dc_root c /\ dc_next c1 = dc_next c + 1 /\
    dc_params c1 !! dc_next c = Some (mkParamRec id (mkParamAttrs n t (flag_of_int k) false) None) /\
    abs c1 = mkADoc root (<[p_name p := mkAPlugin p
               (<[n := mkAParam (mkParamAttrs n t (flag_of_int k) false) None]> P)]> M).
Proof.
  intros Hwf Hp Habs HP Hn Hmax. pose proof (abs_params_of_form _ _ _ _ _ _ Hwf Hp Habs) as HPc.
  assert (Hfree : param_named c id n = None) by (apply abs_params_None; [done|by rewrite HPc]).
  assert (E : DataContainer_AddParameter id (Some n) (Some t) k c =
    Ok (dc_next c, mkDC (dc_root c) (dc_plugins c)
      (<[dc_next c := mkParamRec id (mkParamAttrs n t (flag_of_int k) false) None]> (dc_params c)) (dc_next c + 1)))
    by (apply add_parameter_Ok; exists n, t; eauto 10).
  eexists; split; [exact E|]. split; [exact (add_parameter_wf _ _ _ _ _ _ _ Hwf E)|].
  cbn [dc_plugins dc_root dc_next dc_params]. rewrite lookup_insert_eq. do 4 (split; [done|]).
  rewrite (abs_add_param _ _ _ _ _ _ _ _ Hwf Hp E), HPc, (root_of_form _ _ _ Habs), Habs.
  cbn [ad_plugins]. by rewrite insert_insert_eq.
Qed.

(** Replacing parameter [i] of plugin [id] by a record of the same name. *)
Lemma form_replace c id p i a b root P M :
  dc_wf c -> dc_wf (set_params (<[i := b]> (dc_params c)) c) ->
  dc_plugins c !! id = Some p -> dc_params c !! i = Some a -> pa_owner a = id -> pa_owner b = id ->
  a_name (pa_attrs b) = a_name (pa_attrs a) ->
  abs c = mkADoc root (<[p_name p := mkAPlugin p (<[a_name (pa_attrs a) := aparam a]> P)]> M) ->
  abs (set_params (<[i := b]> (dc_params c)) c) =
  mkADoc root (<[p_name p := mkAPlugin p (<[a_name (pa_attrs a) := aparam b]> P)]> M).
Proof.
  intros Hwf Hwf' Hp Ha Ho Hob Hn Habs.
  rewrite (abs_form_replace _ _ _ _ _ _ _ _ _ Hwf Hwf' Hp Ha Ho Hob Hn Habs). by rewrite insert_insert_eq.
Qed.

(** Setting the file-path flag of parameter [i]. *)
Lemma form_filepath c id p i x root P M :
  dc_wf c -> dc_plugins c !! id = Some p -> dc_params c !! i = Some (mkParamRec id x None) ->
  abs c = mkADoc root (<[p_name p := mkAPlugin p (<[a_name x := mkAParam x None]> P)]> M) ->
  let x' := mkParamAttrs (a_name x) (a_type x) (a_custom x) true in
  exists c2, DataContainer_SetMeta i (meta_one ParamFilePath (FInt 1)) c = Ok c2 /\ dc_wf c2 /\
    dc_plugins c2 = dc_plugins c /\ dc_root c2 = dc_root c /\ dc_next c2 = dc_next c /\
    dc_params c2 !! i = Some (mkParamRec id x' None) /\
    abs c2 = mkADoc root (<[p_name p := mkAPlugin p (<[a_name x := mkAParam x' None]> P)]> M).
Proof.
  intros Hwf Hp Ha Habs x'.
  pose proof (set_meta_param_keep _ _ _ _ _ Hwf Ha (set_meta_filepath x) eq_refl) as E.
  eexists; split; [exact E|]. pose proof (set_meta_wf_keep _ _ _ _ Hwf E eq_refl) as Hwf'.
  split; [done|]. cbn [dc_plugins dc_root dc_next dc_params set_params]. rewrite lookup_insert_eq.
  do 4 (split; [done|]). exact (form_replace _ _ _ _ _ _ _ _ _ Hwf Hwf' Hp Ha eq_refl eq_refl eq_refl Habs).
Qed.

(** Storing value [v] in parameter [i]. *)
Lemma form_set_value c id p i x v root P M :
  dc_wf c -> dc_plugins c !! id = Some p -> dc_params c !! i = Some (mkParamRec id x None) -> value_wf v ->
  abs c = mkADoc root (<[p_name p := mkAPlugin p (<[a_name x := mkAParam x None]> P)]> M) ->
  exists c3, DataContainer_SetValue i (v_data v) (type_word (v_type v)) (list_length_arg (v_type v) (v_count v)) c = Ok c3 /\
    dc_wf c3 /\ dc_plugins c3 = dc_plugins c /\ dc_root c3 = dc_root c /\ dc_next c3 = dc_next c /\
    abs c3 = mkADoc root (<[p_name p := mkAPlugin p (<[a_name x := mkAParam x (Some v)]> P)]> M).
Proof.
  intros Hwf Hp Ha Hv Habs.
  assert (E : DataContainer_SetValue i (v_data v) (type_word (v_type v)) (list_length_arg (v_type v) (v_count v)) c =
    Ok (set_params (<[i := set_value (Some v) (mkParamRec id x None)]> (dc_params c)) c))
    by (apply set_value_Ok; exists (mkParamRec id x None), v; auto using make_value_of_wf).
  eexists; split; [exact E|]. pose proof (set_value_wf _ _ _ _ _ _ Hwf E) as Hwf'.
  split; [done|]. do 3 (split; [done|]).
  exact (form_replace _ _ _ _ _ _ _ _ _ Hwf Hwf' Hp Ha eq_refl eq_refl eq_refl Habs).
Qed.

Lemma desc_of_type_normalize t l : desc_of_type (normalize_type t) l = desc_of_type t l.
Proof. unfold desc_of_type. by rewrite normalize_type_idem. Qed.

Lemma value_elems_cons v : v_data v <> RawStrings [] -> exists y ys, value_elems v = y :: ys.
Proof. unfold value_elems. destruct (v_data v) as [ws|[|s ss]]; [eauto|done|eauto]. Qed.

(** A parameter the layouts can carry: a name, and a value its type
    string describes. *)
Definition param_ok (a : ParamRec) : Prop :=
  a_name (pa_attrs a) <> ""%string /\
  forall v, pa_value a = Some v ->
    value_wf v /\ desc_of_type (a_type (pa_attrs a)) (is_list (v_type v)) = Some (v_type v) /\
    v_data v <> RawStrings [].

(** The steps of [parse_param] before the value: [AddParameter], then
    [SetMeta] of the file-path flag when it is set. *)
Lemma parse_param_head c id p root P M n t cu fp :
  dc_wf c -> dc_plugins c !! id = Some p -> abs c = mkADoc root (<[p_name p := mkAPlugin p P]> M) ->
  P !! n = None -> n <> ""%string -> dc_next c <= u32_max ->
  let x := mkParamAttrs n t cu fp in
  exists c1 c2, DataContainer_AddParameter id (Some n) (Some t) (int_of_flag cu) c = Ok (dc_next c, c1) /\
    (if fp then pe (DataContainer_SetMeta (dc_next c) (meta_one ParamFilePath (FInt 1)) c1) else Ok c1) = Ok c2 /\
    dc_wf c2 /\ dc_plugins c2 = dc_plugins c /\ dc_root c2 = dc_root c /\ dc_next c2 = dc_next c + 1 /\
    dc_params c2 !! dc_next c = Some (mkParamRec id x None) /\
    abs c2 = mkADoc root (<[p_name p := mkAPlugin p (<[n := mkAParam x None]> P)]> M).
Proof.
  intros Hwf Hp Habs HP Hn Hmax x.
  destruct (form_add c id p root P M n t (int_of_flag cu)) as (c1 & E1 & Hwf1 & Hp1 & Hr1 & Hn1 & Ha1 & Habs1);
    [done..|].
  exists c1. rewrite flag_of_int_of_flag in Ha1, Habs1.
  destruct fp; [|eexists; by split].
  destruct (form_filepath c1 id p (dc_next c) (mkParamAttrs n t cu false) root P M)
    as (c2 & E2 & Hwf2 & Hp2 & Hr2 & Hn2 & Ha2 & Habs2); [by rewrite ?Hp1..|].
  exists c2. split; [done|]. split; [by rewrite E2|]. split; [done|]. split; [congruence|]. split; [congruence|].
  split; [congruence|]. done.
Qed.

(** An emitted parameter parses back into plugin [id]: one new id, and
    the plugin's parameters gain it, its type written canonically. *)
Lemma parse_param_step ver id a c p root P M :
  ver = 0 \/ ver = 1 -> param_ok a ->
  dc_wf c -> dc_plugins c !! id = Some p -> abs c = mkADoc root (<[p_name p := mkAPlugin p P]> M) ->
  P !! a_name (pa_attrs a) = None -> dc_next c <= u32_max ->
  exists c', parse_param ver id (eparam ver a) c = Ok c' /\ dc_wf c' /\
    dc_plugins c' = dc_plugins c /\ dc_root c' = dc_root c /\ dc_next c' = dc_next c + 1 /\
    abs c' = mkADoc root (<[p_name p := mkAPlugin p (<[a_name (pa_attrs a) := repr_aparam (aparam a)]> P)]> M).
Proof.
  intros Hver [Hn Hv] Hwf Hp Habs HP Hmax.
  destruct (param_attrs_emit ver a Hver) as (tag & attrs & -> & Hpa). unfold parse_param. rewrite Hpa.
  cbn [rbind]. destruct a as [o [n t cu fp] va]. cbn [pa_attrs pa_value a_name a_type a_custom a_filePath] in *.
  destruct (parse_param_head c id p root P M n (normalize_type t) cu fp)
    as (c1 & c2 & E1 & E2 & Hwf2 & Hp2 & Hr2 & Hn2 & Ha2 & Habs2); [done..|].
  rewrite E1. cbn [pe rbind]. rewrite E2. cbn [rbind].
  destruct va as [v|]; [|by exists c2].
  destruct (Hv v eq_refl) as (Hvw & Hd & Hne). unfold values_of. cbn [pa_value].
  change (default [] (value_elems <$> Some v)) with (value_elems v).
  destruct (value_elems_cons v Hne) as (y & ys & Hys).
  pose proof (value_text_parse v Hvw Hne) as Htp. rewrite Hys in Htp |- *.
  apply bind_Some in Htp as (texts & Et & Epv).
  cbn [list_attr pa_value]. rewrite desc_of_type_normalize, Hd. cbn [req of_option rbind].
  rewrite Et. cbn [req of_option rbind]. rewrite Epv. cbn [req of_option rbind fst snd].
  destruct (form_set_value c2 id p (dc_next c) (mkParamAttrs n (normalize_type t) cu fp) v root P M)
    as (c3 & E3 & Hwf3 & Hp3 & Hr3 & Hn3 & Habs3); [by rewrite ?Hp2..|].
  rewrite E3. exists c3. split; [done|]. split; [done|]. split; [congruence|]. split; [congruence|].
  split; [congruence|]. done.
Qed.

Lemma rfold_cons {A} (f : A -> DataContainer -> result DataContainer) x xs c :
  rfold f (x :: xs) c = (c1 <- f x c ;; rfold f xs c1).
Proof. done. Qed.

(** The map [m1 ∪ <[k := x]> m2] when [k] is not in [m1]. *)
Lemma union_insert_fresh {A} (m1 m2 : gmap string A) k x :
  m1 !! k = None -> m1 ∪ <[k := x]> m2 = <[k := x]> m1 ∪ m2.
Proof. intros Hk. by rewrite <- insert_union_r, insert_union_l. Qed.

(** A plugin's emitted parameters parse back one after the other. *)
Lemma parse_params_fold ver id p root M As : forall c P,
  ver = 0 \/ ver = 1 -> Forall param_ok As -> NoDup (pname <$> As) ->
  Forall (fun a => P !! pname a = None) As ->
  dc_wf c -> dc_plugins c !! id = Some p -> abs c = mkADoc root (<[p_name p := mkAPlugin p P]> M) ->
  dc_next c + Z.of_nat (length As) <= u32_max + 1 ->
  exists c', rfold (parse_param ver id) (eparam ver <$> As) c = Ok c' /\ dc_wf c' /\
    dc_plugins c' = dc_plugins c /\ dc_root c' = dc_root c /\ dc_next c' = dc_next c + Z.of_nat (length As) /\
    abs c' = mkADoc root (<[p_name p := mkAPlugin p (list_to_map (prepr <$> As) ∪ P)]> M).
Proof.
  induction As as [|a As IH]; intros c P Hver Hok Hnd HP Hwf Hp Habs Hmax.
  - exists c. cbn [fmap list_fmap length rfold]. rewrite list_to_map_nil, map_empty_union, Z.add_0_r. done.
  - apply Forall_cons in Hok as [Ha Hok]. apply Forall_cons in HP as [HPa HP].
    cbn [fmap list_fmap] in Hnd. apply NoDup_cons in Hnd as [Hnin Hnd]. cbn [length] in Hmax.
    destruct (parse_param_step ver id a c p root P M) as (c1 & E1 & Hwf1 & Hp1 & Hr1 & Hn1 & Habs1);
      [done..|lia|].
    destruct (IH c1 (<[pname a := repr_aparam (aparam a)]> P)) as (c2 & E2 & Hwf2 & Hp2 & Hr2 & Hn2 & Habs2);
      [done|done|done| |done|congruence|done|lia|].
    { apply Forall_forall. intros b Hb. rewrite lookup_insert_ne; [by eapply Forall_forall in HP|].
      intros Heq. apply Hnin. rewrite Heq. by apply list_elem_of_fmap_2. }
    exists c2. cbn [fmap list_fmap]. rewrite rfold_cons, E1. cbn [rbind]. rewrite E2.
    do 4 (split; [done || congruence|]). split; [cbn [length]; lia|].
    rewrite Habs2. change (prepr a) with (pname a, repr_aparam (aparam a)). rewrite list_to_map_cons, <- union_insert_fresh; [done|].
    apply not_elem_of_list_to_map. rewrite <- list_fmap_compose. done.
Qed.

Definition eplugin (ver : Z) : PluginAttrs -> list Xml -> Xml :=
  if ver =? 1 then emit_plugin1 bv else emit_plugin0 bv.

Lemma plugin_parts_emit ver p params :
  ver = 0 \/ ver = 1 ->
  plugin_parts ver (eplugin ver p params) = Ok (p_name p, p_type p, p_class p, Some (z_text (default bv (p_version p))), params).
Proof. by intros [-> | ->]. Qed.

(** [AddPlugin] of a fresh name, then [SetMeta] of the version. *)
Lemma form_add_plugin c root M p z :
  dc_wf c -> abs c = mkADoc root M -> M !! p_name p = None -> dc_next c <= u32_max ->
  let p1 := mkPluginAttrs (p_name p) (p_type p) (p_class p) (Some z) in
  exists c1 c2, DataContainer_AddPlugin (Some (p_name p)) (Some (p_type p)) (Some (p_class p)) c = Ok (dc_next c, c1) /\
    DataContainer_SetMeta (dc_next c) (meta_one PluginVersion (FInt z)) c1 = Ok c2 /\
    dc_wf c2 /\ dc_plugins c2 !! dc_next c = Some p1 /\ dc_root c2 = dc_root c /\ dc_next c2 = dc_next c + 1 /\
    abs c2 = mkADoc root (<[p_name p := mkAPlugin p1 ∅]> M).
Proof.
  intros Hwf Habs HM Hmax p1. set (p0 := mkPluginAttrs (p_name p) (p_type p) (p_class p) None).
  assert (Hfree : plugin_named c (p_name p) = None) by (apply abs_plugins_None; [done|by rewrite Habs]).
  set (c1 := mkDC (dc_root c) (<[dc_next c := p0]> (dc_plugins c)) (dc_params c) (dc_next c + 1)).
  assert (E1 : DataContainer_AddPlugin (Some (p_name p)) (Some (p_type p)) (Some (p_class p)) c = Ok (dc_next c, c1))
    by (apply add_plugin_Ok; do 3 eexists; eauto 10).
  pose proof (add_plugin_wf _ _ _ _ _ _ Hwf E1 Hfree) as Hwf1.
  assert (Hp1 : dc_plugins c1 !! dc_next c = Some p0) by apply lookup_insert_eq.
  pose proof (abs_add_plugin _ _ _ _ _ _ Hwf E1 Hfree) as Habs1. unfold a_add_plugin in Habs1.
  rewrite Habs in Habs1. cbn [ad_plugins ad_root] in Habs1.
  pose proof (set_meta_plugin_keep _ _ _ _ _ Hwf1 Hp1 (set_meta_version p0 z)) as E2.
  pose proof (set_meta_wf_keep _ _ _ _ Hwf1 E2 eq_refl) as Hwf2.
  eexists c1, _. split; [done|]. split; [exact E2|]. split; [done|].
  split; [apply lookup_insert_eq|]. do 2 (split; [done|]).
  rewrite (abs_replace_plugin _ _ _ _ Hwf1 Hwf2 Hp1 eq_refl), Habs1.
  rewrite (abs_params_of_form c1 (dc_next c) p0 root ∅ M Hwf1 Hp1 Habs1). cbn [ad_plugins].
  change (dc_root c1) with (dc_root c). by rewrite insert_insert_eq, (root_of_form _ _ _ Habs).
Qed.

(** An emitted plugin parses back: one id for it and one per parameter,
    and the document gains it with its version written out. *)
Lemma parse_plugin_step ver p As c root M :
  ver = 0 \/ ver = 1 -> Forall param_ok As -> NoDup (pname <$> As) ->
  dc_wf c -> abs c = mkADoc root M -> M !! p_name p = None ->
  dc_next c + Z.of_nat (S (length As)) <= u32_max + 1 ->
  exists c', parse_plugin ver (eplugin ver p (eparam ver <$> As)) c = Ok c' /\ dc_wf c' /\
    dc_root c' = dc_root c /\ dc_next c' = dc_next c + Z.of_nat (S (length As)) /\
    abs c' = mkADoc root (<[p_name p := mkAPlugin (repr_pattrs bv p) (list_to_map (prepr <$> As))]> M).
Proof.
  intros Hver Hok Hnd Hwf Habs HM Hmax. unfold parse_plugin. rewrite plugin_parts_emit by done.
  cbn [rbind]. destruct (form_add_plugin c root M p (default bv (p_version p)))
    as (c1 & c2 & E1 & E2 & Hwf2 & Hp2 & Hr2 & Hn2 & Habs2); [done..|lia|].
  rewrite E1. cbn [pe rbind]. rewrite z_of_text_z_text. cbn [req of_option rbind]. rewrite E2. cbn [pe rbind].
  destruct (parse_params_fold ver (dc_next c) (repr_pattrs bv p) root M As c2 ∅)
    as (c' & E3 & Hwf3 & _ & Hr3 & Hn3 & Habs3); [done|done|done|by apply Forall_true|done..|lia|].
  exists c'. rewrite map_union_empty in Habs3. split; [done|]. split; [done|]. split; [congruence|].
  split; [lia|done].
Qed.

(** A plugin with its parameters, as [emit] walks them. *)
Definition plname (pa : PluginAttrs * list ParamRec) : string := p_name pa.1.
Definition plug_ok (pa : PluginAttrs * list ParamRec) : Prop :=
  Forall param_ok pa.2 /\ NoDup (pname <$> pa.2).
Definition plug_repr (pa : PluginAttrs * list ParamRec) : string * APlugin :=
  (plname pa, mkAPlugin (repr_pattrs bv pa.1) (list_to_map (prepr <$> pa.2))).
Definition plug_xml (ver : Z) (pa : PluginAttrs * list ParamRec) : Xml :=
  eplugin ver pa.1 (eparam ver <$> pa.2).
Definition plug_count (pa : PluginAttrs * list ParamRec) : nat := S (length pa.2).

(** The emitted plugins parse back one after the other. *)
Lemma parse_plugins_fold ver root Ps : forall c M,
  ver = 0 \/ ver = 1 -> Forall plug_ok Ps -> NoDup (plname <$> Ps) ->
  Forall (fun pa => M !! plname pa = None) Ps ->
  dc_wf c -> abs c = mkADoc root M -> dc_next c + Z.of_nat (sum_list_with plug_count Ps) <= u32_max + 1 ->
  exists c', rfold (parse_plugin ver) (plug_xml ver <$> Ps) c = Ok c' /\ dc_wf c' /\
    dc_root c' = dc_root c /\ dc_next c' = dc_next c + Z.of_nat (sum_list_with plug_count Ps) /\
    abs c' = mkADoc root (list_to_map (plug_repr <$> Ps) ∪ M).
Proof.
  induction Ps as [|[p As] Ps IH]; intros c M Hver Hok Hnd HM Hwf Habs Hmax.
  - exists c. cbn [fmap list_fmap sum_list_with rfold]. rewrite list_to_map_nil, map_empty_union, Z.add_0_r. done.
  - apply Forall_cons in Hok as [(Hpok & Hpnd) Hok]. apply Forall_cons in HM as [HMp HM].
    cbn [fmap list_fmap] in Hnd. apply NoDup_cons in Hnd as [Hnin Hnd]. cbn [sum_list_with] in Hmax.
    change (plug_count (p, As)) with (S (length As)) in Hmax.
    destruct (parse_plugin_step ver p As c root M) as (c1 & E1 & Hwf1 & Hr1 & Hn1 & Habs1); [done..|lia|].
    destruct (IH c1 (<[p_name p := mkAPlugin (repr_pattrs bv p) (list_to_map (prepr <$> As))]> M))
      as (c2 & E2 & Hwf2 & Hr2 & Hn2 & Habs2); [done|done|done| |done|done|lia|].
    { apply Forall_forall. intros pa Hpa. rewrite lookup_insert_ne; [by eapply Forall_forall in HM|].
      intros Heq. apply Hnin. change (plname (p, As)) with (p_name p). rewrite Heq.
      by apply list_elem_of_fmap_2. }
    exists c2. cbn [fmap list_fmap]. rewrite rfold_cons. unfold plug_xml at 1. cbn [fst snd].
    rewrite E1. cbn [rbind]. rewrite E2.
    do 2 (split; [done|]). split; [congruence|]. split; [cbn [sum_list_with]; change (plug_count (p, As)) with (S (length As)); lia|].
    rewrite Habs2. change (plug_repr (p, As)) with (p_name p, mkAPlugin (repr_pattrs bv p) (list_to_map (prepr <$> As))).
    rewrite list_to_map_cons, <- union_insert_fresh; [done|].
    apply not_elem_of_list_to_map. rewrite <- list_fmap_compose. done.
Qed.

(** The plugins with their parameters in the order [emit] walks them. *)
Definition plugs (dc : DataContainer) : list (PluginAttrs * list ParamRec) :=
  (fun ip : Z * PluginAttrs => (ip.2, snd <$> params_of (dc_params dc) ip.1)) <$> map_to_list (dc_plugins dc).

(** The root element's attributes in layout [ver]. *)
Definition root_attrs (ver : Z) (r : RootAttrs) : list (string * string) :=
  app (if ver =? 1 then ("version", "1")%string :: opt_attr "category" (r_category r) else [])
    (opt_attr "preview" (r_preview r)).

Lemma emit_plugs ver dc :
  emit bv ver dc = XElem (r_tag (dc_root dc)) (root_attrs ver (dc_root dc)) (plug_xml ver <$> plugs dc).
Proof.
  unfold emit, plugs. f_equal. rewrite <- list_fmap_compose. apply list_fmap_ext. intros _ [i p] _.
  unfold plug_xml. cbn [fst snd compose]. by rewrite list_fmap_compose.
Qed.

Lemma root_attrs_parse ver r :
  ver = 0 \/ ver = 1 ->
  doc_version (root_attrs ver r) = Ok ver /\
  (if ver =? 1 then attr "category" (root_attrs ver r) else None) = (if ver =? 1 then r_category r else None) /\
  attr "preview" (root_attrs ver r) = r_preview r.
Proof. unfold root_attrs. intros [-> | ->]; destruct (r_category r), (r_preview r); repeat split. Qed.

Lemma plugs_ok dc : dc_wf dc -> typed dc -> Forall plug_ok (plugs dc).
Proof.
  intros Hwf Hty. apply Forall_forall. intros pa ([i p] & -> & Hi%elem_of_map_to_list)%list_elem_of_fmap.
  unfold plug_ok. cbn [fst snd]. split.
  - apply Forall_forall. intros a ([j b] & -> & [_ Hj%elem_of_map_to_list]%list_elem_of_filter)%list_elem_of_fmap.
    split; [exact (wf_param_name_ne _ Hwf _ _ Hj)|]. intros v Hv.
    destruct (typed_value _ _ _ _ Hty Hj Hv). split; [exact (wf_values _ Hwf _ _ _ Hj Hv)|done].
  - rewrite <- list_fmap_compose. apply NoDup_fmap_2_strong; [by apply params_of_inj|].
    apply NoDup_filter, NoDup_map_to_list.
Qed.

Lemma plugs_nodup dc : dc_wf dc -> NoDup (plname <$> plugs dc).
Proof.
  intros Hwf. unfold plugs. rewrite <- list_fmap_compose.
  apply NoDup_fmap_2_strong; [by apply plugins_inj|apply NoDup_map_to_list].
Qed.

Lemma plugs_count dc : dc_wf dc ->
  (sum_list_with plug_count (plugs dc) <= size (dc_plugins dc) + size (dc_params dc))%nat.
Proof.
  intros Hwf. unfold plugs, plug_count. rewrite sum_list_with_fmap. cbn [fst snd].
  rewrite (sum_list_with_ext _ (fun ip => 1 + length (filter (fun x => pa_owner x.2 = ip.1) (map_to_list (dc_params dc))))%nat)
    by (intros ip; unfold compose, params_of; cbn [fst snd]; by rewrite length_fmap).
  rewrite sum_list_with_plus, sum_list_with_one, length_map_to_list.
  pose proof (sum_filter_le (fun x : Z * ParamRec => pa_owner x.2) (map_to_list (dc_plugins dc))
    (map_to_list (dc_params dc)) (NoDup_fst_map_to_list _)) as Hle.
  rewrite length_map_to_list in Hle. lia.
Qed.

Lemma abs_plugs dc : list_to_map (plug_repr <$> plugs dc) = repr_aplugin bv <$> ad_plugins (abs dc).
Proof.
  unfold abs, plugs. cbn [ad_plugins]. rewrite <- list_to_map_fmap, <- !list_fmap_compose.
  f_equal. apply list_fmap_ext. intros _ [i p] _. unfold plug_repr, repr_aplugin, abs_params, plname, compose.
  cbn [fst snd prod_map apl_attrs apl_params]. rewrite <- list_to_map_fmap, <- !list_fmap_compose. done.
Qed.

Lemma save_Ok dc ver x :
  DataContainer_Save bv dc ver = Ok x -> (ver = 0 \/ ver = 1) /\ x = emit bv ver dc.
Proof.
  unfold DataContainer_Save. destruct (Z.eqb_spec ver 0), (Z.eqb_spec ver 1); simpl; intros; simplify_eq; naive_solver.
Qed.

(** Loading starts from the emptied container with the root set. *)
Lemma abs_root_clear R dc : abs (set_root R (clear dc)) = mkADoc R ∅.
Proof. unfold abs. cbn. by rewrite map_to_list_empty. Qed.

(** ** The round trip *)

(** What [emit] wrote in layout 0 or 1 loads back as [repr] of the
    document. *)
Lemma load_emit ver dc dc0 :
  ver = 0 \/ ver = 1 -> dc_wf dc -> typed dc -> dc_wf dc0 ->
  dc_next dc0 + Z.of_nat (size (dc_plugins dc) + size (dc_params dc)) <= u32_max + 1 ->
  exists dc', DataContainer_Load (emit bv ver dc) dc0 = (1, dc') /\ dc_wf dc' /\ abs dc' = repr bv ver (abs dc).
Proof.
  intros Hver Hwf Hty Hwf0 Hmax. destruct (wf_root _ Hwf) as [_ Htag].
  destruct (root_attrs_parse ver (dc_root dc) Hver) as (Hv & Hc & Hp).
  unfold DataContainer_Load. rewrite emit_plugs. cbn [parse_doc].
  rewrite bool_decide_eq_true_2 by done. cbn [ensure rbind]. rewrite Hv. cbn [rbind]. rewrite Hc, Hp.
  change (mkRootAttrs ver _ _ _ None) with (repr_root ver (dc_root dc)).
  assert (Hwf1 : dc_wf (set_root (repr_root ver (dc_root dc)) (clear dc0))).
  { apply set_root_wf; [exact (clear_wf _ Hwf0)|]. split; [done|exact Htag]. }
  pose proof (plugs_count dc Hwf).
  destruct (parse_plugins_fold ver (repr_root ver (dc_root dc)) (plugs dc) _ ∅ Hver (plugs_ok dc Hwf Hty)
      (plugs_nodup dc Hwf) (Forall_true _ _ (fun _ => lookup_empty _)) Hwf1 (abs_root_clear _ _))
    as (c' & E & Hwf' & _ & _ & Habs'); [cbn [dc_next set_root clear]; lia|].
  rewrite E. exists c'. split; [done|]. split; [done|].
  by rewrite Habs', map_union_empty, abs_plugs.
Qed.

(** ** The round trip *)

(** C28: A document saved in layout 0 or 1 loads back into any container
    as the same document by names, up to what the layout records: types
    written canonically, every plugin version written out, the category
    only in layout 1, no file name. It needs every parameter's type to
    describe its value ([typed]) and enough ids left below [u32_max]. *)
Theorem save_load_roundtrip ver dc dc0 x :
  dc_wf dc -> typed dc -> dc_wf dc0 ->
  dc_next dc0 + Z.of_nat (size (dc_plugins dc) + size (dc_params dc)) <= u32_max + 1 ->
  DataContainer_Save bv dc ver = Ok x ->
  exists dc', DataContainer_Load x dc0 = (1, dc') /\ dc_wf dc' /\ abs dc' = repr bv ver (abs dc).
Proof. intros Hwf Hty Hwf0 Hmax (Hver & ->)%save_Ok. exact (load_emit ver dc dc0 Hver Hwf Hty Hwf0 Hmax). Qed.

End Parse.

(** ** Loading builds typed containers *)

(** What [typed] looks at in a parameter: its type string and value. *)
Definition tv (a : ParamRec) : string * option Value := (a_type (pa_attrs a), pa_value a).

Definition tv_typed (p : string * option Value) : bool :=
  match p.2 with
  | Some v =>
      bool_decide (desc_of_type p.1 (is_list (v_type v)) = Some (v_type v)) &&
      match v_data v with RawStrings [] => false | _ => true end
  | None => true
  end.

Lemma param_typed_tv a : param_typed a = tv_typed (tv a).
Proof. done. Qed.

(** Two parameter tables with the same types and values. *)
Lemma typed_tv c c' : tv <$> dc_params c' = tv <$> dc_params c -> typed c -> typed c'.
Proof.
  intros E Hty i a Hi.
  assert (Hb : (tv <$> dc_params c) !! i = Some (tv a)) by (by rewrite <- E, lookup_fmap, Hi).
  apply lookup_fmap_Some in Hb as (b & Hab & Hb). rewrite param_typed_tv, <- Hab, <- param_typed_tv.
  exact (Hty i b Hb).
Qed.

Lemma typed_insert c i a : typed c -> param_typed a = true -> typed (set_params (<[i := a]> (dc_params c)) c).
Proof. intros Hty Ha. by apply map_Forall_insert_2. Qed.

Lemma param_set_meta_type m x x' :
  in_mask ParamType (mask m) = false -> set_meta m x = Ok x' -> a_type x' = a_type x.
Proof.
  unfold set_meta. destruct (scope_ok _ _); [|done]. intros Hg Hs%of_option_Ok.
  pose proof (store_fields_frame m _ x x' ParamType Hs (or_intror Hg)) as E. simpl in E. congruence.
Qed.

(** A [SetMeta] that writes no parameter type keeps every type and value. *)
Lemma set_meta_tv e m c c' :
  in_mask ParamType (mask m) = false -> DataContainer_SetMeta e m c = Ok c' ->
  tv <$> dc_params c' = tv <$> dc_params c.
Proof.
  intros Hm [(_ & r & _ & ->)|[(_ & p & p' & _ & _ & ->)|(_ & _ & a & x & Ea & Ex & _ & ->)]]%set_meta_Ok;
    [done|done|]. cbn [dc_params set_params].
  rewrite fmap_insert. apply insert_id. rewrite lookup_fmap, Ea. simpl. unfold tv. simpl.
  by rewrite (param_set_meta_type _ _ _ Hm Ex).
Qed.

Lemma desc_of_type_list ty lst t : desc_of_type ty lst = Some t -> is_list t = lst.
Proof.
  unfold desc_of_type. intros (rs & _ & ->)%fmap_Some. unfold is_list. simpl.
  by destruct lst.
Qed.

Section Typed.
Context `{FloatText}.

(** A string list read from [<value>] elements has at least one entry. *)
Lemma parse_value_count t texts ss n :
  parse_value t texts = Some (RawStrings ss, n) -> texts <> [] -> is_list t = true -> 1 <= n.
Proof.
  unfold parse_value. intros E Hne Hl. destruct (td_rdt t).
  all: try (rewrite Hl in E; cbn in E; injection E as _ <-; destruct texts; [done|]; simpl; lia).
  all: destruct texts as [|s [|]]; try done; destruct (mapM _ _); simpl in E; [|done]; by case_match.
Qed.

(** The value [parse_param] stores has the descriptor the stored type
    string names, and is not a list of no strings. *)
Lemma set_value_typed c id a ty lst t texts dv c' :
  typed c -> dc_params c !! id = Some a -> a_type (pa_attrs a) = ty -> desc_of_type ty lst = Some t ->
  parse_value t texts = Some dv -> texts <> [] ->
  DataContainer_SetValue id dv.1 (type_word t) dv.2 c = Ok c' -> typed c'.
Proof.
  intros Hty Ha Hta Hd Hp Hne (a' & v & Ha' & Hv & ->)%set_value_Ok. rewrite Ha in Ha'. injection Ha' as <-.
  apply typed_insert; [done|]. destruct (make_value_Ok _ _ _ _ Hv) as (Hdec & _ & _ & Hc & _ & Hdat).
  rewrite decode_type_word in Hdec. injection Hdec as Ht. unfold param_typed. cbn [pa_value set_value pa_attrs].
  rewrite <- Ht, Hta, (desc_of_type_list _ _ _ Hd), Hd, bool_decide_eq_true_2 by done. simpl.
  destruct (v_data v) as [ws|[|s ss']] eqn:Ed; [done| |done]. exfalso.
  rewrite <- Ht in Hdat. destruct (td_rdt t) eqn:Er, dv as [[ws|ss] n]; simpl in Hdat; try done.
  all: try (destruct Hdat as (_ & _ & Hd'); congruence).
  destruct Hdat as [Hle Hd'].
  assert (Hn : 1 <= entry_count t n).
  { unfold entry_count. destruct (is_list t) eqn:Hl; [|lia]. exact (parse_value_count _ _ _ _ Hp Hne Hl). }
  rewrite <- Ht in Hc. unfold footprint in Hle, Hd'. rewrite components_not_float in Hle, Hd' by congruence.
  injection Hd' as Hd'. apply (f_equal length) in Hd'.
  rewrite length_fmap, length_take in Hd'. cbn [snd] in Hc. simpl in Hd'. lia.
Qed.

Definition keeps_typed (f : DataContainer -> result DataContainer) : Prop :=
  forall c c', typed c -> f c = Ok c' -> typed c'.

Lemma keeps_typed_rfold {A} (f : A -> DataContainer -> result DataContainer) xs :
  (forall x, keeps_typed (f x)) -> keeps_typed (rfold f xs).
Proof.
  intros Hf. induction xs as [|x xs IH]; intros c c' Hty; simpl; [by intros [= <-]|].
  destruct (f x c) as [c1|] eqn:E; simpl; [|done]. apply IH. exact (Hf x c c1 Hty E).
Qed.

(** A [SetMeta] that writes no parameter type keeps [typed] and each
    parameter's type. *)
Lemma set_meta_typed e m c c' id a :
  in_mask ParamType (mask m) = false -> typed c -> dc_params c !! id = Some a ->
  DataContainer_SetMeta e m c = Ok c' ->
  typed c' /\ exists a', dc_params c' !! id = Some a' /\ a_type (pa_attrs a') = a_type (pa_attrs a).
Proof.
  intros Hm Hty Ha E. pose proof (set_meta_tv _ _ _ _ Hm E) as Htv. split; [exact (typed_tv _ _ Htv Hty)|].
  assert (Hb : (tv <$> dc_params c') !! id = Some (tv a)) by (by rewrite Htv, lookup_fmap, Ha).
  apply lookup_fmap_Some in Hb as (a' & Hab & Ha'). exists a'. split; [done|]. by injection Hab.
Qed.

Lemma parse_param_typed ver pid x : keeps_typed (parse_param ver pid x).
Proof.
  intros c c' Hty. destruct x as [tag attrs kids|]; simpl; [|done].
  destruct (param_attrs ver tag attrs) as [[[[[n ty] lst] cu] fp]|]; simpl; [|done].
  destruct (DataContainer_AddParameter _ _ _ _ c) as [[id c1]|] eqn:E; simpl; [|done].
  apply add_parameter_Ok in E as (? & ? & _ & [= <-] & [= <-] & _ & _ & _ & -> & ->).
  set (a1 := mkParamRec pid (mkParamAttrs n ty (flag_of_int (int_of_flag cu)) false) None).
  assert (Hty1 : typed (mkDC (dc_root c) (dc_plugins c) (<[dc_next c := a1]> (dc_params c)) (dc_next c + 1)))
    by (by apply map_Forall_insert_2).
  assert (Hg : forall c2, (if fp then pe (DataContainer_SetMeta (dc_next c) (meta_one ParamFilePath (FInt 1))
      (mkDC (dc_root c) (dc_plugins c) (<[dc_next c := a1]> (dc_params c)) (dc_next c + 1))) else
      Ok (mkDC (dc_root c) (dc_plugins c) (<[dc_next c := a1]> (dc_params c)) (dc_next c + 1))) = Ok c2 ->
      typed c2 /\ exists a2, dc_params c2 !! dc_next c = Some a2 /\ a_type (pa_attrs a2) = ty).
  { intros c2. destruct fp; [intros Hm%pe_Ok|intros [= <-]; split; [done|exists a1; cbn [dc_params]; by rewrite lookup_insert_eq]].
    exact (set_meta_typed _ (meta_one ParamFilePath (FInt 1)) _ _ _ a1 eq_refl Hty1 (lookup_insert_eq _ _ _) Hm). }
  destruct (if fp then _ else _) as [c2|]; simpl; [|done].
  destruct (Hg c2 eq_refl) as [Hty2 (a2 & Ha2 & Ht2)].
  destruct kids as [|k ks]; [by intros [= <-]|].
  destruct (desc_of_type ty lst) as [t|] eqn:Hd; cbn [req of_option rbind]; [|done].
  destruct (mapM value_text (k :: ks)) as [texts|] eqn:Et; cbn [req of_option rbind]; [|done].
  destruct (parse_value t texts) as [dv|] eqn:Hp; cbn [req of_option rbind]; [|done].
  intros Hs%pe_Ok. apply (set_value_typed _ _ _ _ _ _ _ _ _ Hty2 Ha2 Ht2 Hd Hp); [|done].
  apply length_mapM in Et. intros ->. done.
Qed.

Lemma parse_plugin_typed ver x : keeps_typed (parse_plugin ver x).
Proof.
  intros c c' Hty. unfold parse_plugin.
  destruct (plugin_parts ver x) as [[[[[n ty] cl] ov] params]|]; simpl; [|done].
  destruct (DataContainer_AddPlugin _ _ _ c) as [[id c1]|] eqn:E; simpl; [|done].
  assert (Hty1 : typed c1) by (apply add_plugin_Ok in E as (? & ? & ? & _ & _ & _ & _ & _ & ->); exact Hty).
  assert (Hg : forall c2, (match ov with None => Ok c1 | Some s => z <- req (z_of_text s) ;;
      pe (DataContainer_SetMeta id (meta_one PluginVersion (FInt z)) c1) end) = Ok c2 -> typed c2).
  { intros c2. destruct ov as [s|]; [|by intros [= <-]]. destruct (z_of_text s) as [z|]; simpl; [|done].
    intros Hm%pe_Ok. exact (typed_tv _ _ (set_meta_tv _ (meta_one PluginVersion (FInt z)) _ _ eq_refl Hm) Hty1). }
  destruct (match ov with None => _ | Some _ => _ end) as [c2|]; simpl; [|done].
  apply (keeps_typed_rfold _ _ (parse_param_typed ver id)). exact (Hg c2 eq_refl).
Qed.

Lemma parse_doc_typed x : keeps_typed (parse_doc x).
Proof.
  intros c c' Hc. destruct x as [tag attrs kids|]; simpl; [|done].
  destruct (bool_decide _); simpl; [|done]. destruct (doc_version attrs) as [ver|]; simpl; [|done].
  apply (keeps_typed_rfold _ _ (parse_plugin_typed ver)). exact Hc.
Qed.

(** Whatever it reads, [DataContainer_Load] leaves a container in which
    every parameter's type string describes its value: a loaded document
    is one the round trip applies to. *)
Lemma load_typed x dc : typed (DataContainer_Load x dc).2.
Proof.
  assert (Hc : typed (clear dc)) by apply map_Forall_empty.
  unfold DataContainer_Load. destruct (parse_doc x (clear dc)) as [dc'|] eqn:E; [|done].
  exact (parse_doc_typed x _ _ Hc E).
Qed.

End Typed.

(** ** A second round changes nothing *)

Section Again.
Context `{FloatTextLaws} (bv : Z).

Lemma repr_idem ver d : repr bv ver (repr bv ver d) = repr bv ver d.
Proof.
  destruct d as [r P]. unfold repr. cbn [ad_root ad_plugins]. f_equal.
  - unfold repr_root. by destruct (ver =? 1).
  - rewrite <- map_fmap_compose. apply map_fmap_ext. intros k pl _. unfold compose, repr_aplugin.
    cbn [apl_attrs apl_params]. f_equal. rewrite <- map_fmap_compose. apply map_fmap_ext.
    intros n ap _. unfold compose, repr_aparam. cbn. by rewrite normalize_type_idem.
Qed.

Lemma load_Ok x dc d : DataContainer_Load x dc = (1, d) -> parse_doc x (clear dc) = Ok d.
Proof. unfold DataContainer_Load. destruct (parse_doc x (clear dc)); by intros [=<-]. Qed.

(** C33: Saving and loading is idempotent: a document saved, loaded,
    saved again in the same layout and loaded again is, by names, the
    document of the first load. *)
Theorem save_load_idempotent ver dc dc0 dc0' x d1 x' :
  dc_wf dc -> typed dc -> dc_wf dc0 -> dc_wf dc0' ->
  dc_next dc0 + Z.of_nat (size (dc_plugins dc) + size (dc_params dc)) <= u32_max + 1 ->
  DataContainer_Save bv dc ver = Ok x -> DataContainer_Load x dc0 = (1, d1) ->
  dc_next dc0' + Z.of_nat (size (dc_plugins d1) + size (dc_params d1)) <= u32_max + 1 ->
  DataContainer_Save bv d1 ver = Ok x' ->
  exists d2, DataContainer_Load x' dc0' = (1, d2) /\ abs d2 = abs d1.
Proof.
  intros Hwf Hty Hwf0 Hwf0' Hmax (Hver & ->)%save_Ok E1 Hmax' (_ & ->)%save_Ok.
  destruct (load_emit bv ver dc dc0 Hver Hwf Hty Hwf0 Hmax) as (d1' & E1' & Hwf1 & Habs1).
  rewrite E1 in E1'. injection E1' as <-.
  pose proof (parse_doc_typed _ _ _ (map_Forall_empty _) (load_Ok _ _ _ E1)) as Hty1.
  destruct (load_emit bv ver d1 dc0' Hver Hwf1 Hty1 Hwf0' Hmax') as (d2 & E2 & _ & Habs2).
  exists d2. split; [done|]. by rewrite Habs2, Habs1, repr_idem.
Qed.

End Again.

(** ** The round trip through text *)

(** An element that prints and reads back. *)
Definition elem_wf (x : Xml) : Prop :=
  xml_wf x = true /\ match x with XElem _ _ _ => True | XText _ => False end.

Lemma elems_no_adj ks : Forall elem_wf ks -> no_adj_text ks = true.
Proof.
  induction 1 as [|k ks [_ Hk] Hks IH]; [done|]. destruct k as [t a kk|]; [|done].
  destruct ks as [|[] ks]; simpl in *; done.
Qed.

Lemma elem_wf_intro t a ks :
  name_ok t = true -> forallb (fun kv => name_ok kv.1) a = true -> Forall elem_wf ks -> elem_wf (XElem t a ks).
Proof.
  intros Ht Ha Hks. split; [|done]. apply xml_wf_elem. split_and!; [done|done|by apply elems_no_adj|].
  eapply Forall_impl; [exact Hks|]. by intros k [].
Qed.

Lemma value_elem_wf s : elem_wf (value_elem s).
Proof.
  split; [|done]. unfold value_elem. destruct (String.eqb_spec s "") as [->|Hs]; [done|].
  apply xml_wf_elem. split_and!; [done|done|done|]. constructor; [|done]. simpl.
  by apply negb_true_iff, String.eqb_neq.
Qed.

Lemma values_of_wf `{FloatText} a : Forall elem_wf (values_of a).
Proof.
  unfold values_of, value_elems. destruct (pa_value a) as [v|]; simpl; [|done].
  destruct (v_data v); [repeat constructor; apply value_elem_wf|].
  apply Forall_fmap, Forall_forall. intros s _. apply value_elem_wf.
Qed.

Section Text.
Context `{FloatTextLaws} (bv : Z).

Lemma eparam_wf ver a : elem_wf (eparam ver a).
Proof.
  unfold eparam. destruct (ver =? 1).
  - apply elem_wf_intro; [done|done|apply values_of_wf].
  - apply elem_wf_intro; [done| |apply values_of_wf]. by destruct (a_filePath (pa_attrs a)).
Qed.

Lemma plug_xml_wf ver pa : elem_wf (plug_xml bv ver pa).
Proof.
  unfold plug_xml, eplugin. assert (Hp : Forall elem_wf (eparam ver <$> pa.2))
    by (apply Forall_fmap, Forall_forall; intros; apply eparam_wf).
  destruct (ver =? 1); apply elem_wf_intro; try done. repeat constructor. by apply elem_wf_intro.
Qed.

Lemma root_tag_name r : root_wf r -> name_ok (r_tag r) = true.
Proof.
  intros [_ Ht]. unfold root_tags in Ht.
  repeat match goal with H : _ ∈ _ :: _ |- _ => apply elem_of_cons in H as [->|H] end;
    [done..|by apply not_elem_of_nil in Ht].
Qed.

(** Every document [emit] writes is an element the reader gives back. *)
Lemma emit_wf ver dc : dc_wf dc -> elem_wf (emit bv ver dc).
Proof.
  intros Hwf. rewrite emit_plugs. apply elem_wf_intro.
  - exact (root_tag_name _ (wf_root _ Hwf)).
  - unfold root_attrs. destruct (ver =? 1), (r_category (dc_root dc)), (r_preview (dc_root dc)); done.
  - apply Forall_fmap, Forall_forall. intros pa _. apply plug_xml_wf.
Qed.

(** C35: The text [DataContainer_Save] writes, passed to
    [DataContainer_Load] with its length, loads back as the document by
    names up to what the layout records: the spec's round trip through
    bytes. *)
Theorem save_load_text ver dc dc0 s :
  dc_wf dc -> typed dc -> dc_wf dc0 ->
  dc_next dc0 + Z.of_nat (size (dc_plugins dc) + size (dc_params dc)) <= u32_max + 1 ->
  DataContainer_Save_text bv dc ver = Ok s ->
  exists dc', DataContainer_Load_text s (Z.of_nat (String.length s)) dc0 = (1, dc') /\ dc_wf dc' /\
    abs dc' = repr bv ver (abs dc).
Proof.
  intros Hwf Hty Hwf0 Hmax Hs. unfold DataContainer_Save_text in Hs.
  destruct (DataContainer_Save bv dc ver) as [x|] eqn:Ex; [|done]. injection Hs as <-.
  apply save_Ok in Ex as [Hver ->]. unfold DataContainer_Load_text. rewrite c_buffer_length.
  destruct (emit_wf ver dc Hwf) as [Hw _]. rewrite emit_plugs in Hw |- *. rewrite parse_print by done.
  rewrite <- emit_plugs. exact (load_emit bv ver dc dc0 Hver Hwf Hty Hwf0 Hmax).
Qed.

End Text.

(** ** Witnesses *)

(** A parameter declared ["integer"] holding a color: built by the public
    calls, it is not [typed]; what Save writes loads, but the color comes
    back as the one integer its first word reads as. *)
Definition ex_untyped : DataContainer :=
  match DataContainer_AddParameter 1 (Some "n"%string) (Some "integer"%string) 0 ex_dc1 with
  | Ok (_, d) =>
      match DataContainer_SetValue 2 (RawWords [1; 2; 3]) ex_word_type 0 d with Ok d' => d' | Err _ => d end
  | Err _ => ex_dc1
  end.

Definition ex_untyped_loaded : DataContainer := (DataContainer_Load (emit 7 1 ex_untyped) DataContainer_Create).2.

Example untyped_save_loses_value :
  ~ typed ex_untyped /\ (DataContainer_Load (emit 7 1 ex_untyped) DataContainer_Create).1 = 1 /\
  DataContainer_GetValue ex_untyped 2 =
    Ok [mkValueData 1 2 1 0 0 3 Rdt_Float Stdt_Array3 Sqdt_Single (VDWords [1; 2; 3])] /\
  DataContainer_GetValue ex_untyped_loaded 2 =
    Ok [mkValueData 1 2 1 0 0 1 Rdt_Int Stdt_Single Sqdt_Single (VDWords [1])].
Proof.
  split; [apply (bool_decide_unpack (~ typed ex_untyped)); vm_compute; reflexivity|].
  split; [|split]; vm_compute; reflexivity.
Qed.

Lemma ex_after_set_wf : dc_wf ex_after_set.
Proof. apply (set_value_wf 2 (RawWords [1; 2; 3]) ex_word_type 0 ex_dc2); [exact ex_dc2_wf|reflexivity]. Qed.

Lemma save_load_roundtrip_witness :
  typed ex_after_set /\
  exists dc', DataContainer_Load (emit 7 1 ex_after_set) DataContainer_Create = (1, dc') /\ dc_wf dc' /\
    abs dc' = repr 7 1 (abs ex_after_set).
Proof.
  assert (Hty : typed ex_after_set) by (apply (bool_decide_unpack _); vm_compute; reflexivity).
  split; [exact Hty|].
  apply (save_load_roundtrip 7 1 ex_after_set DataContainer_Create (emit 7 1 ex_after_set)
           ex_after_set_wf Hty create_wf); [apply Z.leb_le; vm_compute; reflexivity|reflexivity].
Defined.

Definition ex_after_set_loaded : DataContainer := (DataContainer_Load (emit 7 1 ex_after_set) DataContainer_Create).2.

Lemma save_load_idempotent_witness :
  DataContainer_Load (emit 7 1 ex_after_set) DataContainer_Create = (1, ex_after_set_loaded) /\
  exists d2, DataContainer_Load (emit 7 1 ex_after_set_loaded) DataContainer_Create = (1, d2) /\
    abs d2 = abs ex_after_set_loaded.
Proof.
  assert (Hty : typed ex_after_set) by (apply (bool_decide_unpack _); vm_compute; reflexivity).
  assert (E1 : DataContainer_Load (emit 7 1 ex_after_set) DataContainer_Create = (1, ex_after_set_loaded))
    by (vm_compute; reflexivity).
  split; [exact E1|].
  apply (save_load_idempotent 7 1 ex_after_set DataContainer_Create DataContainer_Create
           (emit 7 1 ex_after_set) ex_after_set_loaded (emit 7 1 ex_after_set_loaded)
           ex_after_set_wf Hty create_wf create_wf); [apply Z.leb_le; vm_compute; reflexivity|reflexivity|exact E1|
     apply Z.leb_le; vm_compute; reflexivity|reflexivity].
Defined.

Lemma save_load_text_witness :
  exists dc', DataContainer_Load_text (print (emit 7 1 ex_after_set))
                (Z.of_nat (String.length (print (emit 7 1 ex_after_set)))) DataContainer_Create = (1, dc') /\
    dc_wf dc' /\ abs dc' = repr 7 1 (abs ex_after_set).
Proof.
  assert (Hty : typed ex_after_set) by (apply (bool_decide_unpack _); vm_compute; reflexivity).
  apply (save_load_text 7 1 ex_after_set DataContainer_Create _ ex_after_set_wf Hty create_wf);
    [apply Z.leb_le; vm_compute; reflexivity|reflexivity].
Defined.

End RoundTrip.
