(* ===== verification/Session.v ===== *)
(** * Sessions: sequences of calls on one data container

    A client's calls as a step relation on the container: [exec] is one
    exported call as C sees it (its [unsigned]/[int] return value and the
    container afterwards; a failed call returns 0 and leaves the container
    untouched, except [Load] and [Open], which empty it before reading),
    [reachable] the containers a client can build from
    [DataContainer_Create], and [run] a sequence of calls with the ids
    the adding calls returned.  The theorems: every reachable container
    is sound ([dc_sound]), ids are never reused in a container's
    lifetime, and plugin names, which no call checks (header line 362),
    stay unique along every session whose calls [keeps_names] accepts:
    the caller's side of the contract. *)

From Stdlib Require Import ZArith Lia Sorting.Sorted.
From stdpp Require Import base decidable option list sets gmap strings.
From S2P Require Import Prelude TypeDesc Meta MetaKinds ValueStore Container Xml Serialize.
Import MetaMapper MetaKinds ValueStore Container Xml Serializer.

Open Scope Z_scope.
Local Open Scope vrmat_scope.

Module Session.

Inductive Op :=
  | AddPlugin (name type klass : option string)
  | AddParameter (pluginId : Z) (name type : option string) (custom : Z)
  | RemoveElement (elementId : Z)
  | SetValue (paramId : Z) (data : RawData) (type listLength : Z)
  | SetMeta (element : Z) (meta : Meta)
  | Load (doc : Xml)
  | Open (fileName : string) (doc : Xml).

(** The C call: a new id or a nonzero status, or 0 with the container
    unchanged. *)
Section Calls.
Context `{FloatText}.

Definition exec (o : Op) (dc : DataContainer) : Z * DataContainer :=
  match o with
  | AddPlugin n t k =>
      match DataContainer_AddPlugin n t k dc with Ok (id, dc') => (id, dc') | Err _ => (0, dc) end
  | AddParameter pid n t c =>
      match DataContainer_AddParameter pid n t c dc with Ok (id, dc') => (id, dc') | Err _ => (0, dc) end
  | RemoveElement id =>
      match DataContainer_RemoveElement id dc with Ok dc' => (1, dc') | Err _ => (0, dc) end
  | SetValue pid d t l =>
      match DataContainer_SetValue pid d t l dc with Ok dc' => (1, dc') | Err _ => (0, dc) end
  | SetMeta e m =>
      match DataContainer_SetMeta e m dc with Ok dc' => (1, dc') | Err _ => (0, dc) end
  | Load x => DataContainer_Load x dc
  | Open f x => DataContainer_Open f x dc
  end.

(** The calls that return the id of a new element. *)
Definition creates (o : Op) : bool :=
  match o with
  | AddPlugin _ _ _ | AddParameter _ _ _ _ => true
  | _ => false
  end.

Inductive reachable : DataContainer -> Prop :=
  | reach_create : reachable DataContainer_Create
  | reach_exec o dc : reachable dc -> reachable (exec o dc).2.

(** The calls of [ops] in order; the ids the successful adding calls
    returned, and the final container. *)
Fixpoint run (ops : list Op) (dc : DataContainer) : list Z * DataContainer :=
  match ops with
  | [] => ([], dc)
  | o :: os =>
      let '(r, dc1) := exec o dc in
      let '(ids, dc2) := run os dc1 in
      ((if creates o && negb (r =? 0) then [r] else []) ++ ids, dc2)
  end.

(** The calls that keep plugin names unique, the caller's part of the
    header's contract ("It is user responsibility to assure name
    uniqueness if required", line 362): an [AddPlugin] of a name no
    plugin has, a [SetMeta] that gives a plugin no other plugin's name,
    a [Load] or [Open] of a document whose plugin names are distinct,
    and every other call. *)
Definition keeps_names (o : Op) (dc : DataContainer) : bool :=
  match o with
  | AddPlugin (Some n) _ _ => bool_decide (plugin_named dc n = None)
  | SetMeta e m =>
      match dc_plugins dc !! e with
      | Some p => match set_meta m p with Ok p' => free_for (plugin_named dc (p_name p')) e | Err _ => true end
      | None => true
      end
  | Load x | Open _ x => bool_decide (NoDup (doc_plugin_names x))
  | _ => true
  end.

(** The containers a client reaches by such calls. *)
Inductive reachable_named : DataContainer -> Prop :=
  | rn_create : reachable_named DataContainer_Create
  | rn_exec o dc : reachable_named dc -> keeps_names o dc = true -> reachable_named (exec o dc).2.

(** ** Lemmas *)

(** [Open] is a load that then records the file name. *)
Lemma open_grows f x dc :
  dc_sound dc -> dc_sound (DataContainer_Open f x dc).2 /\ dc_next dc <= dc_next (DataContainer_Open f x dc).2.
Proof.
  intros Hwf. unfold DataContainer_Open. pose proof (load_grows x dc Hwf) as Hl.
  destruct (DataContainer_Load x dc) as [r dc'] eqn:E; simpl in *.
  destruct (r =? 0); [done|]. destruct Hl as [Hs Hn]. split; [|done].
  apply set_root_sound; [done|]. destruct (wf_root _ Hs). by split.
Qed.

Lemma exec_sound o dc : dc_sound dc -> dc_sound (exec o dc).2.
Proof.
  intros Hwf. destruct o as [| | | | |x|f x]; [..|apply load_grows, Hwf|apply open_grows, Hwf];
    simpl; case_match; try done; try destruct a; simpl.
  - by eapply add_plugin_sound.
  - by eapply add_parameter_sound.
  - by eapply remove_sound.
  - by eapply set_value_sound.
  - by eapply set_meta_sound.
Qed.

Lemma open_wf_distinct f x dc :
  dc_sound dc -> NoDup (doc_plugin_names x) -> dc_wf (DataContainer_Open f x dc).2.
Proof.
  intros Hwf Hnd. pose proof (load_wf_distinct x dc Hwf Hnd) as Hl. unfold DataContainer_Open.
  destruct (DataContainer_Load x dc) as [r dc'] eqn:E; simpl in *.
  destruct (r =? 0); [done|]. apply set_root_wf; [done|]. destruct (wf_root _ Hl). by split.
Qed.

(** A call [keeps_names] accepts keeps the plugin names unique. *)
Lemma exec_wf_named o dc : dc_wf dc -> keeps_names o dc = true -> dc_wf (exec o dc).2.
Proof.
  intros Hwf Hk. destruct o as [n t k|pid n t c|id|pid d t l|e m|x|f x]; simpl in Hk |- *.
  - destruct (DataContainer_AddPlugin n t k dc) as [[id dc']|] eqn:E; [|done].
    pose proof E as (n' & t' & k' & -> & -> & -> & _)%add_plugin_Ok.
    apply bool_decide_eq_true in Hk. exact (add_plugin_wf _ _ _ _ _ _ Hwf E Hk).
  - destruct (DataContainer_AddParameter pid n t c dc) as [[id dc']|] eqn:E; [|done].
    exact (add_parameter_wf _ _ _ _ _ _ _ Hwf E).
  - destruct (DataContainer_RemoveElement id dc) as [dc'|] eqn:E; [|done].
    exact (remove_wf _ _ _ Hwf E).
  - destruct (DataContainer_SetValue pid d t l dc) as [dc'|] eqn:E; [|done].
    exact (set_value_wf _ _ _ _ _ _ Hwf E).
  - destruct (DataContainer_SetMeta e m dc) as [dc'|] eqn:E; [|done].
    apply (set_meta_wf _ _ _ _ Hwf E). intros p p' Hp Hs. by rewrite Hp, Hs in Hk.
  - apply bool_decide_eq_true in Hk. exact (load_wf_distinct x dc Hwf Hk).
  - apply bool_decide_eq_true in Hk. exact (open_wf_distinct f x dc Hwf Hk).
Qed.

(** One call: the counter never goes down, and an adding call that
    succeeded returned the counter and moved it past. *)
Lemma exec_next o dc :
  dc_sound dc ->
  dc_next dc <= dc_next (exec o dc).2 /\
  (creates o && negb ((exec o dc).1 =? 0) = true ->
     (exec o dc).1 = dc_next dc /\ dc_next (exec o dc).2 = dc_next dc + 1).
Proof.
  intros Hwf. pose proof (wf_next _ Hwf).
  destruct o as [| | | | |x|f x];
    [..|split; [apply load_grows, Hwf|done]|split; [apply open_grows, Hwf|done]];
    simpl; case_match eqn:E; try destruct a; simpl; try (split; [lia|done]).
  - apply add_plugin_Ok in E as (? & ? & ? & _ & _ & _ & _ & -> & ->).
    simpl. split; [lia|]. intros _. lia.
  - apply add_parameter_Ok in E as (? & ? & _ & _ & _ & _ & _ & _ & -> & ->).
    simpl. split; [lia|]. intros _. lia.
  - apply remove_next in E. simpl in E. split; [lia|done].
  - apply set_value_next in E. simpl in E. split; [lia|done].
  - apply set_meta_next in E. simpl in E. split; [lia|done].
Qed.

(** ** Theorems *)

(** C1: Every container a client can reach by exported calls is sound: ids
    are below the counter and never 0, plugins and parameters never share
    an id, every parameter's plugin exists, parameter names are nonempty
    and unique in their plugin, stored values have their descriptor's
    shape, and the root is valid. *)
Theorem reachable_sound dc : reachable dc -> dc_sound dc.
Proof.
  induction 1 as [|o dc _ IH].
  - apply create_wf.
  - by apply exec_sound.
Qed.

(** C7: No call checks plugin names, but a client that keeps them unique
    call by call keeps them unique along the whole session: every
    container reached by calls [keeps_names] accepts is well formed,
    plugin names unique included. *)
Theorem reachable_names_unique dc : reachable_named dc -> dc_wf dc.
Proof.
  induction 1 as [|o dc _ IH Hk].
  - apply create_wf.
  - by apply exec_wf_named.
Qed.

Lemma run_ids_bounds ops dc :
  dc_sound dc ->
  StronglySorted Z.lt (run ops dc).1 /\
  Forall (fun i => dc_next dc <= i < dc_next (run ops dc).2) (run ops dc).1 /\
  dc_next dc <= dc_next (run ops dc).2.
Proof.
  revert dc. induction ops as [|o os IH]; intros dc Hwf; simpl; [split; [constructor|split; [done|lia]]|].
  destruct (exec o dc) as [r dc1] eqn:E.
  destruct (run os dc1) as [ids dc2] eqn:Er.
  pose proof (exec_next o dc Hwf) as [Hmono Hcr]. rewrite E in Hmono, Hcr. simpl in *.
  pose proof (exec_sound o dc Hwf) as Hwf1. rewrite E in Hwf1. simpl in Hwf1.
  destruct (IH dc1 Hwf1) as (Hs & Hf & Hm). rewrite Er in Hs, Hf, Hm. simpl in *.
  destruct (creates o && negb (r =? 0)) eqn:Hc; simpl.
  - destruct (Hcr eq_refl) as [-> Hn]. split; [|split].
    + constructor; [done|]. eapply Forall_impl; [exact Hf|]. simpl. lia.
    + constructor; [lia|]. eapply Forall_impl; [exact Hf|]. simpl. lia.
    + lia.
  - split; [done|]. split; [|lia]. eapply Forall_impl; [exact Hf|]. simpl. lia.
Qed.

(** C2: Ids are never reused: along any sequence of calls the ids returned by
    the adding calls increase strictly, lie between the counters before
    and after, and none is the id of an element the starting container
    holds (nor, the counter being above them, of one it ever held). *)
Theorem run_ids_fresh ops dc :
  dc_sound dc ->
  StronglySorted Z.lt (run ops dc).1 /\
  Forall (fun i => dc_next dc <= i < dc_next (run ops dc).2) (run ops dc).1 /\
  (forall i, is_Some (dc_plugins dc !! i) \/ is_Some (dc_params dc !! i) -> i ∉ (run ops dc).1).
Proof.
  intros Hwf. destruct (run_ids_bounds ops dc Hwf) as (Hs & Hf & _).
  split; [done|]. split; [done|]. intros i Hi Hin.
  eapply Forall_forall in Hf; [|exact Hin]. simpl in Hf.
  destruct Hi as [[p Hp]|[a Ha]].
  - apply (wf_plugin_ids _ Hwf) in Hp. lia.
  - apply (wf_param_ids _ Hwf) in Ha. lia.
Qed.

End Calls.

(** ** Witnesses *)

Definition ex_ops : list Op :=
  [AddPlugin (Some "Foo"%string) (Some "VRayMtl"%string) (Some "material"%string);
   AddParameter 1 (Some "diffuse"%string) (Some "color"%string) 0;
   AddPlugin (Some "Foo"%string) (Some "VRayMtl"%string) (Some "material"%string);
   RemoveElement 1;
   AddPlugin (Some "Bar"%string) (Some "TexBitmap"%string) (Some "bitmap"%string)].

Lemma reachable_sound_witness :
  dc_sound (exec (AddPlugin (Some "Foo"%string) (Some "VRayMtl"%string) (Some "material"%string))
           DataContainer_Create).2.
Proof. apply reachable_sound. apply reach_exec. apply reach_create. Defined.

(** Two plugins with distinct names, then the first renamed to a free name. *)
Definition ex_rename : Meta :=
  set_mask (mc_bit PluginName) (meta_set_field PluginName (FStr (Some "Baz"%string)) meta_zero).

Lemma reachable_names_unique_witness :
  dc_wf (exec (SetMeta 1 ex_rename)
    (exec (AddPlugin (Some "Bar"%string) (Some "TexBitmap"%string) (Some "bitmap"%string))
      (exec (AddPlugin (Some "Foo"%string) (Some "VRayMtl"%string) (Some "material"%string))
         DataContainer_Create).2).2).2.
Proof.
  apply reachable_names_unique.
  apply rn_exec; [apply rn_exec; [apply rn_exec; [apply rn_create|]|]|]; vm_compute; reflexivity.
Defined.

Lemma run_ids_fresh_witness :
  StronglySorted Z.lt (run ex_ops DataContainer_Create).1 /\
  Forall (fun i => dc_next DataContainer_Create <= i < dc_next (run ex_ops DataContainer_Create).2)
    (run ex_ops DataContainer_Create).1 /\
  (forall i, is_Some (dc_plugins DataContainer_Create !! i) \/ is_Some (dc_params DataContainer_Create !! i) ->
     i ∉ (run ex_ops DataContainer_Create).1).
Proof. exact (run_ids_fresh ex_ops DataContainer_Create create_wf). Defined.

End Session.
