(* ===== verification/Query.v ===== *)
(** * Queries: unique plugin names and iterators
      ([DataContainer_GetUniqueName], [DataContainer_Iterator_Create],
      [DataContainer_Iterator_Increment])

    [DataContainer_GetUniqueName] calls its callback once with a plugin
    name that no plugin of the container has: the suggested name when it
    is free, else the suggested name followed by the smallest positive
    number that makes it free.  The search is bounded by one more than the
    number of plugins, which the theorems show is always enough; the
    query changes nothing.

    An iterator is a cursor over a snapshot of the ids of the container's
    plugins, or of one plugin's parameters, taken when it is created
    (the spec allows a snapshot; it makes a structural change during
    iteration harmless to the cursor).  Creation reports the first
    element to the callback; each increment reports the next and returns
    nonzero, or returns 0 at the end. *)

From Stdlib Require Import ZArith Lia List.
From stdpp Require Import base decidable option list sets gmap strings pretty.
From S2P Require Import Prelude TypeDesc MetaKinds ValueStore Container.
Import TypeDesc MetaKinds ValueStore Container.

Open Scope Z_scope.

Module Query.

(** ** Unique names *)

Definition taken (dc : DataContainer) (n : string) : bool :=
  bool_decide (n ∈ plugin_names dc).

(** The [k]-th candidate for a suggested name. *)
Definition candidate (base : string) (k : nat) : string := base +:+ pretty k.

(** The first free candidate from [k] on, trying at most [fuel] of them. *)
Fixpoint first_free (dc : DataContainer) (base : string) (k fuel : nat) : string :=
  match fuel with
  | O => candidate base k
  | S f => if taken dc (candidate base k) then first_free dc base (S k) f else candidate base k
  end.

Definition unique_name (dc : DataContainer) (base : string) : string :=
  if taken dc base then first_free dc base 1 (S (size (dc_plugins dc))) else base.

(** The callbacks the function makes: one, with the name; none for a
    null suggestion. *)
Definition DataContainer_GetUniqueName (dc : DataContainer) (pluginName : option string)
    : list string :=
  match pluginName with
  | None => []
  | Some n => [unique_name dc n]
  end.

(** ** Lemmas *)

Lemma taken_spec dc n :
  taken dc n = true <-> exists i p, dc_plugins dc !! i = Some p /\ p_name p = n.
Proof.
  unfold taken, plugin_names. rewrite bool_decide_eq_true, list_elem_of_fmap.
  split.
  - intros ([i p] & -> & Hin%elem_of_map_to_list). eauto.
  - intros (i & p & Hp & <-). exists (i, p). split; [done|]. by apply elem_of_map_to_list.
Qed.

Lemma length_plugin_names dc : length (plugin_names dc) = size (dc_plugins dc).
Proof. unfold plugin_names. by rewrite length_fmap, length_map_to_list. Qed.

Lemma first_free_spec dc base k fuel :
  exists j, (k <= j <= k + fuel)%nat /\ first_free dc base k fuel = candidate base j /\
    (forall i, (k <= i < j)%nat -> taken dc (candidate base i) = true) /\
    ((j < k + fuel)%nat -> taken dc (candidate base j) = false).
Proof.
  revert k. induction fuel as [|f IH]; intros k; simpl.
  - exists k. split; [lia|]. split; [done|]. split; [lia|lia].
  - destruct (taken dc (candidate base k)) eqn:Hk.
    + destruct (IH (S k)) as (j & Hj & -> & Hlt & Hfree). exists j.
      split; [lia|]. split; [done|]. split; [|intros; apply Hfree; lia].
      intros i Hi. destruct (decide (i = k)) as [->|]; [done|]. apply Hlt. lia.
    + exists k. split; [lia|]. split; [done|]. split; [lia|done].
Qed.

Lemma candidate_inj base i j : candidate base i = candidate base j -> i = j.
Proof. unfold candidate. intros H%(inj (String.app base)). by apply (inj pretty). Qed.

(** Pigeonhole: [n + 1] distinct candidates cannot all be among the [n]
    plugin names. *)
Lemma candidates_not_all_taken dc base :
  ~ (forall i, (1 <= i < S (S (size (dc_plugins dc))))%nat -> taken dc (candidate base i) = true).
Proof.
  intros Hall.
  set (cs := candidate base <$> seq 1 (S (size (dc_plugins dc)))).
  assert (Hnd : NoDup cs).
  { apply NoDup_fmap_2_strong; [|apply NoDup_seq]. intros ? ? _ _. apply candidate_inj. }
  assert (Hincl : incl cs (plugin_names dc)).
  { intros c Hc. apply list_elem_of_In in Hc.
    apply list_elem_of_fmap in Hc as (i & -> & Hi%elem_of_seq).
    apply list_elem_of_In. specialize (Hall i ltac:(lia)). unfold taken in Hall.
    by apply bool_decide_eq_true in Hall. }
  apply NoDup_ListNoDup in Hnd.
  pose proof (NoDup_incl_length Hnd Hincl) as Hlen.
  rewrite length_plugin_names in Hlen. unfold cs in Hlen.
  rewrite length_fmap, length_seq in Hlen. lia.
Qed.

(** ** Theorems *)

(** The name found is not taken: the suggested one when free, else the
    first free candidate, which the bounded search always reaches. *)
Lemma unique_name_not_taken dc base : taken dc (unique_name dc base) = false.
Proof.
  unfold unique_name. destruct (taken dc base) eqn:Hb; [|done].
  destruct (first_free_spec dc base 1 (S (size (dc_plugins dc)))) as (j & Hj & -> & Hlt & Hfree).
  destruct (decide (j < 1 + S (size (dc_plugins dc))))%nat as [Hj'|Hj']; [by apply Hfree|].
  exfalso. apply (candidates_not_all_taken dc base). intros i' Hi'. apply Hlt. lia.
Qed.

(** C17: The name [DataContainer_GetUniqueName] returns is free: no plugin of
    the container has it. *)
Theorem unique_name_fresh dc base :
  forall i p, dc_plugins dc !! i = Some p -> p_name p <> unique_name dc base.
Proof.
  intros i p Hp Hn. pose proof (unique_name_not_taken dc base) as Hf.
  assert (Ht : taken dc (unique_name dc base) = true) by (apply taken_spec; eauto). congruence.
Qed.

(** C18: The suggested name comes back unchanged when it is free; otherwise the
    result is the suggested name with the smallest positive suffix that
    is free. *)
Theorem unique_name_minimal dc base :
  (taken dc base = false -> unique_name dc base = base) /\
  (taken dc base = true -> exists j, (1 <= j)%nat /\
     unique_name dc base = candidate base j /\ taken dc (candidate base j) = false /\
     forall i, (1 <= i < j)%nat -> taken dc (candidate base i) = true).
Proof.
  unfold unique_name. split; intros Hb; rewrite Hb; [done|].
  destruct (first_free_spec dc base 1 (S (size (dc_plugins dc)))) as (j & Hj & Heq & Hlt & Hfree).
  exists j. split; [lia|]. split; [done|]. split; [|done].
  destruct (decide (j < 1 + S (size (dc_plugins dc))))%nat as [Hj'|Hj']; [by apply Hfree|].
  exfalso. apply (candidates_not_all_taken dc base). intros i Hi. apply Hlt. lia.
Qed.

(** ** A client adding plugins under fresh names *)

(** [k] rounds of: ask [DataContainer_GetUniqueName] for a name from
    [base], then [DataContainer_AddPlugin] under it; the ids returned and
    the container after. *)
Fixpoint add_unique (base ty kl : string) (k : nat) (dc : DataContainer) : list Z * DataContainer :=
  match k with
  | O => ([], dc)
  | S k' =>
      match DataContainer_GetUniqueName dc (Some base) with
      | [n] =>
          match DataContainer_AddPlugin (Some n) (Some ty) (Some kl) dc with
          | Ok (id, dc1) => let '(ids, dc2) := add_unique base ty kl k' dc1 in (id :: ids, dc2)
          | Err _ => ([], dc)
          end
      | _ => ([], dc)
      end
  end.

(** [AddPlugin] under the name [GetUniqueName] gave succeeds while ids
    are left, and the name is free. *)
Lemma add_unique_step dc base ty kl :
  dc_next dc <= u32_max ->
  DataContainer_AddPlugin (Some (unique_name dc base)) (Some ty) (Some kl) dc =
  Ok (dc_next dc, mkDC (dc_root dc) (<[dc_next dc := mkPluginAttrs (unique_name dc base) ty kl None]>
                         (dc_plugins dc)) (dc_params dc) (dc_next dc + 1)) /\
  plugin_named dc (unique_name dc base) = None.
Proof.
  intros Hmax. split; [apply add_plugin_Ok; eauto 10|].
  apply plugin_named_None. intros i p Hp Hn. pose proof (unique_name_not_taken dc base) as Hf.
  assert (taken dc (unique_name dc base) = true) by (apply taken_spec; eauto). congruence.
Qed.

(** C32: Liveness of adding: from any well-formed container with [k] ids
    left, [k] rounds of [GetUniqueName] then [AddPlugin] all succeed,
    return the next [k] ids in order, add [k] plugins and keep the plugin
    names unique. *)
Theorem add_unique_progress base ty kl k dc :
  dc_wf dc -> dc_next dc + Z.of_nat k <= u32_max + 1 ->
  (add_unique base ty kl k dc).1 = seqZ (dc_next dc) (Z.of_nat k) /\ dc_wf (add_unique base ty kl k dc).2 /\
  size (dc_plugins (add_unique base ty kl k dc).2) = (size (dc_plugins dc) + k)%nat.
Proof.
  revert dc. induction k as [|k IH]; intros dc Hwf Hmax; simpl.
  - rewrite seqZ_nil by lia. split_and!; [done|done|lia].
  - destruct (add_unique_step dc base ty kl ltac:(lia)) as [E Hfree]. rewrite E.
    pose proof (add_plugin_wf _ _ _ _ _ _ Hwf E Hfree) as Hwf1.
    destruct (IH _ Hwf1 ltac:(simpl; lia)) as (H1 & H2 & H3).
    destruct (add_unique base ty kl k _) as [ids dc2]. simpl in *.
    rewrite seqZ_cons by lia. rewrite H1. split_and!; [f_equal; f_equal; lia|done|].
    rewrite H3, map_size_insert_None by exact (proj1 (wf_next_fresh _ Hwf)). lia.
Qed.

(** ** Iterators *)











(** ** Lemmas on iteration *)




(** ** Theorems on iteration *)



(** ** Witnesses *)

Lemma unique_name_fresh_witness : p_name ex_plugin <> unique_name ex_dc2 "Foo".
Proof. exact (unique_name_fresh ex_dc2 "Foo" 1 ex_plugin eq_refl). Defined.



Lemma add_unique_progress_witness :
  dc_wf ex_dc2 /\ dc_next ex_dc2 + Z.of_nat 3 <= u32_max + 1 /\
  (add_unique "Foo" "VRayMtl" "material" 3 ex_dc2).1 = [3; 4; 5].
Proof.
  split_and!; [exact ex_dc2_wf|apply Z.leb_le; vm_compute; reflexivity|].
  exact (proj1 (add_unique_progress "Foo" "VRayMtl" "material" 3 ex_dc2 ex_dc2_wf
                 ltac:(apply Z.leb_le; vm_compute; reflexivity))).
Defined.

End Query.
